(** * Resource-lifecycle reconciliation: deploy_mcp.py and cleanup.py

  A shallow embedding of the deployment and teardown scripts of the
  insurance-underwriting MCP server sample, and the properties of their
  control flow.

  The scripts talk to a cloud provider through boto3 clients and to the
  operator through [input] and [print].  Every such interaction is an
  effect of a small monad: a call is answered by the world the program
  runs in (any state machine that answers calls), and the program's run
  leaves the list of the calls it made, with their answers, and of the
  lines it printed.  Python exceptions are the [Raise] outcome,
  [sys.exit] is the [SysExit] outcome, which no [except Exception]
  clause catches. *)

From Stdlib Require Import DecimalString Ascii String.
From stdpp Require Import base option list strings gmap.

Set Default Proof Using "Type".

(* ================================================================== *)
(** ** Python strings *)

Module PyStr.

(** A Python [str] is kept as the bytes of its UTF-8 encoding. *)
Definition bytes (l : list nat) : string :=
  fold_right (fun n s => String (ascii_of_nat n) s) EmptyString l.

(** The characters [str.strip()] removes, those of [str.isspace]: U+0009
    .. U+000D, U+001C .. U+0020, U+0085, U+00A0, U+1680, U+2000 .. U+200A,
    U+2028, U+2029, U+202F, U+205F and U+3000, each by its encoding. *)
Definition whitespace : list string :=
  bytes <$> [ [9]; [10]; [11]; [12]; [13]; [28]; [29]; [30]; [31]; [32];
              [194; 133]; [194; 160]; [225; 154; 128];
              [226; 128; 128]; [226; 128; 129]; [226; 128; 130]; [226; 128; 131];
              [226; 128; 132]; [226; 128; 133]; [226; 128; 134]; [226; 128; 135];
              [226; 128; 136]; [226; 128; 137]; [226; 128; 138];
              [226; 128; 168]; [226; 128; 169]; [226; 128; 175];
              [226; 129; 159]; [227; 128; 128] ].

(** [s] without [p] in front of it, when it starts with [p]. *)
Fixpoint without_prefix (p s : string) : option string :=
  match p, s with
  | EmptyString, _ => Some s
  | String a p', String b s' => if Ascii.eqb a b then without_prefix p' s' else None
  | String _ _, EmptyString => None
  end.

(** [s] without the one character of [chars] it starts with, if any. *)
Fixpoint without_first (chars : list string) (s : string) : option string :=
  match chars with
  | [] => None
  | c :: chars' =>
      match without_prefix c s with
      | Some s' => Some s'
      | None => without_first chars' s
      end
  end.

(** [s] without the characters of [chars] it starts with; [fuel] bounds
    their number, and the length of [s] is enough of it. *)
Fixpoint strip_front (chars : list string) (fuel : nat) (s : string) : string :=
  match fuel with
  | 0 => s
  | S fuel' =>
      match without_first chars s with
      | Some s' => strip_front chars fuel' s'
      | None => s
      end
  end.

Fixpoint reverse (acc s : string) : string :=
  match s with
  | EmptyString => acc
  | String a s' => reverse (String a acc) s'
  end.

(** [s.lstrip()] *)
Definition lstrip (s : string) : string :=
  strip_front whitespace (String.length s) s.

(** [s.rstrip()]: the same from the end, on the reversed bytes. *)
Definition rstrip (s : string) : string :=
  reverse EmptyString
    (strip_front (reverse EmptyString <$> whitespace) (String.length s)
                 (reverse EmptyString s)).

(** [s.strip()] *)
Definition strip (s : string) : string := rstrip (lstrip s).

Definition lower_ascii (a : ascii) : ascii :=
  let n := nat_of_ascii a in
  if ((65 <=? n) && (n <=? 90))%nat then ascii_of_nat (n + 32) else a.

(** [s.lower()] for the letters A .. Z; the other characters are kept.
    Python also changes cased letters outside ASCII, always into
    characters outside ASCII but for U+212A (into [k]) and U+0130 (into
    [i] and U+0307): into none of the letters of the answers the scripts
    compare with, so that the tests [response in ['y', 'yes']] and
    [response in ['n', 'no']] come out the same. *)
Fixpoint lower (s : string) : string :=
  match s with
  | EmptyString => EmptyString
  | String a s' => String (lower_ascii a) (lower s')
  end.

Fixpoint after_slash (acc s : string) : string :=
  match s with
  | EmptyString => acc
  | String a s' =>
      if Ascii.eqb a "/"%char then after_slash EmptyString s'
      else after_slash (acc +:+ String a EmptyString) s'
  end.

(** [s.split('/')[-1]] *)
Definition last_segment (s : string) : string := after_slash EmptyString s.

(** [p in s] *)
Fixpoint contains (p s : string) : bool :=
  String.prefix p s ||
  match s with
  | EmptyString => false
  | String _ s' => contains p s'
  end.

(** [s[:n]] *)
Definition take (n : nat) (s : string) : string := String.substring 0 n s.

(** [str(n)] for a natural number *)
Definition of_nat (n : nat) : string := NilEmpty.string_of_uint (Nat.to_uint n).

(** ["=" * n] *)
Fixpoint rule (n : nat) : string :=
  match n with
  | 0 => EmptyString
  | S n' => String "="%char (rule n')
  end.

(** [x in ['y', 'yes']] after [.strip().lower()]: the affirmative answers
    of both confirmation prompts. *)
Definition normalise (s : string) : string := lower (strip s).

Definition in_list (s : string) (l : list string) : bool :=
  existsb (String.eqb s) l.

End PyStr.

(* ================================================================== *)
(** ** Exceptions *)

(** boto3 raises a service error as a [ClientError] whose class is made
    from the client's service and the error code of the response:
    [agentcore_client.exceptions.ResourceNotFoundException] and
    [secrets_client.exceptions.ResourceNotFoundException] are different
    classes.  The other constructors are the builtin exceptions the
    scripts can meet. *)
Inductive service : Type :=
| AgentCore | SecretsManager | CognitoIdp | DynamoDB | S3 | IAM | STS.

Inductive exn : Type :=
| ClientError (svc : service) (code : string)
| KeyError (key : string)
| NameError (name : string)
| ValueError (msg : string)
| FileNotFoundError (msg : string)
| EOFError
| PyException (msg : string).      (* raise Exception(msg) *)

#[global] Instance service_eq_dec : EqDecision service.
Proof. solve_decision. Defined.

#[global] Instance exn_eq_dec : EqDecision exn.
Proof. solve_decision. Defined.

(** [isinstance(e, client.exceptions.<code>)] for the client of [svc]. *)
Definition is_modeled (svc : service) (code : string) (e : exn) : bool :=
  bool_decide (e = ClientError svc code).

(** [type(e).__name__] *)
Definition exn_name (e : exn) : string :=
  match e with
  | ClientError _ code => code
  | KeyError _ => "KeyError"
  | NameError _ => "NameError"
  | ValueError _ => "ValueError"
  | FileNotFoundError _ => "FileNotFoundError"
  | EOFError => "EOFError"
  | PyException _ => "Exception"
  end.

(** [str(e)] *)
Definition exn_str (e : exn) : string :=
  match e with
  | ClientError _ code => "An error occurred (" +:+ code +:+ ")"
  | KeyError k => "'" +:+ k +:+ "'"
  | NameError n => "name '" +:+ n +:+ "' is not defined"
  | ValueError m | FileNotFoundError m | PyException m => m
  | EOFError => "EOF when reading a line"
  end.

(** The error codes the scripts name. *)
Definition ResourceNotFound (svc : service) : exn :=
  ClientError svc "ResourceNotFoundException".
Definition NoSuchEntity : exn := ClientError IAM "NoSuchEntityException".
Definition NoSuchBucket : exn := ClientError S3 "NoSuchBucket".
Definition AccessDenied (svc : service) : exn :=
  ClientError svc "AccessDeniedException".

(* ================================================================== *)
(** ** Provider data *)

(** One entry of [list_agent_runtimes()['agentRuntimes']]. *)
Record runtime_summary := RuntimeSummary {
agentRuntimeName : string;
agentRuntimeId : string;
agentRuntimeArn : string
}.

(** [authorizerConfiguration.customJWTAuthorizer] of a runtime. *)
Record jwt_authorizer := JwtAuthorizer {
discoveryUrl : option string;
allowedClients : option (list string)
}.

(** The response of [get_agent_runtime]; an absent key is [None]. *)
Record runtime_details := RuntimeDetails {
roleArn : option string;
customJWTAuthorizer : option jwt_authorizer
}.

(** A response of [list_agent_runtimes].  The continuation token is opaque
  to the scripts: they only hand it back.  It is represented by what the
  provider answers when it is handed back, so a listing is a finite chain
  of pages and paging is structural. *)
Inductive page : Type :=
| PageLast (items : list runtime_summary)                  (* no 'nextToken' *)
| PageNext (items : list runtime_summary) (rest : page)    (* 'nextToken', next call answers [rest] *)
| PageNextFails (items : list runtime_summary) (e : exn).  (* 'nextToken', next call raises *)

Definition page_items (p : page) : list runtime_summary :=
match p with
| PageLast items | PageNext items _ | PageNextFails items _ => items
end.

(** The keyword arguments of [agentcore_runtime.configure]. *)
Record config_params := ConfigParams {
entrypoint : string;
agent_name : string;
auto_create_execution_role : bool;
cp_region : string;
authorizer_allowedClients : list string;
authorizer_discoveryUrl : string;
protocol : string;
auto_create_ecr : bool;
execution_role : option string
}.

(** An inline policy document of [add_permissions]. *)
Record policy_document := PolicyDocument {
pd_actions : list string;
pd_resources : list string
}.

(** [config]: the values config_manager.py reads from the YAML file. *)
Record EnterpriseConfig := {
mcp_server_name : string;
region : string;
applicants_table : string;
claims_table : string;
medical_records_prefix : string;
cognito_user_pool_name : string;
oauth_api_identifier : string;
model_id : string
}.

(* ================================================================== *)
(** ** Calls *)

(** The calls the two scripts make, indexed by the type of their answer. *)
Inductive api : Type -> Type :=
(* bedrock-agentcore-control *)
| ListAgentRuntimes : api page
| GetAgentRuntime (agentRuntimeId : string) : api runtime_details
| DeleteAgentRuntime (agentRuntimeId : string) : api (option string)
(* secretsmanager *)
| GetSecretValue (SecretId : string) : api (gmap string string)
| CreateSecret (Name : string) (SecretString : gmap string string) : api string
| DeleteSecret (SecretId : string) : api unit
(* cognito-idp *)
| CreateUserPool (PoolName : string) (MinimumLength : nat) : api string
| CreateUserPoolDomain (Domain UserPoolId : string) : api unit
| CreateResourceServer (UserPoolId Identifier : string) (Scopes : list string) : api unit
| CreateUserPoolClient (UserPoolId ClientName : string)
  (AllowedOAuthFlows AllowedOAuthScopes : list string) : api (string * string)
| DeleteUserPoolDomain (Domain UserPoolId : string) : api unit
| DeleteUserPool (UserPoolId : string) : api unit
(* dynamodb *)
| TableDelete (table : string) : api unit
| TableWaitUntilNotExists (table : string) : api unit
(* s3 *)
| ListObjectsV2 (Bucket : string) : api (option (list string))
| DeleteObjects (Bucket : string) (Keys : list string) : api unit
| DeleteBucket (Bucket : string) : api unit
(* iam *)
| ListRolePolicies (RoleName : string) : api (list string)
| DeleteRolePolicy (RoleName PolicyName : string) : api unit
| ListAttachedRolePolicies (RoleName : string) : api (list (string * string))
| DetachRolePolicy (RoleName PolicyArn : string) : api unit
| DeleteRole (RoleName : string) : api unit
| ListRoles : api (list string)
| GetRole (RoleName : string) : api unit
| PutRolePolicy (RoleName PolicyName : string) (doc : policy_document) : api unit
(* sts *)
| GetCallerIdentity : api string
(* bedrock_agentcore_starter_toolkit.Runtime *)
| RuntimeInit : api unit
| RuntimeConfigure (params : config_params) : api unit
| RuntimeLaunch (auto_update_on_conflict : bool) : api string
(* config.s3_bucket_name: resolves the account-id placeholder through sts *)
| S3BucketName : api string
(* the operator and the local file system *)
| Input (prompt : string) : api string
| CopyFile (src dst : string) : api unit
| WriteIntegrationDoc (agent_endpoint client_id token_url : string) : api unit.

(** What a run leaves behind. *)
Inductive event : Type :=
| EPrint (line : string)
| ESleep (seconds : nat)
| ECall {X : Type} (c : api X) (r : exn + X).

(** The world a script runs in: a state machine that answers calls, lets
  time pass, and knows which local files exist and what [os.urandom]
  yields. *)
Class World := {
PS : Type;
respond : forall X, api X -> PS -> (exn + X) * PS;
elapse : nat -> PS -> PS;
path_exists : string -> PS -> bool;
urandom_hex : PS -> string * PS
}.

(* ================================================================== *)
(** ** The monad *)

Inductive outcome (A : Type) : Type :=
| Ret (a : A)
| Raise (e : exn)
| SysExit (code : nat).
Arguments Ret {A} a.
Arguments Raise {A} e.
Arguments SysExit {A} code.

Record run (S A : Type) := Run {
res : outcome A;
fin : S;
evs : list event
}.
Arguments Run {S A} res fin evs.
Arguments res {S A} r.
Arguments fin {S A} r.
Arguments evs {S A} r.

Section Monad.
Context {W : World}.

Definition M (A : Type) : Type := @PS W -> run (@PS W) A.

Definition ret {A} (a : A) : M A := fun s => Run (Ret a) s [].
Definition raise {A} (e : exn) : M A := fun s => Run (Raise e) s [].
Definition sys_exit {A} (code : nat) : M A := fun s => Run (SysExit code) s [].

Definition bind {A B} (m : M A) (k : A -> M B) : M B := fun s =>
  let r := m s in
  match res r with
  | Ret a => let r' := k a (fin r) in Run (res r') (fin r') (evs r ++ evs r')
  | Raise e => Run (Raise e) (fin r) (evs r)
  | SysExit c => Run (SysExit c) (fin r) (evs r)
  end.

(** [try: m  except Exception as e: h e] *)
Definition try_except {A} (m : M A) (h : exn -> M A) : M A := fun s =>
  let r := m s in
  match res r with
  | Raise e => let r' := h e (fin r) in Run (res r') (fin r') (evs r ++ evs r')
  | _ => r
  end.

Definition print (line : string) : M unit := fun s => Run (Ret tt) s [EPrint line].

Definition sleep (seconds : nat) : M unit := fun s =>
  Run (Ret tt) (@elapse W seconds s) [ESleep seconds].

Definition of_answer {A} (r : exn + A) : outcome A :=
  match r with inl e => Raise e | inr a => Ret a end.

Definition call {X} (c : api X) : M X := fun s =>
  let '(r, s') := @respond W X c s in Run (of_answer r) s' [ECall c r].

Definition os_path_exists (p : string) : M bool := fun s =>
  Run (Ret (@path_exists W p s)) s [].

Definition os_urandom_hex : M string := fun s =>
  let '(h, s') := @urandom_hex W s in Run (Ret h) s' [].

(** Handing a continuation token back: the answer is the one the token
    stands for. *)
Definition list_next (r : exn + page) : M page := fun s =>
  Run (of_answer r) s [ECall ListAgentRuntimes r].

End Monad.

Declare Scope py_scope.
Delimit Scope py_scope with py.
Notation "x <- m ;; k" := (bind m (fun x => k))
(at level 100, m at next level, right associativity) : py_scope.
Notation "m ;; k" := (bind m (fun _ => k))
(at level 100, right associativity) : py_scope.
Local Open Scope py_scope.

Section Loops.
Context {W : World}.

(** [for x in l: body], where the body may [return] ([Some]) or fall
    through to the next element ([None]); [continue] is [ret None]. *)
Fixpoint for_return {A R} (l : list A) (body : A -> M (W:=W) (option R)) : M (option R) :=
  match l with
  | [] => ret None
  | x :: l' =>
      r <- body x ;;
      match r with
      | Some v => ret (Some v)
      | None => for_return l' body
      end
  end.

(** [for x in l: body] *)
Fixpoint for_each {A} (l : list A) (body : A -> M (W:=W) unit) : M unit :=
  match l with
  | [] => ret tt
  | x :: l' => body x ;; for_each l' body
  end.

Fixpoint print_lines (ls : list string) : M (W:=W) unit :=
  match ls with
  | [] => ret tt
  | l :: ls' => print l ;; print_lines ls'
  end.

End Loops.

(* ================================================================== *)
(** ** cleanup.py *)

Module Cleanup.
Section Cleanup.
Context {W : World}.
Variable config : EnterpriseConfig.

(** The dictionary [get_mcp_server_details] returns. *)
Record server_details := ServerDetails {
  agent_runtime_id : string;
  agent_arn : string;
  execution_role_arn : string;
  execution_role_name : string;
  auth_config : option jwt_authorizer
}.

Definition credentials_secret_name : string :=
  mcp_server_name config +:+ "/cognito/credentials".

(** The body of [for runtime in response.get('agentRuntimes', [])]:
    [None] goes on with the next entry, [Some] is the function's [return].
    The handler of the second [except] clause calls [logger.error], and the
    module defines no [logger]: the clause raises [NameError]. *)
Definition details_of_entry (runtime : runtime_summary) : M (W:=W) (option server_details) :=
  if String.eqb (agentRuntimeName runtime) (mcp_server_name config) then
    fetched <- try_except
      (runtime_details <- call (GetAgentRuntime (agentRuntimeId runtime)) ;;
       ret (Some runtime_details))
      (fun e =>
         if is_modeled AgentCore "ResourceNotFoundException" e then ret None
         else raise (NameError "logger")) ;;
    match fetched with
    | None => ret None
    | Some runtime_details =>
        match roleArn runtime_details with
        | None => raise (KeyError "roleArn")
        | Some arn =>
            ret (Some {| agent_runtime_id := agentRuntimeId runtime;
                         agent_arn := agentRuntimeArn runtime;
                         execution_role_arn := arn;
                         execution_role_name := PyStr.last_segment arn;
                         auth_config := customJWTAuthorizer runtime_details |})
        end
    end
  else ret None.

(** [while True:] over the pages of the listing. *)
Fixpoint search_pages (response : page) : M (W:=W) (option server_details) :=
  found <- for_return (page_items response) details_of_entry ;;
  match found with
  | Some d => ret (Some d)
  | None =>
      match response with
      | PageLast _ => ret None
      | PageNext _ rest => list_next (inr rest) ;; search_pages rest
      | PageNextFails _ e => list_next (inl e) ;; ret None
      end
  end.

Definition get_mcp_server_details : M (W:=W) (option server_details) :=
  try_except
    (response <- call ListAgentRuntimes ;;
     search_pages response)
    (fun e =>
       print ("⚠️ Error getting MCP server details: " +:+ exn_str e) ;;
       ret None).

Definition max_attempts : nat := 20.

(** The line of the wait's [return True]. *)
Definition deleted_line (attempt : nat) : string :=
  "   ✅ AgentCore runtime deleted successfully (took "
  +:+ PyStr.of_nat (attempt * 10) +:+ " seconds)".

(** [sleep_time = min(5 + (attempt * 2), 15)] *)
Definition sleep_time (attempt : nat) : nat := Nat.min (5 + attempt * 2) 15.

(** [while attempt < max_attempts:] of [cleanup_agentcore_runtime].
    [Some b] is [return b] from inside the loop, [None] is the loop running
    to its end.  [fuel] bounds the unrolling; [max_attempts - attempt]
    is enough of it (lemma [wait_loop_fuel]). *)
Fixpoint wait_loop (id : string) (fuel attempt : nat) : M (W:=W) (option bool) :=
  match fuel with
  | 0 => ret None
  | S fuel' =>
      if attempt <? max_attempts then
        let attempt := attempt + 1 in
        sleep (sleep_time attempt) ;;
        returned <- try_except
          (call (GetAgentRuntime id) ;;
           print ("     Still deleting... (" +:+ PyStr.of_nat (attempt * 10) +:+ "s elapsed)") ;;
           ret None)
          (fun e =>
             if is_modeled AgentCore "ResourceNotFoundException" e then
               print (deleted_line attempt) ;;
               ret (Some true)
             else
               print ("     Checking... (" +:+ PyStr.of_nat (attempt * 10) +:+ "s elapsed)") ;;
               ret None) ;;
        match returned with
        | Some b => ret (Some b)
        | None => wait_loop id fuel' attempt
        end
      else ret None
  end.

Definition cleanup_agentcore_runtime (details : option server_details) : M (W:=W) bool :=
  try_except
    (match details with
     | None =>
         print "ℹ️ No MCP server found to cleanup" ;;
         ret false
     | Some d =>
         print ("🔄 Cleaning up AgentCore runtime: " +:+ agent_runtime_id d) ;;
         response <- call (DeleteAgentRuntime (agent_runtime_id d)) ;;
         let status := default "UNKNOWN" response in
         print ("✅ AgentCore runtime deletion initiated - Status: " +:+ status) ;;
         print "⏳ Waiting for AgentCore runtime deletion to complete..." ;;
         print "   This typically takes 3-5 minutes. Please wait..." ;;
         returned <- wait_loop (agent_runtime_id d) max_attempts 0 ;;
         match returned with
         | Some b => ret b
         | None =>
             print ("   ⚠️ Deletion verification timed out after "
                    +:+ PyStr.of_nat (max_attempts * 10) +:+ " seconds") ;;
             print "   The runtime may still be deleting in the background" ;;
             ret false
         end
     end)
    (fun e =>
       print ("⚠️ Error cleaning up AgentCore: " +:+ exn_str e) ;;
       ret false).

(** The first line of each of the four remaining steps. *)
Definition cognito_header : string := "🔄 Cleaning up Cognito resources...".
Definition dynamodb_header : string := "🔄 Cleaning up DynamoDB tables...".
Definition s3_header : string := "🔄 Cleaning up S3 bucket...".
Definition secrets_header : string := "🔄 Cleaning up Secrets Manager...".

(** [d[k]] on the dictionary parsed from the secret. *)
Definition getitem (d : gmap string string) (k : string) : M (W:=W) string :=
  match d !! k with
  | Some v => ret v
  | None => raise (KeyError k)
  end.

Definition cleanup_cognito_resources : M (W:=W) unit :=
  try_except
    (print cognito_header ;;
     try_except
       (cognito_config <- call (GetSecretValue credentials_secret_name) ;;
        pool_id <- getitem cognito_config "pool_id" ;;
        try_except
          (domain_prefix <- getitem cognito_config "domain_prefix" ;;
           call (DeleteUserPoolDomain domain_prefix pool_id) ;;
           print ("✅ Cognito domain deleted: " +:+ domain_prefix))
          (fun _ => ret tt) ;;
        call (DeleteUserPool pool_id) ;;
        print ("✅ Cognito user pool deleted: " +:+ pool_id))
       (fun e =>
          if is_modeled SecretsManager "ResourceNotFoundException" e then
            print "ℹ️ No Cognito resources found"
          else raise e))
    (fun e => print ("⚠️ Error cleaning up Cognito: " +:+ exn_str e)).

Definition cleanup_dynamodb_tables : M (W:=W) unit :=
  try_except
    (print dynamodb_header ;;
     for_each [applicants_table config; claims_table config] (fun table_name =>
       try_except
         (call (TableDelete table_name) ;;
          call (TableWaitUntilNotExists table_name) ;;
          print ("✅ DynamoDB table deleted: " +:+ table_name))
         (fun _ => print ("ℹ️ Table not found: " +:+ table_name))))
    (fun e => print ("⚠️ Error cleaning up DynamoDB: " +:+ exn_str e)).

Definition cleanup_s3_bucket : M (W:=W) unit :=
  try_except
    (print s3_header ;;
     bucket_name <- call S3BucketName ;;
     try_except
       (response <- call (ListObjectsV2 bucket_name) ;;
        match response with
        | Some objects =>
            call (DeleteObjects bucket_name objects) ;;
            print ("✅ Deleted " +:+ PyStr.of_nat (length objects)
                   +:+ " objects from S3 bucket: " +:+ bucket_name)
        | None => ret tt
        end ;;
        call (DeleteBucket bucket_name) ;;
        print ("✅ S3 bucket deleted: " +:+ bucket_name))
       (fun e =>
          if is_modeled S3 "NoSuchBucket" e then
            print ("ℹ️ S3 bucket not found: " +:+ bucket_name)
          else raise e))
    (fun e => print ("⚠️ Error cleaning up S3: " +:+ exn_str e)).

Definition role_header (d : server_details) : string :=
  "🔄 Cleaning up IAM role: " +:+ execution_role_name d.

Definition cleanup_iam_role (details : option server_details) : M (W:=W) unit :=
  try_except
    (match details with
     | None => print "ℹ️ No AgentCore Runtime Role to cleanup"
     | Some d =>
         print (role_header d) ;;
         let role_name := execution_role_name d in
         try_except
           (inline_policies <- call (ListRolePolicies role_name) ;;
            for_each inline_policies (fun policy_name =>
              call (DeleteRolePolicy role_name policy_name) ;;
              print ("✅ Removed inline policy " +:+ policy_name)))
           (fun e => print ("⚠️ Error removing inline policies: " +:+ exn_str e)) ;;
         try_except
           (attached_policies <- call (ListAttachedRolePolicies role_name) ;;
            for_each attached_policies (fun policy =>
              call (DetachRolePolicy role_name (snd policy)) ;;
              print ("✅ Detached managed policy " +:+ fst policy)))
           (fun e => print ("⚠️ Error detaching managed policies: " +:+ exn_str e)) ;;
         try_except
           (call (DeleteRole role_name) ;;
            print ("✅ IAM role deleted: " +:+ role_name))
           (fun e =>
              if is_modeled IAM "NoSuchEntityException" e then
                print ("ℹ️ Role already deleted: " +:+ role_name)
              else print ("⚠️ Error deleting role: " +:+ exn_str e))
     end)
    (fun e => print ("⚠️ Error cleaning up IAM role: " +:+ exn_str e)).

Definition cleanup_secrets_manager : M (W:=W) unit :=
  try_except
    (print secrets_header ;;
     let secret_name := credentials_secret_name in
     try_except
       (call (DeleteSecret secret_name) ;;
        print "✅ Secret deleted successfully")
       (fun e =>
          if is_modeled SecretsManager "ResourceNotFoundException" e then
            print "ℹ️ Secret not found or already deleted"
          else raise e))
    (fun e => print ("⚠️ Error cleaning up Secrets Manager: " +:+ exn_str e)).

Definition confirm_prompt : string := "⚠️  Do you want to proceed with cleanup? (y/n): ".

(** The lines [main] prints when the runtime deletion was not confirmed. *)
Definition manual_cleanup_lines (d : server_details) : list string :=
  [ "⚠️ Skipping IAM role cleanup - runtime deletion not confirmed";
    "   📝 Manual cleanup required:";
    "   1. Verify AgentCore runtime is deleted: " +:+ agent_runtime_id d;
    "   2. Then delete IAM role: " +:+ execution_role_arn d;
    "   AWS CLI command:";
    "   aws iam delete-role --role-name " +:+ execution_role_name d ].

Definition starting_line : string := "🔄 Starting cleanup...".

(** Lines 304-328 of [main]: the steps after the operator's confirmation. *)
Definition run_cleanup (details : option server_details) : M (W:=W) unit :=
  print starting_line ;;
  runtime_deleted <- cleanup_agentcore_runtime details ;;
  (if runtime_deleted then cleanup_iam_role details
   else match details with
        | Some d => print_lines (manual_cleanup_lines d)
        | None => ret tt
        end) ;;
  cleanup_cognito_resources ;;
  cleanup_dynamodb_tables ;;
  cleanup_s3_bucket ;;
  cleanup_secrets_manager ;;
  print "" ;;
  if runtime_deleted || negb (bool_decide (is_Some details)) then
    print "🎉 Cleanup completed successfully!"
  else
    print "⚠️ Cleanup completed with manual steps required (see above)".

Definition main : M (W:=W) unit :=
  print_lines [ "🗑️ NOVA LITE 2.0 ENTERPRISE CLEANUP"; PyStr.rule 50;
                "🎯 Target MCP Server: " +:+ mcp_server_name config;
                "🌍 Region: " +:+ region config; "";
                "🔍 Finding MCP server details..." ] ;;
  details <- get_mcp_server_details ;;
  match details with
  | Some d =>
      print_lines [ "✅ Found server: " +:+ agent_runtime_id d;
                    "   AgentCore Runtime Role: " +:+ execution_role_name d ]
  | None => print "⚠️ MCP server not found - will cleanup data resources only"
  end ;;
  print_lines [ ""; "📋 The following resources will be deleted:";
                "   • AgentCore runtime: " +:+ mcp_server_name config;
                "   • Cognito user pool: " +:+ cognito_user_pool_name config;
                "   • DynamoDB tables: " +:+ applicants_table config +:+ ", "
                  +:+ claims_table config ] ;;
  bucket_name <- call S3BucketName ;;
  print ("   • S3 bucket: " +:+ bucket_name) ;;
  match details with
  | Some d => print ("   • IAM role: " +:+ execution_role_name d)
  | None => ret tt
  end ;;
  print_lines [ "   • Secrets Manager secret: " +:+ credentials_secret_name; "" ] ;;
  answer <- call (Input confirm_prompt) ;;
  let response := PyStr.normalise answer in
  if negb (PyStr.in_list response ["y"; "yes"]) then
    print "❌ Cleanup cancelled"
  else run_cleanup details.

End Cleanup.
End Cleanup.

(* ================================================================== *)
(** ** deploy_mcp.py *)

Module Deploy.
Section Deploy.
Context {W : World}.
Variable config : EnterpriseConfig.
(** [Session().region_name] *)
Variable region : string.

(** The dictionary [check_existing_mcp_server] returns. *)
Record existing_config := ExistingConfig {
  agent_arn : string;
  agent_runtime_id : string;
  execution_role_name : string;
  execution_role_arn : string;
  cognito_config : gmap string string
}.

Definition credentials_secret_name : string :=
  mcp_server_name config +:+ "/cognito/credentials".

(** [d[k]] *)
Definition getitem (d : gmap string string) (k : string) : M (W:=W) string :=
  match d !! k with
  | Some v => ret v
  | None => raise (KeyError k)
  end.

(** The [for] loop of [check_existing_mcp_server]: the first entry of the
    page with the wanted name, at which the loop breaks. *)
Definition first_match (name : string) (items : list runtime_summary)
    : option runtime_summary :=
  List.find (fun runtime => String.eqb (agentRuntimeName runtime) name) items.

(** [if agent_runtime_id] *)
Definition truthy_id (found : option runtime_summary) : bool :=
  match found with
  | Some runtime => negb (String.eqb (agentRuntimeId runtime) "")
  | None => false
  end.

(** [while True:] of [check_existing_mcp_server].  [found] carries
    [agent_runtime_id] and [agent_arn] from one page to the next. *)
Fixpoint find_runtime (name : string) (response : page)
    (found : option runtime_summary) : M (W:=W) (option runtime_summary) :=
  let found :=
    match first_match name (page_items response) with
    | Some runtime => Some runtime
    | None => found
    end in
  if truthy_id found then ret found
  else match response with
       | PageLast _ => ret found
       | PageNext _ rest => list_next (inr rest) ;; find_runtime name rest found
       | PageNextFails _ e => list_next (inl e) ;; ret found
       end.

(** [runtime_details.get('authorizerConfiguration', {}).get('customJWTAuthorizer', {})] *)
Definition jwt_auth_of (runtime_details : runtime_details) : jwt_authorizer :=
  default (JwtAuthorizer None None) (customJWTAuthorizer runtime_details).

(** [jwt_auth.get('allowedClients', [''])[0] if jwt_auth.get('allowedClients') else ''] *)
Definition service_client_id_of (runtime_details : runtime_details) : string :=
  match allowedClients (jwt_auth_of runtime_details) with
  | Some (client :: _) => client
  | _ => ""
  end.

(** [jwt_auth.get('discoveryUrl', '')] *)
Definition discovery_url_of (runtime_details : runtime_details) : string :=
  default "" (discoveryUrl (jwt_auth_of runtime_details)).

Definition check_existing_mcp_server (name : string) : M (W:=W) (option existing_config) :=
  print_lines [ "🔍 CHECKING EXISTING MCP SERVER";
                "   Server Name: " +:+ name;
                "   Region: " +:+ region;
                "   Action: Querying Bedrock AgentCore for existing runtime" ] ;;
  try_except
    (response <- call ListAgentRuntimes ;;
     found <- find_runtime name response None ;;
     if negb (truthy_id found) then
       print "   Result: No existing MCP server found" ;;
       ret None
     else
       match found with
       | None => ret None
       | Some runtime =>
           print_lines [ "   ✅ Found existing runtime: " +:+ agentRuntimeId runtime;
                         "   Fetching detailed configuration..." ] ;;
           runtime_details <- call (GetAgentRuntime (agentRuntimeId runtime)) ;;
           match roleArn runtime_details with
           | None => raise (KeyError "roleArn")
           | Some role_arn =>
               let role_name := PyStr.last_segment role_arn in
               print_lines [ "   Execution Role ARN: " +:+ role_arn;
                             "   Execution Role Name: " +:+ role_name ] ;;
               let service_client_id := service_client_id_of runtime_details in
               let cognito : gmap string string :=
                 <["discovery_url" := discovery_url_of runtime_details]>
                 (<["service_client_id" := service_client_id]> ∅) in
               print_lines [ "✅ EXISTING MCP SERVER DETAILS:";
                             "   Runtime ID: " +:+ agentRuntimeId runtime;
                             "   Agent ARN: " +:+ agentRuntimeArn runtime;
                             "   Execution Role: " +:+ role_name;
                             "   Authentication: Cognito JWT (Client ID: "
                               +:+ PyStr.take 8 service_client_id +:+ "...)" ] ;;
               ret (Some {| agent_arn := agentRuntimeArn runtime;
                            agent_runtime_id := agentRuntimeId runtime;
                            execution_role_name := role_name;
                            execution_role_arn := role_arn;
                            cognito_config := cognito |})
           end
       end)
    (fun _ =>
       print "⚠️  Error checking AgentCore - check permissions and configuration" ;;
       ret None).

Definition setup_cognito_user_pool : M (W:=W) (option (gmap string string)) :=
  print_lines [ "🔐 CREATING COGNITO AUTHENTICATION RESOURCES";
                "   Purpose: OAuth 2.0 authentication for MCP server";
                "   Grant Type: client_credentials (service-to-service)" ] ;;
  let pool_name := cognito_user_pool_name config in
  try_except
    (print_lines [ "   Creating Cognito User Pool";
                   "   Pool Name: " +:+ pool_name;
                   "   Password Policy: Minimum 8 characters" ] ;;
     pool_id <- call (CreateUserPool pool_name 8) ;;
     print "   ✅ User Pool Created successfully" ;;
     suffix <- os_urandom_hex ;;
     let domain_prefix := "nova-insurance-mcp-" +:+ suffix in
     print_lines [ "   Creating Cognito Domain";
                   "   Domain Prefix: " +:+ domain_prefix;
                   "   Purpose: OAuth 2.0 token endpoint" ] ;;
     call (CreateUserPoolDomain domain_prefix pool_id) ;;
     print ("   ✅ Domain Created: " +:+ domain_prefix +:+ ".auth." +:+ region
            +:+ ".amazoncognito.com") ;;
     print_lines [ "   Creating Resource Server (API Scopes)";
                   "   API Identifier: " +:+ oauth_api_identifier config;
                   "   Scopes: read, write" ] ;;
     call (CreateResourceServer pool_id (oauth_api_identifier config) ["read"; "write"]) ;;
     print "   ✅ Resource Server Created with OAuth scopes" ;;
     print_lines [ "   Creating Service Client (OAuth Credentials)";
                   "   Client Name: NovaInsuranceServiceClient";
                   "   OAuth Flow: client_credentials";
                   "   Generating client secret..." ] ;;
     client <- call (CreateUserPoolClient pool_id "NovaInsuranceServiceClient"
                       ["client_credentials"]
                       [oauth_api_identifier config +:+ "/read";
                        oauth_api_identifier config +:+ "/write"]) ;;
     let client_id := fst client in
     let client_secret := snd client in
     print_lines [ "   ✅ Service Client Created: " +:+ PyStr.take 8 client_id +:+ "...";
                   "   ⚠️  Client secret generated (stored securely in Secrets Manager)" ] ;;
     let oauth_token_url :=
       "https://" +:+ domain_prefix +:+ ".auth." +:+ region
       +:+ ".amazoncognito.com/oauth2/token" in
     let discovery_url :=
       "https://cognito-idp." +:+ region +:+ ".amazonaws.com/" +:+ pool_id
       +:+ "/.well-known/openid-configuration" in
     let secret_name := credentials_secret_name in
     print_lines [ "   Storing Credentials in AWS Secrets Manager";
                   "   Secret Name: " +:+ secret_name;
                   "   Purpose: Secure storage of OAuth credentials (Client ID + Secret)" ] ;;
     let secret_value : gmap string string :=
       <["pool_id" := pool_id]>
       (<["service_client_id" := client_id]>
       (<["service_client_secret" := client_secret]>
       (<["discovery_url" := discovery_url]>
       (<["oauth_token_url" := oauth_token_url]>
       (<["domain_prefix" := domain_prefix]> ∅))))) in
     secret_arn <- call (CreateSecret secret_name secret_value) ;;
     print_lines [ "   ✅ Secret Created.";
                   "✅ COGNITO AUTHENTICATION SETUP COMPLETE";
                   "   Token URL: " +:+ oauth_token_url;
                   "   Discovery URL: " +:+ discovery_url;
                   "   ⚠️  Credentials stored in Secrets Manager (name redacted for security)" ] ;;
     ret (Some (<["secret_arn" := secret_arn]> secret_value)))
    (fun e =>
       if is_modeled CognitoIdp "LimitExceededException" e then
         print "❌ Cognito resource limit exceeded - contact AWS support" ;;
         ret None
       else if is_modeled CognitoIdp "InvalidParameterException" e then
         print ("❌ Invalid Cognito configuration: " +:+ exn_str e) ;;
         ret None
       else
         print ("❌ Cognito setup error: " +:+ exn_name e) ;;
         ret None).

Definition create_quicksuite_integration_doc (agent_endpoint : string)
    (cognito : gmap string string) : M (W:=W) unit :=
  client_id <- getitem cognito "service_client_id" ;;
  token_url <- getitem cognito "oauth_token_url" ;;
  call S3BucketName ;;
  call (WriteIntegrationDoc agent_endpoint client_id token_url) ;;
  print "📄 Quick Suite integration document created: ../docs/QUICK_SUITE_INTEGRATION.md".

Definition add_permissions (role_name : string) : M (W:=W) unit :=
  print_lines [ "🔒 ADDING IAM PERMISSIONS TO EXECUTION ROLE";
                "   Role Name: " +:+ role_name;
                "   Purpose: Grant MCP server access to enterprise data sources" ] ;;
  try_except
    (account_id <- call GetCallerIdentity ;;
     print_lines [ "   AWS Account: " +:+ account_id; "   Region: " +:+ region ] ;;
     let table_arn := "arn:aws:dynamodb:" +:+ region +:+ ":" +:+ account_id +:+ ":table/" in
     let dynamodb_policy :=
       PolicyDocument
         ["dynamodb:GetItem"; "dynamodb:Query"; "dynamodb:Scan"; "dynamodb:DescribeTable"]
         [table_arn +:+ applicants_table config; table_arn +:+ claims_table config;
          table_arn +:+ "nova-insurance-*"] in
     bucket_objects <- call S3BucketName ;;
     bucket <- call S3BucketName ;;
     let s3_policy :=
       PolicyDocument ["s3:GetObject"; "s3:ListBucket"]
         ["arn:aws:s3:::" +:+ bucket_objects +:+ "/*"; "arn:aws:s3:::" +:+ bucket] in
     let bedrock_policy :=
       PolicyDocument ["bedrock:InvokeModel"; "bedrock:Converse"]
         ["arn:aws:bedrock:*::foundation-model/" +:+ model_id config] in
     print_lines [ "   Policy 1: NovaInsuranceDynamoDBAccess";
                   "   Actions: GetItem, Query, Scan, DescribeTable";
                   "   Resources:";
                   "     - " +:+ applicants_table config;
                   "     - " +:+ claims_table config ] ;;
     call (PutRolePolicy role_name "NovaInsuranceDynamoDBAccess" dynamodb_policy) ;;
     print_lines [ "   ✅ DynamoDB policy attached";
                   "   Policy 2: NovaInsuranceS3Access";
                   "   Actions: GetObject" ] ;;
     shown <- call S3BucketName ;;
     print ("   Resources: " +:+ shown +:+ "/*") ;;
     call (PutRolePolicy role_name "NovaInsuranceS3Access" s3_policy) ;;
     print_lines [ "   ✅ S3 policy attached";
                   "   Policy 3: NovaInsuranceBedrockAccess";
                   "   Actions: InvokeModel, Converse";
                   "   Resources: amazon.nova-lite-1-5-v1:0" ] ;;
     call (PutRolePolicy role_name "NovaInsuranceBedrockAccess" bedrock_policy) ;;
     print_lines [ "   ✅ Bedrock policy attached";
                   "✅ ALL IAM PERMISSIONS SUCCESSFULLY ATTACHED TO ROLE: " +:+ role_name ])
    (fun e =>
       if is_modeled IAM "EntityAlreadyExistsException" e then
         print "✅ IAM PERMISSIONS ALREADY EXIST (policies already attached)"
       else print ("⚠️  Warning: Could not add permissions: " +:+ exn_str e)).

Definition max_attempts : nat := 24.

Definition attempt_line (attempt : nat) (what : string) : string :=
  "   Attempt " +:+ PyStr.of_nat attempt +:+ "/" +:+ PyStr.of_nat max_attempts +:+ ": " +:+ what.

(** [while attempt < max_attempts and not roles_verified:] of the check
    before the launch.  The result is the final [(attempt, roles_verified)].
    [fuel] bounds the unrolling, as in [Cleanup.wait_loop]. *)
Fixpoint pre_launch_loop (fuel attempt : nat) (roles_verified : bool)
    : M (W:=W) (nat * bool) :=
  match fuel with
  | 0 => ret (attempt, roles_verified)
  | S fuel' =>
      if (attempt <? max_attempts) && negb roles_verified then
        let attempt := attempt + 1 in
        verified <- try_except
          (print (attempt_line attempt "Checking IAM roles...") ;;
           role_names <- call ListRoles ;;
           let runtime_role_exists :=
             existsb (PyStr.contains ("AmazonBedrockAgentCoreSDKRuntime-" +:+ region)) role_names in
           let codebuild_role_exists :=
             existsb (PyStr.contains ("AmazonBedrockAgentCoreSDKCodeBuild-" +:+ region)) role_names in
           if runtime_role_exists && codebuild_role_exists then
             print " ✅ Verified" ;;
             ret true
           else
             print " Roles not ready yet" ;;
             sleep 5 ;;
             ret roles_verified)
          (fun e =>
             print (" Error: " +:+ exn_str e) ;;
             sleep 5 ;;
             ret roles_verified) ;;
        pre_launch_loop fuel' attempt verified
      else ret (attempt, roles_verified)
  end.

Definition pre_launch_warning : string :=
  "   ⚠️ Verification timed out - proceeding anyway (roles may still be propagating)".

(** [while attempt < max_attempts and not role_verified:] of the check after
    the launch.  The result is the final [attempt] and, when the role was
    verified, its name. *)
Fixpoint post_launch_loop (runtime_id : string) (fuel attempt : nat)
    (verified : option string) : M (W:=W) (nat * option string) :=
  match fuel with
  | 0 => ret (attempt, verified)
  | S fuel' =>
      if (attempt <? max_attempts) && negb (bool_decide (is_Some verified)) then
        let attempt := attempt + 1 in
        verified' <- try_except
          (print (attempt_line attempt "Checking role existence...") ;;
           runtime_details <- call (GetAgentRuntime runtime_id) ;;
           match roleArn runtime_details with
           | Some role_arn =>
               if String.eqb role_arn "" then
                 print " Role ARN not yet available" ;;
                 sleep 5 ;;
                 ret verified
               else
                 let role_name := PyStr.last_segment role_arn in
                 call (GetRole role_name) ;;
                 print_lines [ " ✅ Verified";
                               "   Role ARN: " +:+ role_arn;
                               "   Role Name: " +:+ role_name ] ;;
                 ret (Some role_name)
           | None =>
               print " Role ARN not yet available" ;;
               sleep 5 ;;
               ret verified
           end)
          (fun e =>
             if is_modeled AgentCore "ResourceNotFoundException" e then
               print " Runtime not ready yet" ;; sleep 5 ;; ret verified
             else if is_modeled IAM "NoSuchEntityException" e then
               print " Role not propagated yet" ;; sleep 5 ;; ret verified
             else
               print (" Error: " +:+ exn_str e) ;; sleep 5 ;; ret verified) ;;
        post_launch_loop runtime_id fuel' attempt verified'
      else ret (attempt, verified)
  end.

Definition propagation_failure : exn :=
  PyException ("IAM role failed to propagate after "
               +:+ PyStr.of_nat (max_attempts * 5) +:+ " seconds").

Definition update_prompt : string := "❓ Do you want to update the existing server? (y/n): ".

(** [launch_result.agent_arn.replace(':', '%3A').replace('/', '%2F')] *)
Fixpoint url_encode (s : string) : string :=
  match s with
  | EmptyString => EmptyString
  | String a s' =>
      (if Ascii.eqb a ":"%char then "%3A"
       else if Ascii.eqb a "/"%char then "%2F"
       else String a EmptyString) +:+ url_encode s'
  end.

Definition cancelled_line : string := "❌ DEPLOYMENT CANCELLED BY USER".

(** Lines 563-586 of [deploy_mcp_server]: the confirmation of an update. *)
Definition confirm_update (ec : existing_config) : M (W:=W) unit :=
  print_lines [ PyStr.rule 80; "⚠️  EXISTING MCP SERVER DETECTED"; PyStr.rule 80;
                "   Server Name: " +:+ mcp_server_name config;
                "   Runtime ID: " +:+ agent_runtime_id ec;
                "   Region: " +:+ region;
                "   Execution Role: " +:+ execution_role_name ec;
                "   UPDATE MODE: Will update server code only (no resource recreation)";
                "   PRESERVED: Cognito, IAM roles, authentication configuration" ] ;;
  answer <- call (Input update_prompt) ;;
  let response := PyStr.normalise answer in
  (if negb (PyStr.in_list response ["y"; "yes"]) then
     (if negb (PyStr.in_list response ["n"; "no"]) then
        print "⚠️  Invalid input. Please enter 'y' or 'n'"
      else ret tt) ;;
     print cancelled_line ;;
     sys_exit 2
   else ret tt) ;;
  print_lines [ PyStr.rule 80;
                "🔄 UPDATE MODE: Deploying new code to existing server";
                PyStr.rule 80 ].

(** Lines 652-694: the check of the roles before the launch (new
    deployments only). *)
Definition pre_launch_check : M (W:=W) unit :=
  print_lines [ "⏳ VERIFYING IAM ROLES PROPAGATION";
                "   Purpose: Ensure IAM roles are globally available before CodeBuild starts";
                "   Method: Retry with backoff (max 2 minutes)" ] ;;
  call GetCallerIdentity ;;
  checked <- pre_launch_loop max_attempts 0 false ;;
  if snd checked then
    print ("   ✅ IAM roles verified and ready (took "
           +:+ PyStr.of_nat (fst checked * 5) +:+ " seconds)")
  else print pre_launch_warning.

(** Lines 714-763: the verification of the role after the launch (new
    deployments only); the result is [execution_role_name]. *)
Definition verify_new_role (runtime_id : string) : M (W:=W) string :=
  print_lines [ "⏳ VERIFYING IAM ROLE CREATION AND PROPAGATION";
                "   Purpose: Ensure execution role created by AgentCore is accessible";
                "   Method: Retry with backoff (max 2 minutes)" ] ;;
  checked <- post_launch_loop runtime_id max_attempts 0 None ;;
  match snd checked with
  | None => raise propagation_failure
  | Some role_name =>
      print ("   ✅ IAM ROLE VERIFIED AND READY (took "
             +:+ PyStr.of_nat (fst checked * 5) +:+ " seconds)") ;;
      ret role_name
  end.

(** Lines 597-815: from the validation of the files to the final report.
    [existing] is [existing_config] ([reuse_existing] is true exactly when
    it is not [None]), [cognito] is [cognito_config]. *)
Definition launch_and_bind (existing : option existing_config)
    (cognito : gmap string string) : M (W:=W) unit :=
  let name := mcp_server_name config in
  let reuse_existing := bool_decide (is_Some existing) in
  for_each ["mcpserver.py"; "requirements.txt"] (fun file_path =>
    found <- os_path_exists file_path ;;
    if found then ret tt
    else raise (FileNotFoundError ("Required file " +:+ file_path +:+ " not found"))) ;;
  print_lines [ "⚙️ CONFIGURING AGENTCORE RUNTIME";
                "   Initializing Bedrock AgentCore SDK..." ] ;;
  call RuntimeInit ;;
  print_lines [ "   ✅ AgentCore SDK initialized"; "   Configuration Parameters:" ] ;;
  client_id <- getitem cognito "service_client_id" ;;
  discovery_url <- getitem cognito "discovery_url" ;;
  let config_params :=
    {| entrypoint := "mcpserver.py";
       agent_name := name;
       auto_create_execution_role := negb reuse_existing;
       cp_region := region;
       authorizer_allowedClients := [client_id];
       authorizer_discoveryUrl := discovery_url;
       protocol := "MCP";
       auto_create_ecr := true;
       execution_role := execution_role_arn <$> existing |} in
  match existing with
  | Some ec => print ("   - Execution Role: " +:+ execution_role_arn ec +:+ " (reusing existing)")
  | None => print "   - Execution Role: Auto-create new role"
  end ;;
  print_lines [ "   - Entrypoint: " +:+ entrypoint config_params;
                "   - Agent Name: " +:+ agent_name config_params;
                "   - Protocol: " +:+ protocol config_params;
                "   - Region: " +:+ cp_region config_params;
                "   - ECR: Auto-create repository";
                "   - Authentication: Custom JWT (Cognito)";
                "   - Allowed Client: " +:+ client_id ] ;;
  call (RuntimeConfigure config_params) ;;
  print "   ✅ AgentCore configuration validated and applied" ;;
  (if negb reuse_existing then pre_launch_check else ret tt) ;;
  print "🚀 DEPLOYING TO BEDROCK AGENTCORE RUNTIME" ;;
  (if negb reuse_existing then
     print "   Creating new execution role (auto-created by AgentCore)..."
   else ret tt) ;;
  print_lines [ "   Building Docker container image...";
                "   Pushing to Amazon ECR...";
                "   " +:+ (if negb reuse_existing then "Creating" else "Updating")
                  +:+ " AgentCore runtime..." ] ;;
  launched_arn <- call (RuntimeLaunch true) ;;
  print_lines [ "   ✅ AgentCore runtime "
                  +:+ (if negb reuse_existing then "created" else "updated");
                "   Runtime ARN: " +:+ launched_arn ] ;;
  let runtime_id := PyStr.last_segment launched_arn in
  (if negb reuse_existing then
     role_name <- verify_new_role runtime_id ;;
     add_permissions role_name
   else
     print_lines [ "🔍 RETRIEVING CURRENT EXECUTION ROLE FROM AGENTCORE";
                   "   Purpose: Get current role for this MCP server runtime" ] ;;
     runtime_details <- call (GetAgentRuntime runtime_id) ;;
     match roleArn runtime_details with
     | None => raise (KeyError "roleArn")
     | Some current_arn =>
         let current_name := PyStr.last_segment current_arn in
         print_lines [ "   Current Role ARN: " +:+ current_arn;
                       "   Current Role Name: " +:+ current_name;
                       "🔍 VERIFYING IAM PERMISSIONS (Update mode)";
                       "   Ensuring policies are attached to current role" ] ;;
         add_permissions current_name
     end) ;;
  let agent_endpoint :=
    "https://bedrock-agentcore." +:+ region +:+ ".amazonaws.com/runtimes/"
    +:+ url_encode launched_arn +:+ "/invocations?qualifier=DEFAULT" in
  (if negb reuse_existing then create_quicksuite_integration_doc agent_endpoint cognito
   else ret tt) ;;
  print_lines [ PyStr.rule 80;
                "✅ " +:+ (if reuse_existing then "UPDATE" else "DEPLOYMENT")
                  +:+ " COMPLETED SUCCESSFULLY!";
                PyStr.rule 80; "📦 DEPLOYED RESOURCES:" ] ;;
  (if negb reuse_existing then
     print_lines [ "   ✅ Cognito User Pool: " +:+ cognito_user_pool_name config;
                   "   ✅ OAuth Client: Created with client_credentials flow";
                   "   ✅ Secrets Manager: " +:+ credentials_secret_name;
                   "   ✅ IAM Execution Role: Auto-created by AgentCore";
                   "   ✅ IAM Policies: DynamoDB, S3, Bedrock access attached" ]
   else ret tt) ;;
  print_lines [ "   ✅ AgentCore Runtime: " +:+ name;
                "   ✅ MCP Server Endpoint: " +:+ agent_endpoint;
                "   ✅ Docker Image: Pushed to Amazon ECR";
                "📊 DATA SOURCES:";
                "   DynamoDB: " +:+ applicants_table config +:+ ", " +:+ claims_table config ] ;;
  shown <- call S3BucketName ;;
  print_lines [ "   S3: " +:+ shown +:+ "/" +:+ medical_records_prefix config +:+ "/";
                "📝 NEXT STEPS:";
                "   1. Test: python tests/test_mcp_functionality.py" ] ;;
  if negb reuse_existing then
    print_lines [ "   2. Integration guide: docs/QUICK_SUITE_INTEGRATION.md";
                  "   3. Connect Quick Suite using OAuth credentials" ]
  else ret tt.

Definition setup_failure : exn := PyException "Failed to setup Cognito".

(** Lines 588-595: a new deployment creates the authentication resources. *)
Definition new_deployment : M (W:=W) (gmap string string) :=
  print_lines [ PyStr.rule 80;
                "🆕 NEW DEPLOYMENT MODE: Creating all resources from scratch";
                PyStr.rule 80 ] ;;
  created <- setup_cognito_user_pool ;;
  match created with
  | Some bundle => ret bundle
  | None => raise setup_failure
  end.

Definition deploy_mcp_server : M (W:=W) unit :=
  let config_source := "../config/enterprise_config.yaml" in
  let config_dest := "./enterprise_config.yaml" in
  have_config <- os_path_exists config_source ;;
  (if have_config then
     call (CopyFile config_source config_dest) ;;
     print ("📋 Copied config file: " +:+ config_source +:+ " → " +:+ config_dest)
   else
     print ("⚠️  Config file not found at " +:+ config_source +:+ ", using defaults")) ;;
  let name := mcp_server_name config in
  print_lines [ PyStr.rule 80; "🚀 MCP SERVER DEPLOYMENT"; PyStr.rule 80;
                "🎯 DEPLOYMENT CONFIGURATION";
                "   MCP Server Name: " +:+ name;
                "   AWS Region: " +:+ region;
                "   DynamoDB Tables: " +:+ applicants_table config +:+ ", "
                  +:+ claims_table config ] ;;
  bucket <- call S3BucketName ;;
  print_lines [ "   S3 Bucket: " +:+ bucket;
                "   Cognito Pool: " +:+ cognito_user_pool_name config ] ;;
  existing <- check_existing_mcp_server name ;;
  cognito <-
    match existing with
    | Some ec => confirm_update ec ;; ret (cognito_config ec)
    | None => new_deployment
    end ;;
  launch_and_bind existing cognito.

(** The lines of the [except Exception] clause of [__main__]. *)
Definition troubleshooting_lines (e : exn) : list string :=
  [ PyStr.rule 80; "❌ DEPLOYMENT FAILED"; PyStr.rule 80;
    "   Error: " +:+ exn_str e;
    "🔧 TROUBLESHOOTING:";
    "   1. Check AWS credentials: aws sts get-caller-identity";
    "   2. Verify Bedrock permissions in IAM";
    "   3. Ensure config/enterprise_config.yaml is correct";
    "   4. Check CloudWatch logs for detailed error messages" ].

(** [if __name__ == "__main__":] *)
Definition main : M (W:=W) unit :=
  try_except deploy_mcp_server
    (fun e =>
       print_lines (troubleshooting_lines e) ;;
       sys_exit 1).

End Deploy.
End Deploy.

(** The exit status of the process. *)
Definition exit_status (o : outcome unit) : nat :=
  match o with
  | Ret _ => 0
  | Raise _ => 1
  | SysExit code => code
  end.

(* ================================================================== *)
(** ** A reference cloud

    One world among all those the properties below quantify over: a small
    model of the provider's services, used to run the scripts on concrete
    scenarios.  Its behaviour follows the provider's documentation where a
    scenario depends on it: [list_objects_v2] answers with at most 1000
    keys and without a ['Contents'] key for an empty bucket,
    [delete_bucket] refuses a bucket that still holds objects, a deleted
    runtime stays visible for a while, and the runtime listing is served
    apart from the runtime store (it may lag behind it). *)

Module Cloud.

(** The boto3 method behind a call. *)
Definition api_name {X} (c : api X) : string :=
  match c with
  | ListAgentRuntimes => "list_agent_runtimes"
  | GetAgentRuntime _ => "get_agent_runtime"
  | DeleteAgentRuntime _ => "delete_agent_runtime"
  | GetSecretValue _ => "get_secret_value"
  | CreateSecret _ _ => "create_secret"
  | DeleteSecret _ => "delete_secret"
  | CreateUserPool _ _ => "create_user_pool"
  | CreateUserPoolDomain _ _ => "create_user_pool_domain"
  | CreateResourceServer _ _ _ => "create_resource_server"
  | CreateUserPoolClient _ _ _ _ => "create_user_pool_client"
  | DeleteUserPoolDomain _ _ => "delete_user_pool_domain"
  | DeleteUserPool _ => "delete_user_pool"
  | TableDelete _ => "table.delete"
  | TableWaitUntilNotExists _ => "table.wait_until_not_exists"
  | ListObjectsV2 _ => "list_objects_v2"
  | DeleteObjects _ _ => "delete_objects"
  | DeleteBucket _ => "delete_bucket"
  | ListRolePolicies _ => "list_role_policies"
  | DeleteRolePolicy _ _ => "delete_role_policy"
  | ListAttachedRolePolicies _ => "list_attached_role_policies"
  | DetachRolePolicy _ _ => "detach_role_policy"
  | DeleteRole _ => "delete_role"
  | ListRoles => "list_roles"
  | GetRole _ => "get_role"
  | PutRolePolicy _ _ _ => "put_role_policy"
  | GetCallerIdentity => "get_caller_identity"
  | RuntimeInit => "Runtime"
  | RuntimeConfigure _ => "configure"
  | RuntimeLaunch _ => "launch"
  | S3BucketName => "config.s3_bucket_name"
  | Input _ => "input"
  | CopyFile _ _ => "shutil.copy2"
  | WriteIntegrationDoc _ _ _ => "write_integration_doc"
  end.

(** What a scenario fixes once and for all. *)
Record scenario := Scenario {
  listing : exn + page;            (* the answer of list_agent_runtimes() *)
  deletion_lag : nat;              (* probes a deleted runtime still answers *)
  launch_id : string;              (* identifier of the launched runtime *)
  auto_role : option string;       (* ARN of the role the launch creates *)
  answer : string;                 (* what the operator types *)
  files : list string;             (* local files that exist *)
  account : string;
  bucket_name : string;
  faults : gmap string exn         (* methods that always raise *)
}.

Record cloud := CloudState {
  given : scenario;
  (* id -> details, and the probes left before a deletion shows *)
  runtimes : gmap string (runtime_details * option nat);
  configured : option config_params;
  pools : gmap string (list string);       (* pool id -> its domains *)
  secrets : gmap string (gmap string string);
  bucket : option (list string);           (* keys of the bucket, if it exists *)
  tables : gset string;
  roles : gmap string (list string)        (* role name -> inline policy names *)
}.

Definition set_runtimes (s : cloud) v :=
  CloudState (given s) v (configured s) (pools s) (secrets s) (bucket s) (tables s) (roles s).
Definition set_configured (s : cloud) v :=
  CloudState (given s) (runtimes s) v (pools s) (secrets s) (bucket s) (tables s) (roles s).
Definition set_pools (s : cloud) v :=
  CloudState (given s) (runtimes s) (configured s) v (secrets s) (bucket s) (tables s) (roles s).
Definition set_secrets (s : cloud) v :=
  CloudState (given s) (runtimes s) (configured s) (pools s) v (bucket s) (tables s) (roles s).
Definition set_bucket (s : cloud) v :=
  CloudState (given s) (runtimes s) (configured s) (pools s) (secrets s) v (tables s) (roles s).
Definition set_tables (s : cloud) v :=
  CloudState (given s) (runtimes s) (configured s) (pools s) (secrets s) (bucket s) v (roles s).
Definition set_roles (s : cloud) v :=
  CloudState (given s) (runtimes s) (configured s) (pools s) (secrets s) (bucket s) (tables s) v.

(** The page size of [list_objects_v2]. *)
Definition max_keys : nat := 1000.

Definition remove_keys (gone keys : list string) : list string :=
  List.filter (fun k => negb (PyStr.in_list k gone)) keys.

Definition pool_id_of (n : nat) : string := "pool-" +:+ PyStr.of_nat n.

Definition launch_arn (s : cloud) : string :=
  "arn:aws:bedrock-agentcore:::runtime/" +:+ launch_id (given s).

Definition respond_ok {X} (c : api X) (s : cloud) : (exn + X) * cloud :=
  match c in api X return (exn + X) * cloud with
  | ListAgentRuntimes => (listing (given s), s)
  | GetAgentRuntime id =>
      match runtimes s !! id with
      | None => (inl (ResourceNotFound AgentCore), s)
      | Some (d, None) => (inr d, s)
      | Some (d, Some 0) =>
          (inl (ResourceNotFound AgentCore), set_runtimes s (delete id (runtimes s)))
      | Some (d, Some (S n)) =>
          (inr d, set_runtimes s (<[id := (d, Some n)]> (runtimes s)))
      end
  | DeleteAgentRuntime id =>
      match runtimes s !! id with
      | None => (inl (ResourceNotFound AgentCore), s)
      | Some (d, _) =>
          (inr (Some "DELETING"),
           set_runtimes s (<[id := (d, Some (deletion_lag (given s)))]> (runtimes s)))
      end
  | GetSecretValue name =>
      match secrets s !! name with
      | Some v => (inr v, s)
      | None => (inl (ResourceNotFound SecretsManager), s)
      end
  | CreateSecret name v =>
      match secrets s !! name with
      | Some _ => (inl (ClientError SecretsManager "ResourceExistsException"), s)
      | None => (inr ("arn:aws:secretsmanager:::secret:" +:+ name),
                 set_secrets s (<[name := v]> (secrets s)))
      end
  | DeleteSecret name =>
      match secrets s !! name with
      | Some _ => (inr tt, set_secrets s (delete name (secrets s)))
      | None => (inl (ResourceNotFound SecretsManager), s)
      end
  | CreateUserPool _ _ =>
      let id := pool_id_of (size (pools s)) in
      (inr id, set_pools s (<[id := []]> (pools s)))
  | CreateUserPoolDomain domain pool =>
      match pools s !! pool with
      | Some ds => (inr tt, set_pools s (<[pool := domain :: ds]> (pools s)))
      | None => (inl (ResourceNotFound CognitoIdp), s)
      end
  | CreateResourceServer pool _ _ =>
      match pools s !! pool with
      | Some _ => (inr tt, s)
      | None => (inl (ResourceNotFound CognitoIdp), s)
      end
  | CreateUserPoolClient pool _ _ _ =>
      match pools s !! pool with
      | Some _ => (inr ("client-of-" +:+ pool, "secret-of-" +:+ pool), s)
      | None => (inl (ResourceNotFound CognitoIdp), s)
      end
  | DeleteUserPoolDomain domain pool =>
      match pools s !! pool with
      | Some ds =>
          if PyStr.in_list domain ds
          then (inr tt, set_pools s (<[pool := remove_keys [domain] ds]> (pools s)))
          else (inl (ClientError CognitoIdp "InvalidParameterException"), s)
      | None => (inl (ResourceNotFound CognitoIdp), s)
      end
  | DeleteUserPool pool =>
      match pools s !! pool with
      | Some [] => (inr tt, set_pools s (delete pool (pools s)))
      | Some _ => (inl (ClientError CognitoIdp "InvalidParameterException"), s)
      | None => (inl (ResourceNotFound CognitoIdp), s)
      end
  | TableDelete t =>
      if bool_decide (t ∈ tables s)
      then (inr tt, set_tables s (tables s ∖ {[t]}))
      else (inl (ResourceNotFound DynamoDB), s)
  | TableWaitUntilNotExists _ => (inr tt, s)
  | ListObjectsV2 b =>
      match bucket s with
      | Some keys =>
          if String.eqb b (bucket_name (given s))
          then (inr (match keys with [] => None | _ => Some (take max_keys keys) end), s)
          else (inl NoSuchBucket, s)
      | None => (inl NoSuchBucket, s)
      end
  | DeleteObjects b gone =>
      match bucket s with
      | Some keys =>
          if String.eqb b (bucket_name (given s))
          then (inr tt, set_bucket s (Some (remove_keys gone keys)))
          else (inl NoSuchBucket, s)
      | None => (inl NoSuchBucket, s)
      end
  | DeleteBucket b =>
      match bucket s with
      | Some keys =>
          if String.eqb b (bucket_name (given s))
          then match keys with
               | [] => (inr tt, set_bucket s None)
               | _ => (inl (ClientError S3 "BucketNotEmpty"), s)
               end
          else (inl NoSuchBucket, s)
      | None => (inl NoSuchBucket, s)
      end
  | ListRolePolicies r =>
      match roles s !! r with
      | Some ps => (inr ps, s)
      | None => (inl NoSuchEntity, s)
      end
  | DeleteRolePolicy r p =>
      match roles s !! r with
      | Some ps => (inr tt, set_roles s (<[r := remove_keys [p] ps]> (roles s)))
      | None => (inl NoSuchEntity, s)
      end
  | ListAttachedRolePolicies r =>
      match roles s !! r with
      | Some _ => (inr [], s)
      | None => (inl NoSuchEntity, s)
      end
  | DetachRolePolicy r _ =>
      match roles s !! r with
      | Some _ => (inr tt, s)
      | None => (inl NoSuchEntity, s)
      end
  | DeleteRole r =>
      match roles s !! r with
      | Some [] => (inr tt, set_roles s (delete r (roles s)))
      | Some _ => (inl (ClientError IAM "DeleteConflictException"), s)
      | None => (inl NoSuchEntity, s)
      end
  | ListRoles => (inr (fst <$> map_to_list (roles s)), s)
  | GetRole r =>
      match roles s !! r with
      | Some _ => (inr tt, s)
      | None => (inl NoSuchEntity, s)
      end
  | PutRolePolicy r p _ =>
      match roles s !! r with
      | Some ps => (inr tt, set_roles s (<[r := p :: remove_keys [p] ps]> (roles s)))
      | None => (inl NoSuchEntity, s)
      end
  | GetCallerIdentity => (inr (account (given s)), s)
  | RuntimeInit => (inr tt, s)
  | RuntimeConfigure params => (inr tt, set_configured s (Some params))
  | RuntimeLaunch _ =>
      match configured s with
      | None => (inl (ValueError "Must configure before launching"), s)
      | Some params =>
          let role :=
            match execution_role params with
            | Some arn => Some arn
            | None => auto_role (given s)
            end in
          let details :=
            RuntimeDetails role
              (Some (JwtAuthorizer (Some (authorizer_discoveryUrl params))
                                   (Some (authorizer_allowedClients params)))) in
          let s := set_runtimes s (<[launch_id (given s) := (details, None)]> (runtimes s)) in
          let s :=
            match execution_role params, auto_role (given s) with
            | None, Some arn =>
                set_roles s (<[PyStr.last_segment arn := default [] (roles s !! PyStr.last_segment arn)]> (roles s))
            | _, _ => s
            end in
          (inr (launch_arn s), s)
      end
  | S3BucketName => (inr (bucket_name (given s)), s)
  | Input _ => (inr (answer (given s)), s)
  | CopyFile _ _ => (inr tt, s)
  | WriteIntegrationDoc _ _ _ => (inr tt, s)
  end.

Definition cloud_respond (X : Type) (c : api X) (s : cloud) : (exn + X) * cloud :=
  match faults (given s) !! api_name c with
  | Some e => (inl e, s)
  | None => respond_ok c s
  end.

Definition world : World := {|
  PS := cloud;
  respond := cloud_respond;
  elapse := fun _ s => s;
  path_exists := fun p s => PyStr.in_list p (files (given s));
  urandom_hex := fun s => ("0badc0de", s)
|}.

(** A cloud in which nothing has been deployed. *)
Definition empty (sc : scenario) : cloud :=
  CloudState sc ∅ None ∅ ∅ None ∅ ∅.

End Cloud.

(* ================================================================== *)
(** ** Scenarios on the reference cloud *)

Module Scenarios.

Definition cfg : EnterpriseConfig := {|
  mcp_server_name := "ins-mcp";
  region := "us-east-1";
  applicants_table := "nova-insurance-applicants";
  claims_table := "nova-insurance-claims";
  medical_records_prefix := "medical-records";
  cognito_user_pool_name := "ins-pool";
  oauth_api_identifier := "ins-api";
  model_id := "amazon.nova-lite-v1:0"
|}.

Definition role_name : string := "AmazonBedrockAgentCoreSDKRuntime-us-east-1-abc".
Definition role_arn : string := "arn:aws:iam::123456789012:role/" +:+ role_name.
Definition runtime_id : string := "ins-mcp-0001".
Definition runtime_arn : string := "arn:aws:bedrock-agentcore:::runtime/" +:+ runtime_id.
Definition discovery : string :=
  "https://cognito-idp.us-east-1.amazonaws.com/pool-0/.well-known/openid-configuration".

Definition runtime : runtime_summary := RuntimeSummary "ins-mcp" runtime_id runtime_arn.

Definition details : runtime_details :=
  RuntimeDetails (Some role_arn)
    (Some (JwtAuthorizer (Some discovery) (Some ["client-of-pool-0"]))).

(** The stored credential bundle of the deployment. *)
Definition bundle : gmap string string :=
  <["pool_id" := "pool-0"]>
  (<["service_client_id" := "client-of-pool-0"]>
  (<["service_client_secret" := "secret-of-pool-0"]>
  (<["discovery_url" := discovery]>
  (<["oauth_token_url" :=
       "https://nova-insurance-mcp-0badc0de.auth.us-east-1.amazoncognito.com/oauth2/token"]>
  (<["domain_prefix" := "nova-insurance-mcp-0badc0de"]> ∅))))).

(** The operator types [answer]; a deleted runtime answers [lag] more
    probes; the runtime listing is [listing]. *)
Definition scene (listing : exn + page) (answer : string) (lag : nat)
    (faults : gmap string exn) : Cloud.scenario := {|
  Cloud.listing := listing;
  Cloud.deletion_lag := lag;
  Cloud.launch_id := runtime_id;
  Cloud.auto_role := Some role_arn;
  Cloud.answer := answer;
  Cloud.files := ["mcpserver.py"; "requirements.txt"];
  Cloud.account := "123456789012";
  Cloud.bucket_name := "ins-records-123456789012-us-east-1";
  Cloud.faults := faults
|}.

(** Medical records [1 .. n] of the bucket. *)
Definition record_key (i : nat) : string :=
  "medical-records/APP-" +:+ PyStr.of_nat i +:+ "/summary.json".

Definition records (n : nat) : list string := record_key <$> seq 1 n.

(** The cloud after a deployment and a data load of [n] records. *)
Definition deployed (sc : Cloud.scenario) (n : nat) : Cloud.cloud := {|
  Cloud.given := sc;
  Cloud.runtimes := {[ runtime_id := (details, None) ]};
  Cloud.configured := None;
  Cloud.pools := {[ "pool-0" := ["nova-insurance-mcp-0badc0de"] ]};
  Cloud.secrets := {[ "ins-mcp/cognito/credentials" := bundle ]};
  Cloud.bucket := Some (records n);
  Cloud.tables := {[ "nova-insurance-applicants"; "nova-insurance-claims" ]};
  Cloud.roles := {[ role_name := ["NovaInsuranceDynamoDBAccess"; "NovaInsuranceS3Access";
                                  "NovaInsuranceBedrockAccess"] ]}
|}.

Definition listed : exn + page := inr (PageLast [runtime]).
Definition nothing_listed : exn + page := inr (PageLast []).

(** What [get_mcp_server_details] finds in a deployed cloud. *)
Definition found : Cleanup.server_details := {|
  Cleanup.agent_runtime_id := runtime_id;
  Cleanup.agent_arn := runtime_arn;
  Cleanup.execution_role_arn := role_arn;
  Cleanup.execution_role_name := role_name;
  Cleanup.auth_config := customJWTAuthorizer details
|}.

(** Teardown of a deployment whose runtime is still visible after 20
    probes (scenario D of the specification). *)
Definition stuck_deletion : Cloud.cloud := deployed (scene listed "y" 25 ∅) 3.

(** Teardown of a deployment whose runtime is gone at the 7th probe
    (scenario C). *)
Definition prompt_deletion : Cloud.cloud := deployed (scene listed "y" 6 ∅) 3.

(** A deployment whose secret was removed by hand: the pool and its domain
    are still there. *)
Definition orphan_pool : Cloud.cloud :=
  Cloud.set_secrets (deployed (scene listed "y" 0 ∅) 3) ∅.

(** A first deployment in an account that has reached its limit of
    Cognito domains: [create_user_pool_domain] raises. *)
Definition domain_limit : Cloud.cloud :=
  Cloud.empty (scene nothing_listed "y" 0
                 {[ "create_user_pool_domain" := ClientError CognitoIdp "LimitExceededException" ]}).

(** A deployment that exists; the operator answers the update prompt. *)
Definition update_declined : Cloud.cloud := deployed (scene listed " No " 0 ∅) 3.
Definition update_affirmed : Cloud.cloud := deployed (scene listed "Y" 0 ∅) 3.

(** The operator affirms the update of a runtime that has no authorizer,
    while the bundle of the deployment is still stored. *)
Definition update_without_authorizer : Cloud.cloud :=
  Cloud.set_runtimes update_affirmed
    {[ runtime_id := (RuntimeDetails (Some role_arn) None, None) ]}.

(** A deployment whose listing still shows, on a first page, an entry of
    the same name for a runtime that no longer exists. *)
Definition stale_id : string := "ins-mcp-0000".
Definition stale_runtime : runtime_summary :=
  RuntimeSummary "ins-mcp" stale_id ("arn:aws:bedrock-agentcore:::runtime/" +:+ stale_id).
Definition stale_listing : Cloud.cloud :=
  deployed (scene (inr (PageNext [stale_runtime] (PageLast [runtime]))) "y" 0 ∅) 3.

(** A first deployment by a caller who may not attach role policies. *)
Definition policy_denied : Cloud.cloud :=
  Cloud.empty (scene nothing_listed "y" 0 {[ "put_role_policy" := AccessDenied IAM ]}).

(** A deployment exists; the caller may not list the runtimes. *)
Definition listing_denied : Cloud.cloud :=
  deployed (scene listed "y" 0 {[ "list_agent_runtimes" := AccessDenied AgentCore ]}) 3.

(** A first deployment by a caller who may not launch a runtime. *)
Definition launch_denied : Cloud.cloud :=
  Cloud.empty (scene nothing_listed "y" 0 {[ "launch" := AccessDenied AgentCore ]}).

(** A caller who may not ask the security-token service who they are: on a
    first deployment, and on the update of an existing one. *)
Definition identity_denied : Cloud.cloud :=
  Cloud.empty (scene nothing_listed "y" 0 {[ "get_caller_identity" := AccessDenied STS ]}).
Definition identity_denied_update : Cloud.cloud :=
  deployed (scene listed "y" 0 {[ "get_caller_identity" := AccessDenied STS ]}) 3.

(** A first deployment in an account where the roles of the toolkit never
    show in the listing, and where the role that the launch creates never
    becomes visible to [get_role]. *)
Definition propagation_stuck : Cloud.cloud :=
  Cloud.empty (scene nothing_listed "y" 0 {[ "get_role" := NoSuchEntity ]}).

End Scenarios.

(* ================================================================== *)
(** ** Observations on runs *)

(** [wp m Q]: whatever world [m] starts in, its outcome and the events it
    leaves satisfy [Q]. *)
Definition wp {W : World} {A} (m : M (W:=W) A)
    (Q : outcome A -> list event -> Prop) : Prop :=
  forall s, Q (res (m s)) (evs (m s)).

(** The same for one run, with the world it ends in. *)
Definition wps {W : World} {A} (m : M (W:=W) A) (s : @PS W)
    (Q : outcome A -> @PS W -> list event -> Prop) : Prop :=
  Q (res (m s)) (fin (m s)) (evs (m s)).

(** [only P E m]: every event [m] leaves satisfies [P], and when [m] ends
    in [sys.exit(code)], [E code] holds. *)
Definition only {W : World} {A} (P : event -> bool) (E : nat -> bool)
    (m : M (W:=W) A) : Prop :=
  wp m (fun o tr => forallb P tr = true /\ forall c, o = SysExit c -> E c = true).

Definition no_exit (c : nat) : bool := false.
Definition any_exit (c : nat) : bool := true.

(** [starts P m]: the events of [m] begin with a list that satisfies [P]. *)
Definition starts {W : World} {A} (P : list event -> Prop) (m : M (W:=W) A) : Prop :=
  wp m (fun _ tr => exists t1 t2, tr = t1 ++ t2 /\ P t1).

(** Two computations that run alike in every world. *)
Definition same_run {W : World} {A} (m1 m2 : M (W:=W) A) : Prop :=
  forall s, m1 s = m2 s.

Definition is_print (e : event) : bool :=
  match e with EPrint _ => true | _ => false end.

(** The events of a run without its printed lines. *)
Definition effects (tr : list event) : list event :=
  List.filter (fun e => negb (is_print e)) tr.

Definition is_line (line : string) (e : event) : bool :=
  match e with EPrint l => String.eqb l line | _ => false end.

(** [line] was printed. *)
Definition printed (line : string) (tr : list event) : Prop :=
  existsb (is_line line) tr = true.

(** Round [i] (counted from 0) of a deletion wait that starts after
    [attempt] attempts: the sleep, then the probe and its answer. *)
Definition probe_round (id : string) (attempt i : nat) (a : exn + runtime_details)
    : list event :=
  [ESleep (Cleanup.sleep_time (attempt + S i)); ECall (GetAgentRuntime id) a].

(** A probe that did not raise the runtime client's not-found error. *)
Definition pending (a : exn + runtime_details) : Prop :=
  a <> inl (ResourceNotFound AgentCore).

(** The calls of [cleanup_iam_role]. *)
Definition role_call (e : event) : bool :=
  match e with
  | ECall c _ =>
      match c with
      | ListRolePolicies _ | DeleteRolePolicy _ _ | ListAttachedRolePolicies _
      | DetachRolePolicy _ _ | DeleteRole _ => true
      | _ => false
      end
  | _ => false
  end.

Definition is_delete_request (e : event) : bool :=
  match e with
  | ECall c _ => match c with DeleteAgentRuntime _ => true | _ => false end
  | _ => false
  end.

Definition is_get_runtime (e : event) : bool :=
  match e with
  | ECall c _ => match c with GetAgentRuntime _ => true | _ => false end
  | _ => false
  end.

(** The exception a call raised, if it raised one. *)
Definition raised (e : event) : option exn :=
  match e with
  | ECall _ (inl x) => Some x
  | _ => None
  end.

(** The call returned. *)
Definition returned (e : event) : bool :=
  match raised e with
  | None => true
  | Some _ => false
  end.

(** A lookup of a runtime that raised the runtime client's not-found error. *)
Definition not_found_probe (e : event) : bool :=
  is_get_runtime e &&
  match raised e with
  | Some x => is_modeled AgentCore "ResourceNotFoundException" x
  | None => false
  end.

(** The deletion of the runtime was confirmed: after a deletion request, a
    lookup of a runtime raised not-found. *)
Fixpoint confirmed (tr : list event) : bool :=
  match tr with
  | [] => false
  | e :: rest => (is_delete_request e && existsb not_found_probe rest) || confirmed rest
  end.

(** What may happen before the deletion request, and after the wait when
    the role is left alone. *)
Definition before_delete (e : event) : bool :=
  negb (role_call e) && negb (is_delete_request e).

Definition after_wait (e : event) : bool :=
  negb (role_call e) && negb (is_get_runtime e) && negb (is_delete_request e).

Definition no_role_call (e : event) : bool := negb (role_call e).

(** What [main] of cleanup.py does before the operator's confirmation. *)
Definition prelude_event (e : event) : bool :=
  before_delete e && negb (is_line Cleanup.starting_line e).

(** The calls [cleanup_cognito_resources] makes after it has read the
    secret [secret]: when the secret names a pool, the deletion of the domain
    the secret names for it (if it names one), then the deletion of that
    pool, whether or not the deletion of the domain raised. *)
Definition cognito_calls (secret : gmap string string) (rest : list event) : Prop :=
  match secret !! "pool_id" with
  | None => rest = []
  | Some pool_id =>
      exists r,
        match secret !! "domain_prefix" with
        | None => rest = [ECall (DeleteUserPool pool_id) r]
        | Some domain_prefix =>
            exists r', rest = [ECall (DeleteUserPoolDomain domain_prefix pool_id) r';
                               ECall (DeleteUserPool pool_id) r]
        end
  end.

Definition is_pool_deletion (e : event) : bool :=
  match e with
  | ECall c _ =>
      match c with
      | DeleteUserPool _ | DeleteUserPoolDomain _ _ => true
      | _ => false
      end
  | _ => false
  end.

(** The calls of [cleanup_s3_bucket] after the bucket name is known: one
    listing; when it answers with keys, their deletion; then, unless one of
    these raised, the deletion of the bucket. *)
Definition bucket_calls_after (b : string) (listed : exn + option (list string))
    (rest : list event) : Prop :=
  match listed with
  | inl _ => rest = []
  | inr None => exists r, rest = [ECall (DeleteBucket b) r]
  | inr (Some keys) =>
      exists r,
        match r with
        | inl _ => rest = [ECall (DeleteObjects b keys) r]
        | inr _ => exists r', rest = [ECall (DeleteObjects b keys) r;
                                      ECall (DeleteBucket b) r']
        end
  end.

(** The calls of [cleanup_cognito_resources]: the reading of the secret
    and, when it is read, the deletions it names. *)
Definition cognito_effects (config : EnterpriseConfig) (l : list event) : Prop :=
  exists answer rest,
    l = ECall (GetSecretValue (mcp_server_name config +:+ "/cognito/credentials")) answer
        :: rest /\
    match answer with
    | inl _ => rest = []
    | inr secret => cognito_calls secret rest
    end.

(** The calls of [cleanup_dynamodb_tables] for one table: its deletion
    and, when that returned, the wait for it. *)
Definition table_calls (t : string) (a : (exn + unit) * (exn + unit)) : list event :=
  ECall (TableDelete t) (fst a) ::
  match fst a with
  | inr _ => [ECall (TableWaitUntilNotExists t) (snd a)]
  | inl _ => []
  end.

(** The calls of [cleanup_dynamodb_tables]: both tables, whatever the
    calls for the first one did. *)
Definition tables_effects (config : EnterpriseConfig) (l : list event) : Prop :=
  exists a b,
    l = table_calls (applicants_table config) a ++ table_calls (claims_table config) b.

(** The calls of [cleanup_s3_bucket]. *)
Definition bucket_effects (l : list event) : Prop :=
  exists name,
    match name with
    | inl _ => l = [ECall S3BucketName name]
    | inr b =>
        exists listed rest,
          l = ECall S3BucketName name :: ECall (ListObjectsV2 b) listed :: rest /\
          bucket_calls_after b listed rest
    end.

(** The call of [cleanup_secrets_manager]. *)
Definition secret_effects (config : EnterpriseConfig) (l : list event) : Prop :=
  exists r,
    l = [ECall (DeleteSecret (mcp_server_name config +:+ "/cognito/credentials")) r].

(** The role cleanup begins right after the wait returned [True]: a sleep,
    the probe that raised not-found, the line of [return True], then the
    first line and the first call of [cleanup_iam_role]; no role call
    comes earlier, and the deletion had been requested. *)
Definition role_after_ready (d : Cleanup.server_details) (tr : list event) : Prop :=
  exists pre n k r post,
    tr = pre ++ [ESleep n;
                 ECall (GetAgentRuntime (Cleanup.agent_runtime_id d))
                       (inl (ResourceNotFound AgentCore));
                 EPrint (Cleanup.deleted_line k);
                 EPrint (Cleanup.role_header d);
                 ECall (ListRolePolicies (Cleanup.execution_role_name d)) r] ++ post /\
    forallb no_role_call pre = true /\
    confirmed (pre ++ [ESleep n;
                       ECall (GetAgentRuntime (Cleanup.agent_runtime_id d))
                             (inl (ResourceNotFound AgentCore))]) = true.

(** The role is left alone, the operator is told how to delete it, and the
    four remaining steps are run, in their order, each with its calls: the
    pool follows the secret, both tables are deleted, the bucket is listed
    and deleted, the secret is deleted. *)
Definition role_left_to_operator (config : EnterpriseConfig)
    (d : Cleanup.server_details) (tr : list event) : Prop :=
  forallb no_role_call tr = true /\
  exists t0 t1 t2 t3 t4,
    tr = t0 ++ (EPrint <$> Cleanup.manual_cleanup_lines d)
            ++ EPrint Cleanup.cognito_header :: t1
            ++ EPrint Cleanup.dynamodb_header :: t2
            ++ EPrint Cleanup.s3_header :: t3
            ++ EPrint Cleanup.secrets_header :: t4 /\
    cognito_effects config (effects t1) /\
    tables_effects config (effects t2) /\
    bucket_effects (effects t3) /\
    secret_effects config (effects t4).

(** The two halves of the ordering property of the teardown, for a run
    with events [tr] whose lookup of the runtime gave [found]. *)
Definition teardown_ordered (config : EnterpriseConfig)
    (found : outcome (option Cleanup.server_details)) (tr : list event) : Prop :=
  (forallb no_role_call tr = true \/
   exists d, found = Ret (Some d) /\ confirmed tr = true /\ role_after_ready d tr) /\
  (forall d, found = Ret (Some d) ->
             printed Cleanup.starting_line tr ->
             confirmed tr = false ->
             role_left_to_operator config d tr).

(** The place of a call among the five steps of [setup_cognito_user_pool]. *)
Definition provisioning_step (e : event) : option nat :=
  match e with
  | ECall c _ =>
      match c with
      | CreateUserPool _ _ => Some 1
      | CreateUserPoolDomain _ _ => Some 2
      | CreateResourceServer _ _ _ => Some 3
      | CreateUserPoolClient _ _ _ _ => Some 4
      | CreateSecret _ _ => Some 5
      | _ => None
      end
  | _ => None
  end.

(** Provisioning is atomic on the reference cloud when a call that returns
    no bundle leaves the registered pools as they were. *)
Definition provisioning_atomic (config : EnterpriseConfig) (region : string)
    (s : Cloud.cloud) : Prop :=
  let r := Deploy.setup_cognito_user_pool (W:=Cloud.world) config region s in
  res r = Ret None -> Cloud.pools (fin r) = Cloud.pools s.

(** *** Kinds of events of the deployment *)

Definition is_input (e : event) : bool :=
  match e with
  | ECall c _ => match c with Input _ => true | _ => false end
  | _ => false
  end.

(** What the operator answered to the prompts of a run. *)
Fixpoint input_answers (tr : list event) : list string :=
  match tr with
  | [] => []
  | ECall (Input _) (inr answer) :: rest => answer :: input_answers rest
  | _ :: rest => input_answers rest
  end.

(** A call that creates, changes or deletes a resource of the provider. *)
Definition cloud_mutation (e : event) : bool :=
  match e with
  | ECall c _ =>
      match c with
      | DeleteAgentRuntime _ | CreateSecret _ _ | DeleteSecret _
      | CreateUserPool _ _ | CreateUserPoolDomain _ _ | CreateResourceServer _ _ _
      | CreateUserPoolClient _ _ _ _ | DeleteUserPoolDomain _ _ | DeleteUserPool _
      | TableDelete _ | DeleteObjects _ _ | DeleteBucket _
      | DeleteRolePolicy _ _ | DetachRolePolicy _ _ | DeleteRole _
      | PutRolePolicy _ _ _ | RuntimeConfigure _ | RuntimeLaunch _ => true
      | _ => false
      end
  | _ => false
  end.

(** A call that writes the secret store or creates or deletes a pool, a
    domain, a resource server or a client. *)
Definition credential_write (e : event) : bool :=
  match e with
  | ECall c _ =>
      match c with
      | CreateSecret _ _ | DeleteSecret _
      | CreateUserPool _ _ | CreateUserPoolDomain _ _ | CreateResourceServer _ _ _
      | CreateUserPoolClient _ _ _ _ | DeleteUserPoolDomain _ _ | DeleteUserPool _ => true
      | _ => false
      end
  | _ => false
  end.

(** The events of [check_existing_mcp_server]. *)
Definition detection_event (e : event) : bool :=
  match e with
  | EPrint _ => true
  | ESleep _ => false
  | ECall c _ =>
      match c with
      | ListAgentRuntimes | GetAgentRuntime _ => true
      | _ => false
      end
  end.

(** The events of the search through the listing. *)
Definition listing_event (e : event) : bool :=
  match e with
  | EPrint _ => true
  | ESleep _ => false
  | ECall c _ => match c with ListAgentRuntimes => true | _ => false end
  end.

(** The events of [setup_cognito_user_pool]. *)
Definition setup_event (e : event) : bool :=
  match e with
  | EPrint _ => true
  | ESleep _ => false
  | ECall c _ =>
      match c with
      | CreateUserPool _ _ | CreateUserPoolDomain _ _ | CreateResourceServer _ _ _
      | CreateUserPoolClient _ _ _ _ | CreateSecret _ _ => true
      | _ => false
      end
  end.

(** The events of [add_permissions]. *)
Definition binder_event (e : event) : bool :=
  match e with
  | EPrint _ => true
  | ESleep _ => false
  | ECall c _ =>
      match c with
      | GetCallerIdentity | S3BucketName | PutRolePolicy _ _ _ => true
      | _ => false
      end
  end.

(** The events of the check before the launch. *)
Definition pre_check_event (e : event) : bool :=
  match e with
  | EPrint _ | ESleep _ => true
  | ECall c _ =>
      match c with
      | GetCallerIdentity | ListRoles => true
      | _ => false
      end
  end.

(** The events of the verification after the launch. *)
Definition verify_event (e : event) : bool :=
  match e with
  | EPrint _ | ESleep _ => true
  | ECall c _ =>
      match c with
      | GetAgentRuntime _ | GetRole _ => true
      | _ => false
      end
  end.

(** The events of [launch_and_bind]: no prompt, no provisioning. *)
Definition launch_event (e : event) : bool :=
  negb (is_input e) && negb (credential_write e).

(** Declining the update: whenever an answer of the run is not affirmative,
    the run ends in [sys.exit(2)], it has made no call that changes the
    cloud, and it has printed the cancellation line. *)
Definition declined_ok (o : outcome unit) (tr : list event) : Prop :=
  forall answer,
    In answer (input_answers tr) ->
    PyStr.in_list (PyStr.normalise answer) ["y"; "yes"] = false ->
    o = SysExit 2 /\
    forallb (fun e => negb (cloud_mutation e)) tr = true /\
    printed Deploy.cancelled_line tr.






(** The authorizer a runtime descriptor is configured with. *)
Definition authorizer_passed (client_id discovery_url : string) (e : event) : bool :=
  match e with
  | ECall (RuntimeConfigure params) _ =>
      bool_decide (authorizer_allowedClients params = [client_id] /\
                   authorizer_discoveryUrl params = discovery_url)
  | _ => true
  end.




(** The answer of the first [get_agent_runtime] of a run. *)
Fixpoint details_answer (tr : list event) : option (exn + runtime_details) :=
  match tr with
  | [] => None
  | ECall (GetAgentRuntime _) r :: _ => Some r
  | _ :: rest => details_answer rest
  end.

Definition detection_error_line : string :=
  "⚠️  Error checking AgentCore - check permissions and configuration".

(** The page [p] with [items] for its entries. *)
Definition with_items (p : page) (items : list runtime_summary) : page :=
  match p with
  | PageLast _ => PageLast items
  | PageNext _ rest => PageNext items rest
  | PageNextFails _ e => PageNextFails items e
  end.

(** *** Errors of the deployment *)

Definition is_access_denied (x : exn) : bool :=
  match x with
  | ClientError _ code => String.eqb code "AccessDeniedException"
  | _ => false
  end.

(** A call of the run was refused for lack of permissions. *)
Definition access_denied (e : event) : bool :=
  match raised e with
  | Some x => is_access_denied x
  | None => false
  end.

(** A refused call is fatal on the reference cloud when no run in which a
    call was refused ends with exit status 0. *)
Definition permission_denied_fatal (config : EnterpriseConfig) (region : string)
    (s : Cloud.cloud) : Prop :=
  let r := Deploy.main (W:=Cloud.world) config region s in
  existsb access_denied (evs r) = true -> exit_status (res r) <> 0.

(** The calls that [deploy_mcp.py] makes outside every [try] but the one of
    [__main__]. *)
Definition top_level_call {X} (c : api X) : bool :=
  match c with
  | CopyFile _ _ | Input _ | RuntimeInit | RuntimeConfigure _ | RuntimeLaunch _
  | WriteIntegrationDoc _ _ _ => true
  | _ => false
  end.

Definition fatal_failure (e : event) : option exn :=
  match e with
  | ECall c (inl x) => if top_level_call c then Some x else None
  | _ => None
  end.

(** What the top-level calls of a run raised. *)
Definition fatal_failures (tr : list event) : list exn := omap fatal_failure tr.

(** The run of [deploy_mcp_server] hands the failure of a top-level call to
    its caller as it was raised. *)
Definition propagates (o : outcome unit) (tr : list event) : Prop :=
  match o with
  | Ret _ => fatal_failures tr = []
  | Raise e => fatal_failures tr = [] \/ fatal_failures tr = [e]
  | SysExit c => c = 2 /\ fatal_failures tr = []
  end.

(** The run ended with the report of [x]: the troubleshooting lines. *)
Definition reported (x : exn) (tr : list event) : Prop :=
  exists before, tr = before ++ (EPrint <$> Deploy.troubleshooting_lines x).

(** *** Where an error of the deployment is caught *)

(** What the calls of a run raised. *)
Definition failures (tr : list event) : list exn := omap raised tr.

(** The first line of the handler of [add_permissions]. *)
Definition permissions_line (x : exn) : string :=
  if is_modeled IAM "EntityAlreadyExistsException" x
  then "✅ IAM PERMISSIONS ALREADY EXIST (policies already attached)"
  else "⚠️  Warning: Could not add permissions: " +:+ exn_str x.

(** The first line of the handlers of [setup_cognito_user_pool]. *)
Definition cognito_line (x : exn) : string :=
  if is_modeled CognitoIdp "LimitExceededException" x
  then "❌ Cognito resource limit exceeded - contact AWS support"
  else if is_modeled CognitoIdp "InvalidParameterException" x
  then "❌ Invalid Cognito configuration: " +:+ exn_str x
  else "❌ Cognito setup error: " +:+ exn_name x.

(** The first line of the handler of the check before the launch. *)
Definition pre_launch_line (x : exn) : string := " Error: " +:+ exn_str x.

(** The first line of the handlers of the check after the launch. *)
Definition post_launch_line (x : exn) : string :=
  if is_modeled AgentCore "ResourceNotFoundException" x then " Runtime not ready yet"
  else if is_modeled IAM "NoSuchEntityException" x then " Role not propagated yet"
  else " Error: " +:+ exn_str x.

(** The handlers that [deploy_mcp.py] has around the call [c], each by the
    line it prints first when it catches [x].  The calls of the last case
    are made outside every handler but the one of [__main__]. *)
Definition handler_lines {X} (c : api X) (x : exn) : list string :=
  match c with
  | ListAgentRuntimes => [detection_error_line]
  | GetAgentRuntime _ => [detection_error_line; post_launch_line x]
  | GetRole _ => [post_launch_line x]
  | ListRoles => [pre_launch_line x]
  | GetCallerIdentity | S3BucketName | PutRolePolicy _ _ _ => [permissions_line x]
  | CreateUserPool _ _ | CreateUserPoolDomain _ _ | CreateResourceServer _ _ _
  | CreateUserPoolClient _ _ _ _ | CreateSecret _ _ => [cognito_line x]
  | _ => []
  end.

(** What follows an event tells what became of its error: nothing follows
    a call that raised (the function ended there), or the line of a handler
    around the call. *)
Definition caught (e : event) (rest : list event) : Prop :=
  match e with
  | ECall c (inl x) =>
      match rest with
      | [] => True
      | EPrint line :: _ => In line (handler_lines c x)
      | _ => False
      end
  | _ => True
  end.

(** Every call of the run that raised is its last event or was caught by
    one of its handlers. *)
Fixpoint handled (tr : list event) : Prop :=
  match tr with
  | [] => True
  | e :: rest => caught e rest /\ handled rest
  end.

(** The error of the last event of a run, when that is a call that
    raised. *)
Definition unhandled (tr : list event) : option exn := last tr ≫= raised.

(** The errors that [deploy_mcp_server] raises itself. *)
Definition own_errors : list exn :=
  [ Deploy.setup_failure; Deploy.propagation_failure;
    FileNotFoundError "Required file mcpserver.py not found";
    FileNotFoundError "Required file requirements.txt not found";
    KeyError "service_client_id"; KeyError "discovery_url";
    KeyError "oauth_token_url"; KeyError "roleArn" ].

(** Every error of the run was caught where it was raised, and the run
    went on. *)
Definition settled (tr : list event) : Prop := handled tr /\ unhandled tr = None.

(** The run and its end: a call that raised and was not caught is the last
    event, and the run ends with the error of that call; a run that ends
    with another error ends with one of its own; a run that returns or
    exits has caught every error. *)
Definition guarded {A} (o : outcome A) (tr : list event) : Prop :=
  handled tr /\
  match o with
  | Raise x =>
      match unhandled tr with
      | Some y => x = y
      | None => In x own_errors
      end
  | _ => unhandled tr = None
  end.

(** How [__main__] ends a run of [deploy_mcp_server] that ended with [o]
    after the events [tr]. *)
Definition top_level (o : outcome unit) (tr : list event)
    (o' : outcome unit) (tr' : list event) : Prop :=
  match o with
  | Ret _ => o' = Ret tt /\ tr' = tr
  | SysExit c => c = 2 /\ o' = SysExit 2 /\ tr' = tr
  | Raise x => o' = SysExit 1 /\ tr' = tr ++ (EPrint <$> Deploy.troubleshooting_lines x)
  end.

(** *** The two checks of the role propagation *)

(** [runtime_role_exists and codebuild_role_exists], for an answer of
    [list_roles]. *)
Definition roles_ready (region : string) (a : exn + list string) : bool :=
  match a with
  | inr role_names =>
      existsb (PyStr.contains ("AmazonBedrockAgentCoreSDKRuntime-" +:+ region)) role_names
      && existsb (PyStr.contains ("AmazonBedrockAgentCoreSDKCodeBuild-" +:+ region)) role_names
  | inl _ => false
  end.

(** One attempt of the check before the launch: the listing, and the
    5-second sleep unless the roles are there. *)
Definition pre_round (region : string) (a : exn + list string) : list event :=
  ECall ListRoles a :: (if roles_ready region a then [] else [ESleep 5]).

Definition role_listing (e : event) : option (exn + list string) :=
  match e with
  | ECall ListRoles a => Some a
  | _ => None
  end.

(** The answers of the [list_roles] calls of a run. *)
Definition role_listings (tr : list event) : list (exn + list string) :=
  omap role_listing tr.

(** The role an answer of [get_agent_runtime] names, if it names one. *)
Definition role_of (a : exn + runtime_details) : option string :=
  match a with
  | inr d =>
      match roleArn d with
      | Some arn => if String.eqb arn "" then None else Some (PyStr.last_segment arn)
      | None => None
      end
  | inl _ => None
  end.

(** One attempt of the verification after the launch: the details of the
    runtime, [get_role] when they name a role, and the 5-second sleep unless
    [get_role] returned. *)
Definition post_round (id : string) (p : (exn + runtime_details) * (exn + unit))
    : list event :=
  ECall (GetAgentRuntime id) (fst p) ::
  match role_of (fst p) with
  | None => [ESleep 5]
  | Some name =>
      ECall (GetRole name) (snd p) ::
      match snd p with inr _ => [] | inl _ => [ESleep 5] end
  end.

(** The attempt verified the role. *)
Definition round_verified (p : (exn + runtime_details) * (exn + unit)) : bool :=
  match role_of (fst p), snd p with
  | Some _, inr _ => true
  | _, _ => false
  end.

(** The launch was called after the timeout warning of the first check,
    with only printed lines in between. *)
Definition launch_follows (tr : list event) : Prop :=
  exists before after a rest,
    tr = before ++ EPrint Deploy.pre_launch_warning :: after /\
    effects after = ECall (RuntimeLaunch true) a :: rest.

(** The events after the first call of [launch]. *)
Fixpoint after_launch (tr : list event) : list event :=
  match tr with
  | [] => []
  | ECall (RuntimeLaunch _) _ :: rest => rest
  | _ :: rest => after_launch rest
  end.

(** A call of [get_role] returned. *)
Definition role_confirmed (e : event) : bool :=
  match e with
  | ECall (GetRole _) (inr _) => true
  | _ => false
  end.

Definition is_launch (e : event) : bool :=
  match e with
  | ECall c _ => match c with RuntimeLaunch _ => true | _ => false end
  | _ => false
  end.

Definition runtime_probe (e : event) : option (exn + runtime_details) :=
  match e with
  | ECall (GetAgentRuntime _) a => Some a
  | _ => None
  end.

(** The answers of [get_agent_runtime] after the launch. *)
Definition post_probes (tr : list event) : list (exn + runtime_details) :=
  omap runtime_probe (after_launch tr).

(** The first check ran out of attempts: 24 listings, the roles in none. *)
Definition pre_exhausted (region : string) (tr : list event) : Prop :=
  length (role_listings tr) = Deploy.max_attempts /\
  existsb (roles_ready region) (role_listings tr) = false.

(** The second check ran out of attempts: 24 probes of the runtime after
    the launch, and no [get_role] returned. *)
Definition post_exhausted (tr : list event) : Prop :=
  length (post_probes tr) = Deploy.max_attempts /\
  existsb role_confirmed tr = false.

(** The calls that bind the runtime to its data: the role policies and the
    integration document. *)
Definition binding_call (e : event) : bool :=
  match e with
  | ECall c _ =>
      match c with
      | PutRolePolicy _ _ _ | WriteIntegrationDoc _ _ _ => true
      | _ => false
      end
  | _ => false
  end.

(** The events that belong to neither check, to the launch nor to the
    binding. *)
Definition calm_event (e : event) : bool :=
  match e with
  | ECall c _ =>
      match c with
      | ListRoles | RuntimeLaunch _ | GetRole _ | PutRolePolicy _ _ _
      | WriteIntegrationDoc _ _ _ => false
      | _ => true
      end
  | _ => true
  end.

(** What a run of the deployment owes to the two checks. *)
Definition checks_ok (region : string) (o : outcome unit) (tr : list event) : Prop :=
  (pre_exhausted region tr ->
   printed Deploy.pre_launch_warning tr /\ launch_follows tr) /\
  (post_exhausted tr ->
   o = Raise Deploy.propagation_failure /\
   forallb (fun e => negb (binding_call e)) tr = true).
(* ================================================================== *)
(** ** Reasoning about runs

    The rules of [wp] follow the structure of the program; the answer to a
    call is arbitrary. *)

Section Wp.
Context {W : World}.

Lemma wp_mono {A} (m : M A) (Q Q' : outcome A -> list event -> Prop) :
  wp m Q -> (forall o tr, Q o tr -> Q' o tr) -> wp m Q'.
Proof. intros Hm HQ s. apply HQ, Hm. Qed.

Lemma wp_ret {A} (a : A) Q : Q (Ret a) [] -> wp (ret a) Q.
Proof. intros H s. exact H. Qed.

Lemma wp_raise {A} e (Q : outcome A -> _) : Q (Raise e) [] -> wp (raise e) Q.
Proof. intros H s. exact H. Qed.

Lemma wp_sys_exit {A} c (Q : outcome A -> _) : Q (SysExit c) [] -> wp (sys_exit c) Q.
Proof. intros H s. exact H. Qed.

Lemma wp_print line Q : Q (Ret tt) [EPrint line] -> wp (print line) Q.
Proof. intros H s. exact H. Qed.

Lemma wp_sleep n Q : Q (Ret tt) [ESleep n] -> wp (sleep n) Q.
Proof. intros H s. exact H. Qed.

Lemma wp_call {X} (c : api X) Q :
  (forall r, Q (of_answer r) [ECall c r]) -> wp (call c) Q.
Proof.
  intros H s. unfold call. destruct (@respond W X c s) as [r s']. apply H.
Qed.

Lemma wp_list_next r Q :
  Q (of_answer r) [ECall ListAgentRuntimes r] -> wp (list_next r) Q.
Proof. intros H s. exact H. Qed.

Lemma wp_os_path_exists p Q : (forall b, Q (Ret b) []) -> wp (os_path_exists p) Q.
Proof. intros H s. apply H. Qed.

Lemma wp_os_urandom_hex Q : (forall h, Q (Ret h) []) -> wp os_urandom_hex Q.
Proof.
  intros H s. unfold os_urandom_hex. destruct (@urandom_hex W s). apply H.
Qed.

Lemma wp_bind {A B} (m : M A) (k : A -> M B) Q :
  wp m (fun o tr =>
          match o with
          | Ret a => wp (k a) (fun o' tr' => Q o' (tr ++ tr'))
          | Raise e => Q (Raise e) tr
          | SysExit c => Q (SysExit c) tr
          end) ->
  wp (bind m k) Q.
Proof.
  intros H s. specialize (H s). unfold bind.
  destruct (res (m s)); simpl; auto.
Qed.

Lemma wp_try_except {A} (m : M A) (h : exn -> M A) Q :
  wp m (fun o tr =>
          match o with
          | Raise e => wp (h e) (fun o' tr' => Q o' (tr ++ tr'))
          | _ => Q o tr
          end) ->
  wp (try_except m h) Q.
Proof.
  intros H s. specialize (H s). unfold try_except.
  destruct (res (m s)) eqn:E; simpl; rewrite ?E; auto.
Qed.

(** The converse reading: what [wp] says of one run. *)
Lemma wp_run {A} (m : M A) Q s : wp m Q -> Q (res (m s)) (evs (m s)).
Proof. intros H. apply H. Qed.

(** *** One run *)

Lemma wps_of_wp {A} (m : M A) s (Q : outcome A -> list event -> Prop) :
  wp m Q -> wps m s (fun o _ tr => Q o tr).
Proof. intros H. apply H. Qed.

Lemma wps_bind {A B} (m : M A) (k : A -> M B) s Q :
  wps m s (fun o s' tr =>
             match o with
             | Ret a => wps (k a) s' (fun o' s'' tr' => Q o' s'' (tr ++ tr'))
             | Raise e => Q (Raise e) s' tr
             | SysExit c => Q (SysExit c) s' tr
             end) ->
  wps (bind m k) s Q.
Proof.
  unfold wps, bind. destruct (res (m s)); simpl; auto.
Qed.

Lemma wps_try_except {A} (m : M A) (h : exn -> M A) s Q :
  wps m s (fun o s' tr =>
             match o with
             | Raise e => wps (h e) s' (fun o' s'' tr' => Q o' s'' (tr ++ tr'))
             | _ => Q o s' tr
             end) ->
  wps (try_except m h) s Q.
Proof.
  unfold wps, try_except. destruct (res (m s)) eqn:E; simpl; rewrite ?E; auto.
Qed.

Lemma wps_call {X} (c : api X) s Q :
  (let a := @respond W X c s in Q (of_answer a.1) a.2 [ECall c a.1]) ->
  wps (call c) s Q.
Proof. unfold wps, call. by destruct (@respond W X c s). Qed.

Lemma wps_print line s Q : Q (Ret tt) s [EPrint line] -> wps (print line) s Q.
Proof. done. Qed.

Lemma wps_ret {A} (a : A) s Q : Q (Ret a) s [] -> wps (ret a) s Q.
Proof. done. Qed.

Lemma wps_raise {A} e s (Q : outcome A -> _) : Q (Raise e) s [] -> wps (raise e) s Q.
Proof. done. Qed.

Lemma print_lines_run ls s :
  print_lines ls s = Run (Ret tt) s (EPrint <$> ls).
Proof.
  revert s. induction ls as [|l ls IH]; intros s; [done|].
  cbn [print_lines]. unfold bind, print. simpl. by rewrite IH.
Qed.

Lemma wps_print_lines ls s Q :
  Q (Ret tt) s (EPrint <$> ls) -> wps (print_lines ls) s Q.
Proof. unfold wps. by rewrite print_lines_run. Qed.

Lemma wp_print_lines ls Q :
  Q (Ret tt) (EPrint <$> ls) -> wp (print_lines ls) Q.
Proof. intros H s. by rewrite print_lines_run. Qed.

(** *** Events of one kind only *)

Lemma only_ret {A} P E (a : A) : only P E (ret a).
Proof. by intros s. Qed.

Lemma only_raise {A} P E e : only P E (raise (A:=A) e).
Proof. by intros s. Qed.

Lemma only_sys_exit {A} P (E : nat -> bool) c : E c = true -> only P E (sys_exit (A:=A) c).
Proof. intros H s. split; [done|]. simpl. by intros ? [= <-]. Qed.

Lemma only_print P E line : P (EPrint line) = true -> only P E (print line).
Proof. intros H s. simpl. by rewrite H. Qed.

Lemma only_sleep P E n : P (ESleep n) = true -> only P E (sleep n).
Proof. intros H s. simpl. by rewrite H. Qed.

Lemma only_call {X} P E (c : api X) :
  (forall r, P (ECall c r) = true) -> only P E (call c).
Proof.
  intros H s. unfold call. destruct (@respond W X c s) as [r s']. simpl.
  rewrite H. by destruct r.
Qed.

Lemma only_list_next P E r : P (ECall ListAgentRuntimes r) = true -> only P E (list_next r).
Proof. intros H s. simpl. rewrite H. by destruct r. Qed.

Lemma only_os_path_exists P E p : only P E (os_path_exists p).
Proof. by intros s. Qed.

Lemma only_os_urandom_hex P E : only P E os_urandom_hex.
Proof. intros s. unfold os_urandom_hex. by destruct (@urandom_hex W s). Qed.

Lemma only_bind {A B} P E (m : M A) (k : A -> M B) :
  only P E m -> (forall a, only P E (k a)) -> only P E (bind m k).
Proof.
  intros Hm Hk s. destruct (Hm s) as [Htr Hex]. unfold bind.
  destruct (res (m s)) as [a| |] eqn:Hres; simpl; [|done|].
  - destruct (Hk a (fin (m s))) as [Htr' Hex'].
    split; [|done]. by rewrite forallb_app, Htr, Htr'.
  - split; [done|]. intros c [= <-]. by apply Hex.
Qed.

Lemma only_try_except {A} P E (m : M A) (h : exn -> M A) :
  only P E m -> (forall e, only P E (h e)) -> only P E (try_except m h).
Proof.
  intros Hm Hh s. destruct (Hm s) as [Htr Hex]. unfold try_except.
  destruct (res (m s)) as [|e|] eqn:Hres; simpl; rewrite ?Hres; [done| |].
  - destruct (Hh e (fin (m s))) as [Htr' Hex'].
    split; [|done]. by rewrite forallb_app, Htr, Htr'.
  - split; [done|]. intros c [= <-]. by apply Hex.
Qed.

Lemma only_for_each {A} P E (l : list A) (body : A -> M unit) :
  (forall x, only P E (body x)) -> only P E (for_each l body).
Proof.
  intros Hb. induction l as [|x l IH]; [apply only_ret|].
  apply only_bind; auto.
Qed.

Lemma only_for_return {A R} P E (l : list A) (body : A -> M (option R)) :
  (forall x, only P E (body x)) -> only P E (for_return l body).
Proof.
  intros Hb. induction l as [|x l IH]; [apply only_ret|].
  apply only_bind; [auto|]. intros [v|]; [apply only_ret|apply IH].
Qed.

Lemma only_print_lines P E ls :
  (forall l, P (EPrint l) = true) -> only P E (print_lines ls).
Proof.
  intros H. induction ls as [|l ls IH]; [apply only_ret|].
  apply only_bind; [by apply only_print|auto].
Qed.

Lemma only_weaken {A} (P P' : event -> bool) (E E' : nat -> bool) (m : M A) :
  (forall e, P e = true -> P' e = true) ->
  (forall c, E c = true -> E' c = true) ->
  only P E m -> only P' E' m.
Proof.
  intros HP HE Hm s. destruct (Hm s) as [Htr Hex]. split; [|auto].
  rewrite forallb_forall in *. auto.
Qed.

(** A computation that neither exits nor raises returns. *)
Lemma only_no_exit_try {A} P (m : M A) (h : exn -> M A) Q :
  only P no_exit m ->
  (forall e, wp (h e) (fun o tr => exists a, o = Ret a /\ forallb P tr = true)) ->
  (forall a tr, forallb P tr = true -> Q (Ret a) tr) ->
  wp (try_except m h) Q.
Proof.
  intros Hm Hh HQ s. destruct (Hm s) as [Htr Hex]. unfold try_except.
  destruct (res (m s)) as [a|e|c] eqn:Hres; simpl; rewrite ?Hres.
  - by apply HQ.
  - destruct (Hh e (fin (m s))) as (a & -> & Hh'). apply HQ.
    by rewrite forallb_app, Htr.
  - by specialize (Hex c eq_refl).
Qed.

(** *** How a run begins *)

Lemma starts_bind_l {A B} P (m : M A) (k : A -> M B) :
  starts P m -> starts P (bind m k).
Proof.
  intros Hm s. destruct (Hm s) as (t1 & t2 & Htr & HP). unfold bind.
  destruct (res (m s)); simpl; [|by eauto..].
  exists t1, (t2 ++ evs (k a (fin (m s)))). by rewrite Htr, app_assoc.
Qed.

Lemma starts_try_l {A} P (m : M A) (h : exn -> M A) :
  starts P m -> starts P (try_except m h).
Proof.
  intros Hm s. destruct (Hm s) as (t1 & t2 & Htr & HP). unfold try_except.
  destruct (res (m s)) eqn:Hres; simpl; rewrite ?Hres; [by eauto| |by eauto].
  exists t1, (t2 ++ evs (h e (fin (m s)))). by rewrite Htr, app_assoc.
Qed.

Lemma starts_print_bind {B} (P : list event -> Prop) line (k : unit -> M B) :
  starts (fun t => P (EPrint line :: t)) (k tt) -> starts P (bind (print line) k).
Proof.
  intros Hk s. destruct (Hk s) as (t1 & t2 & Htr & HP). unfold bind, print. simpl.
  exists (EPrint line :: t1), t2. by rewrite Htr.
Qed.

Lemma starts_call {X} (P : list event -> Prop) (c : api X) :
  (forall r, P [ECall c r]) -> starts P (call c).
Proof.
  intros H s. unfold call. destruct (@respond W X c s) as [r s']. simpl.
  exists [ECall c r], []. auto.
Qed.

Lemma bind_same_run {A B} (m : M A) (k1 k2 : A -> M B) :
  (forall a, same_run (k1 a) (k2 a)) -> same_run (bind m k1) (bind m k2).
Proof.
  intros Hk s. unfold bind. destruct (res (m s)); [|done..].
  by rewrite Hk.
Qed.

End Wp.

Lemma effects_app tr1 tr2 : effects (tr1 ++ tr2) = effects tr1 ++ effects tr2.
Proof. apply List.filter_app. Qed.

Lemma printed_intro line tr : In (EPrint line) tr -> printed line tr.
Proof.
  intros H. apply existsb_exists. exists (EPrint line). split; [done|].
  apply String.eqb_refl.
Qed.

Lemma is_modeled_spec svc code e :
  is_modeled svc code e = true <-> e = ClientError svc code.
Proof. unfold is_modeled. apply bool_decide_eq_true. Qed.

Lemma is_modeled_false svc code e :
  is_modeled svc code e = false <-> e <> ClientError svc code.
Proof. unfold is_modeled. apply bool_decide_eq_false. Qed.


(** Symbolic execution: one rule of the logic, then the reductions it
    exposes.  A call splits on its answer. *)
Ltac wp_simpl := cbn beta iota zeta delta [of_answer negb for_each].

Ltac wp_step :=
  lazymatch goal with
  | |- wp (bind _ _) _ => apply wp_bind
  | |- wp (try_except _ _) _ => apply wp_try_except
  | |- wp (ret _) _ => apply wp_ret
  | |- wp (raise _) _ => apply wp_raise
  | |- wp (sys_exit _) _ => apply wp_sys_exit
  | |- wp (print _) _ => apply wp_print
  | |- wp (sleep _) _ => apply wp_sleep
  | |- wp (call _) _ =>
      let r := fresh "r" in
      apply wp_call; intros r; destruct r as [?e|?a]
  | |- wp (list_next _) _ => apply wp_list_next
  | |- wp (print_lines _) _ => apply wp_print_lines
  | |- wp (os_path_exists _) _ => apply wp_os_path_exists; intros ?b
  | |- wp os_urandom_hex _ => apply wp_os_urandom_hex; intros ?h
  | |- wp (match ?x with _ => _ end) _ => destruct x eqn:?
  | |- wp (if ?x then _ else _) _ => destruct x eqn:?
  end; wp_simpl.

Ltac wp_go := wp_simpl; repeat wp_step.

(** A part of the program for which an [only] lemma is known. *)
Ltac wp_only lem :=
  eapply wp_mono; [apply lem|];
  let o := fresh "o" in
  let tr := fresh "tr" in
  let H := fresh "Hk" in
  let Hx := fresh "Hx" in
  intros o tr [H Hx]; destruct o as [?a|?e|?c];
  [ | |try (by specialize (Hx _ eq_refl))]; wp_simpl.

(** The same for one run in a known world. *)
Ltac wps_step :=
  lazymatch goal with
  | |- wps (bind _ _) _ _ => apply wps_bind
  | |- wps (try_except _ _) _ _ => apply wps_try_except
  | |- wps (ret _) _ _ => apply wps_ret
  | |- wps (raise _) _ _ => apply wps_raise
  | |- wps (print _) _ _ => apply wps_print
  | |- wps (print_lines _) _ _ => apply wps_print_lines
  | |- wps (call _) _ _ => apply wps_call
  end; cbn beta iota zeta.

(** The same for [only]; calls and prints are settled by evaluating the
    predicate, other functions by the hints of the database [only]. *)
Create HintDb only.

Ltac only_step :=
  lazymatch goal with
  | |- only _ _ (bind _ _) => apply only_bind; [|intros ?]
  | |- only _ _ (try_except _ _) => apply only_try_except; [|intros ?]
  | |- only _ _ (ret _) => apply only_ret
  | |- only _ _ (raise _) => apply only_raise
  | |- only _ _ (sys_exit _) => apply only_sys_exit; reflexivity
  | |- only _ _ (print _) => apply only_print; reflexivity
  | |- only _ _ (sleep _) => apply only_sleep; reflexivity
  | |- only _ _ (call _) => apply only_call; intros ?; reflexivity
  | |- only _ _ (list_next _) => apply only_list_next; reflexivity
  | |- only _ _ (os_path_exists _) => apply only_os_path_exists
  | |- only _ _ os_urandom_hex => apply only_os_urandom_hex
  | |- only _ _ (print_lines _) => apply only_print_lines; intros ?; reflexivity
  | |- only _ _ (for_each _ _) => apply only_for_each; intros ?
  | |- only _ _ (for_return _ _) => apply only_for_return; intros ?
  | |- only _ _ (match ?x with _ => _ end) => destruct x eqn:?
  | |- only _ _ (if ?x then _ else _) => destruct x eqn:?
  | |- only _ _ _ => solve [auto with only]
  end; cbn beta iota zeta delta [negb].

Ltac only_go := cbn beta iota zeta delta [negb]; repeat only_step.

(* ================================================================== *)
(** ** The deletion-confirmation wait *)

Section DeletionWait.
Context {W : World}.
Variable id : string.

Abbreviation not_found := (ResourceNotFound AgentCore).

Lemma probe_round_shift attempt (l : list (exn + runtime_details)) :
  imap (probe_round id attempt ∘ S) l = imap (probe_round id (attempt + 1)) l.
Proof.
  apply imap_ext. intros i x _. unfold probe_round. simpl.
  do 3 f_equal. lia.
Qed.

Lemma wait_loop_rounds fuel attempt :
  wp (Cleanup.wait_loop (W:=W) id fuel attempt) (fun o tr =>
    exists answers,
      effects tr = concat (imap (probe_round id attempt) answers) /\
      length answers <= Nat.min fuel (Cleanup.max_attempts - attempt) /\
      ((o = Ret (Some true) /\
        exists init, answers = init ++ [inl not_found] /\ Forall pending init) \/
       (o = Ret None /\ Forall pending answers /\
        length answers = Nat.min fuel (Cleanup.max_attempts - attempt)))).
Proof.
  assert (Hmax : Cleanup.max_attempts = 20) by reflexivity.
  revert attempt. induction fuel as [|fuel IH]; intros attempt;
    cbn [Cleanup.wait_loop].
  - apply wp_ret. exists []. split; [done|]. split; [cbn [length]; lia|].
    right. repeat split; auto.
  - destruct (attempt <? Cleanup.max_attempts) eqn:Hlt.
    2:{ apply wp_ret. apply Nat.ltb_ge in Hlt. exists [].
        split; [done|]. split; [cbn [length]; lia|]. right.
        repeat split; auto. cbn [length]. lia. }
    apply Nat.ltb_lt in Hlt.
    assert (Hbudget : Nat.min (S fuel) (Cleanup.max_attempts - attempt)
                      = S (Nat.min fuel (Cleanup.max_attempts - (attempt + 1)))).
    { lia. }
    rewrite Hbudget.
    wp_go.
    + (* the probe raised not-found *)
      apply is_modeled_spec in Heqb. subst e.
      exists [inl not_found]. split.
      { cbn. unfold probe_round. repeat f_equal; lia. }
      split; [cbn [length]; lia|]. left. split; [done|]. exists []. auto.
    + (* the probe raised something else *)
      apply is_modeled_false in Heqb.
      eapply wp_mono; [apply IH|].
      intros o tr (answers & Htr & Hlen & Hres).
      exists (inl e :: answers). split.
      { rewrite !effects_app, Htr. cbn. rewrite probe_round_shift.
        unfold probe_round at 1. repeat f_equal; lia. }
      split; [cbn [length]; lia|].
      destruct Hres as [(-> & init & -> & Hinit)|(-> & Hall & Hn)].
      * left. split; [done|]. exists (inl e :: init). split; [done|].
        constructor; [|done]. unfold pending, ResourceNotFound. congruence.
      * right. split; [done|]. split.
        -- constructor; [|done]. unfold pending, ResourceNotFound. congruence.
        -- cbn [length]. lia.
    + (* the runtime is still there *)
      eapply wp_mono; [apply IH|].
      intros o tr (answers & Htr & Hlen & Hres).
      exists (inr a :: answers). split.
      { rewrite !effects_app, Htr. cbn. rewrite probe_round_shift.
        unfold probe_round at 1. repeat f_equal; lia. }
      split; [cbn [length]; lia|].
      destruct Hres as [(-> & init & -> & Hinit)|(-> & Hall & Hn)].
      * left. split; [done|]. exists (inr a :: init). split; [done|].
        constructor; [|done]. unfold pending, ResourceNotFound. congruence.
      * right. split; [done|]. split.
        -- constructor; [|done]. unfold pending, ResourceNotFound. congruence.
        -- cbn [length]. lia.
Qed.

(** More fuel than the attempts that are left changes nothing: the loop
    test, not the fuel, ends the loop. *)
Lemma wait_loop_fuel fuel attempt extra :
  Cleanup.max_attempts - attempt <= fuel ->
  same_run (Cleanup.wait_loop id (fuel + extra) attempt)
           (Cleanup.wait_loop id fuel attempt).
Proof.
  revert attempt. induction fuel as [|fuel IH]; intros attempt Hle.
  - destruct extra as [|extra]; [done|].
    cbn [Nat.add Cleanup.wait_loop].
    assert (Hge : (attempt <? Cleanup.max_attempts) = false)
      by (apply Nat.ltb_ge; lia).
    rewrite Hge. done.
  - cbn [Nat.add Cleanup.wait_loop].
    destruct (attempt <? Cleanup.max_attempts) eqn:Hlt; [|done].
    apply bind_same_run. intros _. apply bind_same_run. intros [b|]; [done|].
    apply IH. lia.
Qed.

End DeletionWait.

(** C2.  The runtime step of the teardown, [cleanup_agentcore_runtime] on a
    record that was found, in any world.  Its first call is the deletion
    request.  When the request raises, nothing else is called and the step
    returns [False].  When it returns, the step waits: it makes at most 20
    probes of the runtime; probe number [i + 1] comes right after a sleep of
    [min (5 + 2 * (i + 1)) 15] seconds; the step returns [True] at the first
    probe that raises the runtime client's not-found error, every earlier
    probe having answered or raised something else; otherwise it makes all
    20 probes, prints that the verification timed out after 200 seconds and
    returns [False].  Nothing else is called, so the step always ends. *)
Theorem deletion_wait_bounded (W : World) (d : Cleanup.server_details) (s : @PS W) :
  let id := Cleanup.agent_runtime_id d in
  let r := Cleanup.cleanup_agentcore_runtime (Some d) s in
  exists request rest,
    effects (evs r) = ECall (DeleteAgentRuntime id) request :: rest /\
    match request with
    | inl _ => rest = [] /\ res r = Ret false
    | inr _ =>
        exists answers : list (exn + runtime_details),
          rest = concat (imap (fun i a => [ESleep (Nat.min (5 + 2 * (i + 1)) 15);
                                           ECall (GetAgentRuntime id) a]) answers) /\
          length answers <= 20 /\
          ((res r = Ret true /\
            exists init, answers = init ++ [inl (ResourceNotFound AgentCore)] /\
                         Forall (fun a => a <> inl (ResourceNotFound AgentCore)) init) \/
           (res r = Ret false /\
            Forall (fun a => a <> inl (ResourceNotFound AgentCore)) answers /\
            length answers = 20 /\
            printed "   ⚠️ Deletion verification timed out after 200 seconds" (evs r)))
    end.
Proof.
  intros id r. subst id r. revert s.
  change (wp (Cleanup.cleanup_agentcore_runtime (W:=W) (Some d)) (fun o tr =>
    exists request rest,
      effects tr = ECall (DeleteAgentRuntime (Cleanup.agent_runtime_id d)) request :: rest /\
      match request with
      | inl _ => rest = [] /\ o = Ret false
      | inr _ =>
          exists answers : list (exn + runtime_details),
            rest = concat (imap (fun i a => [ESleep (Nat.min (5 + 2 * (i + 1)) 15);
                                             ECall (GetAgentRuntime (Cleanup.agent_runtime_id d)) a])
                                answers) /\
            length answers <= 20 /\
            ((o = Ret true /\
              exists init, answers = init ++ [inl (ResourceNotFound AgentCore)] /\
                           Forall (fun a => a <> inl (ResourceNotFound AgentCore)) init) \/
             (o = Ret false /\
              Forall (fun a => a <> inl (ResourceNotFound AgentCore)) answers /\
              length answers = 20 /\
              printed "   ⚠️ Deletion verification timed out after 200 seconds" tr))
      end)).
  unfold Cleanup.cleanup_agentcore_runtime. wp_go.
  { exists (inl e), []. by rewrite !effects_app. }
  eapply wp_mono; [apply wait_loop_rounds|].
  intros o tr (answers & Htr & Hlen & Hres).
  change (Nat.min Cleanup.max_attempts (Cleanup.max_attempts - 0)) with 20 in Hlen, Hres.
  assert (Hrounds : concat (imap (probe_round (Cleanup.agent_runtime_id d) 0) answers)
                    = concat (imap (fun i a => [ESleep (Nat.min (5 + 2 * (i + 1)) 15);
                                                ECall (GetAgentRuntime (Cleanup.agent_runtime_id d)) a])
                                   answers)).
  { f_equal. apply imap_ext. intros i x _.
    unfold probe_round, Cleanup.sleep_time. do 2 f_equal; lia. }
  destruct Hres as [(-> & init & -> & Hinit)|(-> & Hall & Hn)]; wp_go.
  - exists (inr a). eexists. split.
    { rewrite !effects_app, Htr, Hrounds. cbn. by rewrite app_nil_r. }
    eexists. split; [reflexivity|]. split; [done|]. left. split; [done|].
    by exists init.
  - exists (inr a). eexists. split.
    { rewrite !effects_app, Htr, Hrounds. cbn. by rewrite app_nil_r. }
    eexists. split; [reflexivity|]. split; [done|]. right.
    split; [done|]. split; [done|]. split; [done|].
    apply printed_intro. rewrite !in_app_iff. cbn. auto 10.
Qed.

(* ================================================================== *)
(** ** Teardown: the role is deleted only after a confirmed deletion *)

Lemma wp_conj {W : World} {A} (m : M (W:=W) A) Q1 Q2 :
  wp m Q1 -> wp m Q2 -> wp m (fun o tr => Q1 o tr /\ Q2 o tr).
Proof. intros H1 H2 s. split; [apply H1|apply H2]. Qed.

Lemma confirmed_no_probe tr :
  forallb (fun e => negb (not_found_probe e)) tr = true -> confirmed tr = false.
Proof.
  induction tr as [|e tr IH]; [done|]. cbn [forallb confirmed].
  intros [He Htr]%andb_true_iff. rewrite (IH Htr), orb_false_r.
  apply andb_false_iff. right. clear IH He.
  induction tr as [|e' tr IH]; [done|]. cbn [forallb existsb] in *.
  apply andb_true_iff in Htr as [He' Htr]. rewrite (IH Htr).
  by destruct (not_found_probe e').
Qed.

Lemma confirmed_app_before A B :
  forallb before_delete A = true -> confirmed (A ++ B) = confirmed B.
Proof.
  induction A as [|e A IH]; [done|]. cbn [forallb app confirmed].
  intros [He HA]%andb_true_iff. rewrite (IH HA).
  unfold before_delete in He. apply andb_true_iff in He as [_ He].
  apply negb_true_iff in He. by rewrite He.
Qed.

Lemma confirmed_app_l A B : confirmed A = true -> confirmed (A ++ B) = true.
Proof.
  induction A as [|e A IH]; [done|]. cbn [app confirmed].
  intros [[He HA]%andb_true_iff|HA]%orb_true_iff.
  - rewrite He, existsb_app, HA. done.
  - rewrite (IH HA). apply orb_true_r.
Qed.

Lemma after_wait_no_probe tr :
  forallb after_wait tr = true ->
  forallb (fun e => negb (not_found_probe e)) tr = true.
Proof.
  rewrite !forallb_forall. intros H e He. specialize (H e He).
  unfold after_wait in H. unfold not_found_probe.
  apply andb_true_iff in H as [[_ H]%andb_true_iff _].
  apply negb_true_iff in H. by rewrite H.
Qed.

Lemma after_wait_no_role tr :
  forallb after_wait tr = true -> forallb no_role_call tr = true.
Proof.
  rewrite !forallb_forall. intros H e He. specialize (H e He).
  unfold after_wait in H.
  by apply andb_true_iff in H as [[H _]%andb_true_iff _].
Qed.

Lemma before_delete_no_role tr :
  forallb before_delete tr = true -> forallb no_role_call tr = true.
Proof.
  rewrite !forallb_forall. intros H e He. specialize (H e He).
  unfold before_delete in H. by apply andb_true_iff in H as [H _].
Qed.

Lemma forallb_prints P ls :
  (forall l, P (EPrint l) = true) -> forallb P (EPrint <$> ls) = true.
Proof.
  intros H. induction ls as [|l ls IH]; [done|].
  rewrite fmap_cons. cbn [forallb]. by rewrite H, IH.
Qed.

Lemma prelude_before_delete tr :
  forallb prelude_event tr = true -> forallb before_delete tr = true.
Proof.
  rewrite !forallb_forall. intros H e He. specialize (H e He).
  unfold prelude_event in H. by apply andb_true_iff in H as [H _].
Qed.

Lemma prelude_not_started tr :
  forallb prelude_event tr = true -> ~ printed Cleanup.starting_line tr.
Proof.
  unfold printed. intros H [e [He Hl]]%existsb_exists.
  rewrite forallb_forall in H. specialize (H e He).
  unfold prelude_event in H. apply andb_true_iff in H as [_ H].
  by rewrite Hl in H.
Qed.

Lemma role_after_ready_app A d tr :
  forallb before_delete A = true ->
  role_after_ready d tr -> role_after_ready d (A ++ tr).
Proof.
  intros HA (pre & n & k & r & post & -> & Hpre & Hconf).
  exists (A ++ pre), n, k, r, post. split; [by rewrite app_assoc|]. split.
  - by rewrite forallb_app, (before_delete_no_role _ HA), Hpre.
  - by rewrite <- app_assoc, confirmed_app_before.
Qed.

Lemma role_left_to_operator_app config A d tr :
  forallb no_role_call A = true ->
  role_left_to_operator config d tr -> role_left_to_operator config d (A ++ tr).
Proof.
  intros HA (Hr & t0 & t1 & t2 & t3 & t4 & -> & Hsteps). split.
  - by rewrite forallb_app, HA, Hr.
  - exists (A ++ t0), t1, t2, t3, t4. split; [by rewrite app_assoc|done].
Qed.

Section Teardown.
Context {W : World}.
Variable config : EnterpriseConfig.

Abbreviation not_found := (ResourceNotFound AgentCore).

Lemma only_search_pages response :
  only prelude_event no_exit (Cleanup.search_pages (W:=W) config response).
Proof.
  induction response as [items|items rest IH|items e];
    cbn [Cleanup.search_pages]; unfold Cleanup.details_of_entry; only_go.
Qed.

Lemma only_get_mcp_server_details :
  only prelude_event no_exit (Cleanup.get_mcp_server_details (W:=W) config).
Proof.
  unfold Cleanup.get_mcp_server_details. only_go. apply only_search_pages.
Qed.

(** The wait returns [True] right after a sleep and a probe that raised
    not-found; otherwise no probe raised it. *)
Lemma wait_loop_ready id fuel attempt :
  wp (Cleanup.wait_loop (W:=W) id fuel attempt) (fun o tr =>
    forallb no_role_call tr = true /\
    forallb (fun e => negb (is_delete_request e)) tr = true /\
    ((o = Ret (Some true) /\
      exists pre n k,
        tr = pre ++ [ESleep n; ECall (GetAgentRuntime id) (inl not_found);
                     EPrint (Cleanup.deleted_line k)]) \/
     (o = Ret None /\
      forallb (fun e => negb (not_found_probe e)) tr = true))).
Proof.
  revert attempt. induction fuel as [|fuel IH]; intros attempt;
    cbn [Cleanup.wait_loop].
  - apply wp_ret. repeat split; auto.
  - destruct (attempt <? Cleanup.max_attempts); [|apply wp_ret; repeat split; auto].
    wp_go.
    + apply is_modeled_spec in Heqb. subst e.
      repeat split; [done..|]. left. split; [done|].
      by exists [], (Cleanup.sleep_time (attempt + 1)), (attempt + 1).
    + eapply wp_mono; [apply IH|]. intros o tr (Hr & Hd & Hres).
      cbn. rewrite Hr, Hd. repeat split; [done..|].
      destruct Hres as [(-> & pre & n & k & ->)|(-> & Hnp)].
      * left. split; [done|].
        by exists (ESleep (Cleanup.sleep_time (attempt + 1))
                   :: ECall (GetAgentRuntime id) (inl e)
                   :: EPrint ("     Checking... (" +:+ PyStr.of_nat ((attempt + 1) * 10)
                              +:+ "s elapsed)") :: pre), n, k.
      * right. split; [done|]. by rewrite Heqb, Hnp.
    + eapply wp_mono; [apply IH|]. intros o tr (Hr & Hd & Hres).
      cbn. rewrite Hr, Hd. repeat split; [done..|].
      destruct Hres as [(-> & pre & n & k & ->)|(-> & Hnp)].
      * left. split; [done|].
        by exists (ESleep (Cleanup.sleep_time (attempt + 1))
                   :: ECall (GetAgentRuntime id) (inr a)
                   :: EPrint ("     Still deleting... (" +:+ PyStr.of_nat ((attempt + 1) * 10)
                              +:+ "s elapsed)") :: pre), n, k.
      * right. split; [done|]. by rewrite Hnp.
Qed.

Lemma not_found_probe_true id :
  not_found_probe (ECall (GetAgentRuntime id) (inl not_found)) = true.
Proof.
  unfold not_found_probe, is_get_runtime, raised.
  by rewrite (proj2 (is_modeled_spec _ _ _)).
Qed.

Lemma cleanup_agentcore_runtime_spec details :
  wp (Cleanup.cleanup_agentcore_runtime (W:=W) details) (fun o tr =>
    forallb no_role_call tr = true /\
    ((o = Ret true /\
      exists d pre n k,
        details = Some d /\
        tr = pre ++ [ESleep n;
                     ECall (GetAgentRuntime (Cleanup.agent_runtime_id d)) (inl not_found);
                     EPrint (Cleanup.deleted_line k)] /\
        confirmed (pre ++ [ESleep n;
                           ECall (GetAgentRuntime (Cleanup.agent_runtime_id d))
                                 (inl not_found)]) = true) \/
     (o = Ret false /\
      forallb (fun e => negb (not_found_probe e)) tr = true))).
Proof.
  unfold Cleanup.cleanup_agentcore_runtime.
  wp_go; try (split; [done|]; right; by split).
  eapply wp_mono; [apply wait_loop_ready|].
  intros o tr (Hr & Hd & [(-> & pre & n & k & ->)|(-> & Hnp)]); wp_go.
  - rewrite app_nil_r. cbn [app]. split; [cbn; apply Hr|].
    left. split; [done|].
    exists s, ([EPrint ("🔄 Cleaning up AgentCore runtime: " +:+ Cleanup.agent_runtime_id s);
                     ECall (DeleteAgentRuntime (Cleanup.agent_runtime_id s)) (inr a);
                     EPrint ("✅ AgentCore runtime deletion initiated - Status: "
                             +:+ default "UNKNOWN" a);
                     EPrint "⏳ Waiting for AgentCore runtime deletion to complete...";
                     EPrint "   This typically takes 3-5 minutes. Please wait..."]
                    ++ pre), n, k.
    split; [done|]. split; [done|].
    cbn [app confirmed is_delete_request existsb]. rewrite existsb_app.
    cbn [existsb]. rewrite not_found_probe_true.
    cbn. by rewrite !orb_true_r.
  - rewrite app_nil_r. cbn [app]. split.
    + cbn. rewrite forallb_app, Hr. done.
    + right. split; [done|]. cbn. rewrite forallb_app, Hnp. done.
Qed.

Lemma cleanup_iam_role_starts d :
  starts (fun t => exists r,
            t = [EPrint (Cleanup.role_header d);
                 ECall (ListRolePolicies (Cleanup.execution_role_name d)) r])
         (Cleanup.cleanup_iam_role (W:=W) (Some d)).
Proof.
  unfold Cleanup.cleanup_iam_role.
  apply starts_try_l, starts_print_bind, starts_bind_l, starts_try_l, starts_bind_l.
  apply starts_call. eauto.
Qed.

(** A step of the shape [try: print(header); body  except Exception: ...]
    whose body and handler leave the role and the runtime alone. *)
Lemma guarded_step header (body : M (W:=W) unit) (h : exn -> M (W:=W) unit) :
  only after_wait no_exit body ->
  (forall e, wp (h e) (fun o tr => o = Ret tt /\ forallb after_wait tr = true)) ->
  wp (try_except (bind (print header) (fun _ => body)) h) (fun o tr =>
    o = Ret tt /\ exists t, tr = EPrint header :: t /\ forallb after_wait t = true).
Proof.
  intros Hbody Hh s. destruct (Hbody s) as [Htr Hex].
  unfold try_except, bind, print. cbn [res fin evs].
  destruct (res (body s)) as [[]|e|c] eqn:Hres; cbn [res fin evs app].
  - eauto.
  - destruct (Hh e (fin (body s))) as [-> Hh']. split; [done|].
    eexists. split; [done|]. by rewrite forallb_app, Htr.
  - by specialize (Hex c eq_refl).
Qed.

(** A step described by its calls: the description of the whole trace is
    the one of what follows the header. *)
Lemma described_step (m : M (W:=W) unit) header (D : list event -> Prop) :
  wp m (fun o tr => o = Ret tt /\ exists t, tr = EPrint header :: t /\
                                            forallb after_wait t = true) ->
  wp m (fun _ tr => D (effects tr)) ->
  wp m (fun o tr => o = Ret tt /\ exists t, tr = EPrint header :: t /\
                                            forallb after_wait t = true /\
                                            D (effects t)).
Proof.
  intros H1 H2 s. destruct (H1 s) as (Ho & t & Ht & Ha). pose proof (H2 s) as Hd.
  split; [done|]. exists t. split; [done|]. split; [done|].
  cbv beta in Hd. by rewrite Ht in Hd.
Qed.

Lemma cleanup_cognito_resources_calls :
  wp (Cleanup.cleanup_cognito_resources (W:=W) config) (fun _ tr =>
    cognito_effects config (effects tr)).
Proof.
  unfold Cleanup.cleanup_cognito_resources, Cleanup.getitem,
    Cleanup.credentials_secret_name, cognito_effects.
  wp_go.
  all: eexists _, _; split; [cbn; reflexivity|].
  all: cbn beta iota; unfold cognito_calls;
    repeat match goal with H : _ !! _ = _ |- _ => rewrite H; clear H end;
    eauto.
Qed.

Lemma cleanup_cognito_resources_spec :
  wp (Cleanup.cleanup_cognito_resources (W:=W) config) (fun o tr =>
    o = Ret tt /\ exists t, tr = EPrint Cleanup.cognito_header :: t /\
                            forallb after_wait t = true /\
                            cognito_effects config (effects t)).
Proof.
  apply described_step; [|apply cleanup_cognito_resources_calls].
  apply guarded_step; [unfold Cleanup.getitem; only_go|].
  intros e. by wp_go.
Qed.

Lemma cleanup_dynamodb_tables_calls :
  wp (Cleanup.cleanup_dynamodb_tables (W:=W) config) (fun _ tr =>
    tables_effects config (effects tr)).
Proof.
  unfold Cleanup.cleanup_dynamodb_tables, tables_effects. wp_go.
  all: match goal with
       | |- context [ECall (TableDelete (applicants_table config)) ?a] =>
           match goal with
           | |- context [ECall (TableWaitUntilNotExists (applicants_table config)) ?w] =>
               exists (a, w)
           | _ => exists (a, inr tt)
           end
       end.
  all: match goal with
       | |- context [ECall (TableDelete (claims_table config)) ?a] =>
           match goal with
           | |- context [ECall (TableWaitUntilNotExists (claims_table config)) ?w] =>
               exists (a, w)
           | _ => exists (a, inr tt)
           end
       end.
  all: reflexivity.
Qed.

Lemma cleanup_dynamodb_tables_spec :
  wp (Cleanup.cleanup_dynamodb_tables (W:=W) config) (fun o tr =>
    o = Ret tt /\ exists t, tr = EPrint Cleanup.dynamodb_header :: t /\
                            forallb after_wait t = true /\
                            tables_effects config (effects t)).
Proof.
  apply described_step; [|apply cleanup_dynamodb_tables_calls].
  apply guarded_step; [only_go|].
  intros e. by wp_go.
Qed.

Lemma cleanup_s3_bucket_calls :
  wp (Cleanup.cleanup_s3_bucket (W:=W)) (fun _ tr => bucket_effects (effects tr)).
Proof.
  unfold Cleanup.cleanup_s3_bucket, bucket_effects. wp_go.
  all: match goal with |- context [ECall S3BucketName ?n] => exists n end.
  all: cbn; try reflexivity.
  all: eexists _, _; split; [reflexivity|]; cbn; eauto.
  all: match goal with |- context [ECall (DeleteObjects _ _) ?r] => exists r end; eauto.
Qed.

Lemma cleanup_s3_bucket_spec :
  wp (Cleanup.cleanup_s3_bucket (W:=W)) (fun o tr =>
    o = Ret tt /\ exists t, tr = EPrint Cleanup.s3_header :: t /\
                            forallb after_wait t = true /\
                            bucket_effects (effects t)).
Proof.
  apply described_step; [|apply cleanup_s3_bucket_calls].
  apply guarded_step; [only_go|].
  intros e. by wp_go.
Qed.

Lemma cleanup_secrets_manager_calls :
  wp (Cleanup.cleanup_secrets_manager (W:=W) config) (fun _ tr =>
    secret_effects config (effects tr)).
Proof.
  unfold Cleanup.cleanup_secrets_manager, Cleanup.credentials_secret_name,
    secret_effects.
  wp_go; eexists; reflexivity.
Qed.

Lemma cleanup_secrets_manager_spec :
  wp (Cleanup.cleanup_secrets_manager (W:=W) config) (fun o tr =>
    o = Ret tt /\ exists t, tr = EPrint Cleanup.secrets_header :: t /\
                            forallb after_wait t = true /\
                            secret_effects config (effects t)).
Proof.
  apply described_step; [|apply cleanup_secrets_manager_calls].
  apply guarded_step; [only_go|].
  intros e. by wp_go.
Qed.

Lemma run_cleanup_spec details :
  wp (Cleanup.run_cleanup (W:=W) config details) (fun o tr =>
    match details with
    | Some d =>
        (confirmed tr = true /\ role_after_ready d tr) \/
        (confirmed tr = false /\ role_left_to_operator config d tr)
    | None => forallb no_role_call tr = true
    end).
Proof.
  unfold Cleanup.run_cleanup. do 3 wp_step.
  eapply wp_mono; [apply cleanup_agentcore_runtime_spec|].
  intros o tr (Hr & [(-> & d & pre & n & k & -> & -> & Hconf)|(-> & Hnp)]);
    wp_simpl.
  - (* the wait returned True *)
    eapply wp_mono; [apply starts_bind_l, cleanup_iam_role_starts|].
    intros o tr (t1 & t2 & -> & r & ->).
    left. split.
    + cbn [app confirmed is_delete_request andb orb].
      rewrite <- app_assoc. cbn [app].
      change (pre ++ ?a :: ?b :: ?c) with (pre ++ [a; b] ++ c).
      rewrite app_assoc. by apply confirmed_app_l.
    + exists (EPrint Cleanup.starting_line :: pre), n, k, r, t2.
      split; [by rewrite <- !app_assoc|]. split; [|done].
      cbn. rewrite forallb_app in Hr. by apply andb_true_iff in Hr as [-> _].
  - (* the deletion was not confirmed *)
    destruct details as [d|]; wp_go.
    all: eapply wp_mono; [apply cleanup_cognito_resources_spec|];
      intros ? ? (-> & t1 & -> & Ht1 & Hc1); wp_simpl; wp_step.
    all: eapply wp_mono; [apply cleanup_dynamodb_tables_spec|];
      intros ? ? (-> & t2 & -> & Ht2 & Hc2); wp_simpl; wp_step.
    all: eapply wp_mono; [apply cleanup_s3_bucket_spec|];
      intros ? ? (-> & t3 & -> & Ht3 & Hc3); wp_simpl; wp_step.
    all: eapply wp_mono; [apply cleanup_secrets_manager_spec|];
      intros ? ? (-> & t4 & -> & Ht4 & Hc4); wp_simpl; wp_go.
    all: pose proof (after_wait_no_role _ Ht1) as Hr1;
      pose proof (after_wait_no_role _ Ht2) as Hr2;
      pose proof (after_wait_no_role _ Ht3) as Hr3;
      pose proof (after_wait_no_role _ Ht4) as Hr4;
      pose proof (after_wait_no_probe _ Ht1) as Hp1;
      pose proof (after_wait_no_probe _ Ht2) as Hp2;
      pose proof (after_wait_no_probe _ Ht3) as Hp3;
      pose proof (after_wait_no_probe _ Ht4) as Hp4.
    1,2: right; split; [apply confirmed_no_probe|split].
    all: try (rewrite !forallb_app; cbn [forallb];
              rewrite ?Hr, ?Hr1, ?Hr2, ?Hr3, ?Hr4, ?Hnp, ?Hp1, ?Hp2, ?Hp3, ?Hp4,
                ?forallb_prints by done; done).
    all: exists ([EPrint Cleanup.starting_line] ++ tr), t1, t2, t3.
    all: eexists; split; [rewrite <- ?app_assoc; cbn [app]; reflexivity|].
    all: split; [done|]; split; [done|]; split; [done|].
    all: by rewrite !effects_app, app_nil_r.
Qed.

Lemma not_ordered_before_start found tr :
  forallb prelude_event tr = true -> teardown_ordered config found tr.
Proof.
  intros H. split.
  - left. by apply before_delete_no_role, prelude_before_delete.
  - intros d _ Hstart. by apply prelude_not_started in H.
Qed.

Lemma teardown_ordered_app A found tr :
  forallb prelude_event A = true ->
  teardown_ordered config found tr -> teardown_ordered config found (A ++ tr).
Proof.
  intros HA [H1 H2]. pose proof (prelude_before_delete _ HA) as HB.
  pose proof (before_delete_no_role _ HB) as HR. split.
  - destruct H1 as [H1|(d & Hd & Hc & Hrar)].
    + left. by rewrite forallb_app, HR, H1.
    + right. exists d. split; [done|]. split.
      * by rewrite confirmed_app_before.
      * by apply role_after_ready_app.
  - intros d Hd Hstart Hconf. apply role_left_to_operator_app; [done|].
    apply H2; [done| |by rewrite confirmed_app_before in Hconf].
    unfold printed in *. rewrite existsb_app in Hstart.
    apply orb_true_iff in Hstart as [Hstart|Hstart]; [|done].
    by apply prelude_not_started in HA.
Qed.

Lemma run_cleanup_ordered details :
  wp (Cleanup.run_cleanup (W:=W) config details) (fun _ tr =>
    teardown_ordered config (Ret details) tr).
Proof.
  eapply wp_mono; [apply run_cleanup_spec|]. intros o tr H.
  destruct details as [d|].
  - destruct H as [[Hc Hrar]|[Hc Hrlo]]; split.
    + right. by exists d.
    + intros d' _ _ Hc'. congruence.
    + left. apply Hrlo.
    + by intros d' [= <-] _ _.
  - split; [by left|]. by intros d' [=].
Qed.

Lemma main_teardown_ordered s :
  teardown_ordered config (res (Cleanup.get_mcp_server_details (W:=W) config s))
                   (evs (Cleanup.main (W:=W) config s)).
Proof.
  change (wps (Cleanup.main config) s (fun o _ tr =>
            teardown_ordered config (res (Cleanup.get_mcp_server_details config s)) tr)).
  unfold Cleanup.main.
  apply wps_bind, wps_print_lines. cbn beta iota.
  apply wps_bind. unfold wps at 1.
  destruct (only_get_mcp_server_details s) as [HA _].
  destruct (res (Cleanup.get_mcp_server_details config s)) as [details|e|c] eqn:Hdet.
  2,3: apply not_ordered_before_start; rewrite forallb_app, HA; done.
  refine (wps_of_wp _ _ _ _).
  eapply wp_mono.
  2:{ intros o tr H. rewrite app_assoc. apply teardown_ordered_app; [|exact H].
      rewrite forallb_app, HA. done. }
  destruct details as [d|]; wp_go.
  all: try (apply not_ordered_before_start; vm_compute; reflexivity).
  all: eapply wp_mono; [apply run_cleanup_ordered|]; intros o tr H.
  all: rewrite !app_assoc; apply teardown_ordered_app; [|exact H].
  all: vm_compute; reflexivity.
Qed.

End Teardown.

(** C1.  For every run of the teardown ([main] of cleanup.py), in any
    world.  First: either no call of the role cleanup is made at all, or a
    runtime record was found, the deletion was confirmed (after the deletion
    request a lookup of the runtime raised not-found), and the role cleanup
    begins right after the wait returned [True]: the events up to its first
    call end with the wait's last sleep, the probe that raised not-found,
    the line of [return True], and the first line of [cleanup_iam_role],
    with no role call before.  Second: when a record [d] was found, the
    cleanup was started and the deletion was not confirmed, no role call
    is made, the manual-cleanup lines are printed - among them one with the
    role's ARN and one with the role's name - and after them the four
    remaining steps (pool, tables, bucket, secret) are run in their order,
    each with its calls: the secret is read and the pool and domain it
    names are deleted; both tables are deleted, the second whatever
    happened to the first; the bucket is listed, emptied of the listed keys
    and deleted; the secret is deleted. *)
Theorem teardown_role_only_after_ready (W : World) (config : EnterpriseConfig)
    (s : @PS W) :
  let found := res (Cleanup.get_mcp_server_details config s) in
  let tr := evs (Cleanup.main config s) in
  (forallb no_role_call tr = true \/
   exists d, found = Ret (Some d) /\ confirmed tr = true /\ role_after_ready d tr) /\
  (forall d, found = Ret (Some d) ->
             printed Cleanup.starting_line tr ->
             confirmed tr = false ->
             role_left_to_operator config d tr /\
             In ("   2. Then delete IAM role: " +:+ Cleanup.execution_role_arn d)
                (Cleanup.manual_cleanup_lines d) /\
             In ("   aws iam delete-role --role-name " +:+ Cleanup.execution_role_name d)
                (Cleanup.manual_cleanup_lines d)).
Proof.
  intros found tr. destruct (main_teardown_ordered config s) as [H1 H2].
  split; [exact H1|]. intros d Hd Hstart Hconf.
  split; [by apply H2|]. unfold Cleanup.manual_cleanup_lines. simpl. tauto.
Qed.

(** The second half of C1 on scenario D: the runtime is still visible after
    the 20 probes. *)
Lemma teardown_role_only_after_ready_witness :
  let tr := evs (Cleanup.main (W:=Cloud.world) Scenarios.cfg Scenarios.stuck_deletion) in
  res (Cleanup.get_mcp_server_details (W:=Cloud.world) Scenarios.cfg Scenarios.stuck_deletion)
    = Ret (Some Scenarios.found) /\
  printed Cleanup.starting_line tr /\
  confirmed tr = false /\
  role_left_to_operator Scenarios.cfg Scenarios.found tr.
Proof.
  intros tr.
  assert (Hfound : res (Cleanup.get_mcp_server_details (W:=Cloud.world)
                          Scenarios.cfg Scenarios.stuck_deletion)
                   = Ret (Some Scenarios.found)) by (vm_compute; reflexivity).
  assert (Hstart : printed Cleanup.starting_line tr) by (vm_compute; reflexivity).
  assert (Hconf : confirmed tr = false) by (vm_compute; reflexivity).
  split; [exact Hfound|]. split; [exact Hstart|]. split; [exact Hconf|].
  exact (proj1 (proj2 (teardown_role_only_after_ready Cloud.world Scenarios.cfg
                         Scenarios.stuck_deletion)
                      Scenarios.found Hfound Hstart Hconf)).
Defined.

(* ================================================================== *)
(** ** Teardown: the authentication pool *)

(** C10.  [cleanup_cognito_resources], in any world.  Its first call reads
    the secret [{mcp_server_name}/cognito/credentials]; it always returns.
    When that read raises, no other call is made - neither the pool nor a
    domain is deleted, whatever exists - and when it raises the secret
    store's not-found error the step prints "No Cognito resources found".
    When the secret is read, the only other calls are the deletion of the
    pool the secret names under [pool_id] and, before it, of the domain the
    secret names under [domain_prefix] for that pool. *)
Theorem pool_cleanup_follows_secret (W : World) (config : EnterpriseConfig)
    (s : @PS W) :
  let r := Cleanup.cleanup_cognito_resources config s in
  res r = Ret tt /\
  exists answer rest,
    effects (evs r) =
      ECall (GetSecretValue (mcp_server_name config +:+ "/cognito/credentials")) answer
      :: rest /\
    match answer with
    | inl e =>
        rest = [] /\
        forallb (fun e => negb (is_pool_deletion e)) (evs r) = true /\
        printed (if is_modeled SecretsManager "ResourceNotFoundException" e
                 then "ℹ️ No Cognito resources found"
                 else "⚠️ Error cleaning up Cognito: " +:+ exn_str e) (evs r)
    | inr secret => cognito_calls secret rest
    end.
Proof.
  intros r. subst r. revert s.
  change (wp (Cleanup.cleanup_cognito_resources (W:=W) config) (fun o tr =>
    o = Ret tt /\
    exists answer rest,
      effects tr =
        ECall (GetSecretValue (mcp_server_name config +:+ "/cognito/credentials")) answer
        :: rest /\
      match answer with
      | inl e =>
          rest = [] /\
          forallb (fun e => negb (is_pool_deletion e)) tr = true /\
          printed (if is_modeled SecretsManager "ResourceNotFoundException" e
                   then "ℹ️ No Cognito resources found"
                   else "⚠️ Error cleaning up Cognito: " +:+ exn_str e) tr
      | inr secret => cognito_calls secret rest
      end)).
  unfold Cleanup.cleanup_cognito_resources, Cleanup.getitem,
    Cleanup.credentials_secret_name.
  wp_go.
  all: split; [done|]; eexists _, _; split; [cbn; reflexivity|].
  all: cbn beta iota; unfold cognito_calls;
    repeat match goal with H : _ !! _ = _ |- _ => rewrite H; clear H end;
    eauto.
  all: split; [done|]; split; [done|].
  all: match goal with H : is_modeled _ _ _ = _ |- _ => rewrite H end.
  all: apply printed_intro; cbn; auto 10.
Qed.

(** On the reference cloud: without the secret the pool and its domain
    survive the step. *)
Example pool_survives_without_secret :
  let r := Cleanup.cleanup_cognito_resources (W:=Cloud.world) Scenarios.cfg
             Scenarios.orphan_pool in
  Cloud.pools (fin r) = Cloud.pools Scenarios.orphan_pool /\
  Cloud.pools (fin r) !! "pool-0" = Some ["nova-insurance-mcp-0badc0de"] /\
  printed "ℹ️ No Cognito resources found" (evs r).
Proof. vm_compute. done. Qed.

(* ================================================================== *)
(** ** Teardown: the bucket *)

(** In any world: [cleanup_s3_bucket] lists the bucket once; the keys it
    hands to [delete_objects] are those of that one answer; the bucket is
    deleted after them, and only when neither call raised; the step always
    returns, also when the bucket is absent. *)
Lemma bucket_step_deletes_listed (W : World) (s : @PS W) :
  let r := Cleanup.cleanup_s3_bucket s in
  res r = Ret tt /\
  exists name,
    match name with
    | inl _ => effects (evs r) = [ECall S3BucketName name]
    | inr b =>
        exists listed rest,
          effects (evs r) =
            ECall S3BucketName name :: ECall (ListObjectsV2 b) listed :: rest /\
          bucket_calls_after b listed rest
    end.
Proof.
  intros r. subst r. revert s.
  change (wp (Cleanup.cleanup_s3_bucket (W:=W)) (fun o tr =>
    o = Ret tt /\
    exists name,
      match name with
      | inl _ => effects tr = [ECall S3BucketName name]
      | inr b =>
          exists listed rest,
            effects tr =
              ECall S3BucketName name :: ECall (ListObjectsV2 b) listed :: rest /\
            bucket_calls_after b listed rest
      end)).
  unfold Cleanup.cleanup_s3_bucket. wp_go.
  all: split; [done|].
  all: match goal with |- context [ECall S3BucketName ?n] => exists n end.
  all: cbn; try reflexivity.
  all: eexists _, _; split; [reflexivity|]; cbn; eauto.
  all: match goal with |- context [ECall (DeleteObjects _ _) ?r] => exists r end; eauto.
Qed.

Lemma remove_keys_self keys : Cloud.remove_keys keys keys = [].
Proof.
  unfold Cloud.remove_keys.
  assert (H : forall gone, (forall k, In k keys -> In k gone) ->
                           List.filter (fun k => negb (PyStr.in_list k gone)) keys = []).
  { induction keys as [|k keys IH]; intros gone Hin; [done|].
    cbn [List.filter].
    assert (Hk : PyStr.in_list k gone = true).
    { apply existsb_exists. exists k. split; [apply Hin; by left|apply String.eqb_refl]. }
    rewrite Hk. cbn. apply IH. intros k' Hk'. apply Hin. by right. }
  by apply H.
Qed.

Lemma cloud_respond_ok X (c : api X) (s : Cloud.cloud) :
  Cloud.faults (Cloud.given s) = ∅ ->
  @respond Cloud.world X c s = Cloud.respond_ok c s.
Proof.
  intros Hf. cbn [respond Cloud.world]. unfold Cloud.cloud_respond.
  by rewrite Hf, lookup_empty.
Qed.

(** On the reference cloud: a bucket that holds no more than one page of
    keys is emptied and deleted by the step. *)
Lemma bucket_within_one_page_deleted (s : Cloud.cloud) (keys : list string) :
  Cloud.faults (Cloud.given s) = ∅ ->
  Cloud.bucket s = Some keys ->
  length keys <= Cloud.max_keys ->
  Cloud.bucket (fin (Cleanup.cleanup_s3_bucket (W:=Cloud.world) s)) = None.
Proof.
  intros Hf Hb Hlen.
  change (wps (Cleanup.cleanup_s3_bucket (W:=Cloud.world)) s
            (fun _ s' _ => Cloud.bucket s' = None)).
  unfold Cleanup.cleanup_s3_bucket.
  repeat wps_step.
  rewrite cloud_respond_ok by done. cbn [Cloud.respond_ok fst snd of_answer].
  repeat wps_step.
  rewrite cloud_respond_ok by done. cbn [Cloud.respond_ok]. rewrite Hb, String.eqb_refl.
  cbn [fst snd of_answer].
  destruct keys as [|k keys].
  - repeat wps_step.
    rewrite cloud_respond_ok by done. cbn [Cloud.respond_ok]. rewrite Hb, String.eqb_refl.
    cbn [fst snd of_answer]. repeat wps_step. done.
  - rewrite take_ge by done.
    repeat wps_step.
    rewrite cloud_respond_ok by done. cbn [Cloud.respond_ok]. rewrite Hb, String.eqb_refl.
    cbn [fst snd of_answer]. repeat wps_step.
    rewrite cloud_respond_ok by done. cbn [Cloud.respond_ok Cloud.set_bucket Cloud.bucket Cloud.given].
    rewrite String.eqb_refl, remove_keys_self.
    cbn [fst snd of_answer]. repeat wps_step. done.
Qed.

(** On the reference cloud: 1000 records, the content [load_data.py] gives
    the bucket, are one page. *)
Example bucket_of_one_load_deleted :
  Cloud.bucket (fin (Cleanup.cleanup_s3_bucket (W:=Cloud.world)
                       (Scenarios.deployed (Scenarios.scene Scenarios.listed "y" 0 ∅) 1000)))
  = None.
Proof. apply (bucket_within_one_page_deleted _ (Scenarios.records 1000)); [done..|]. vm_compute. lia. Qed.

(** C9.  The bucket step on a bucket that holds 1001 objects, one more than
    a page of [list_objects_v2]: the step lists once, deletes the 1000 keys
    of that answer, and asks for the bucket's deletion, which the provider
    refuses; the step reports the error and returns; the bucket and its
    last object are still there.  (The function's docstring is "Delete S3
    bucket and all objects".) *)
Theorem bucket_beyond_one_page_survives :
  let b := "ins-records-123456789012-us-east-1" in
  let s := Scenarios.deployed (Scenarios.scene Scenarios.listed "y" 0 ∅) 1001 in
  let r := Cleanup.cleanup_s3_bucket (W:=Cloud.world) s in
  Cloud.bucket s = Some (Scenarios.records 1001) /\
  res r = Ret tt /\
  effects (evs r) =
    [ECall S3BucketName (inr b);
     ECall (ListObjectsV2 b) (inr (Some (Scenarios.records 1000)));
     ECall (DeleteObjects b (Scenarios.records 1000)) (inr tt);
     ECall (DeleteBucket b) (inl (ClientError S3 "BucketNotEmpty"))] /\
  printed "⚠️ Error cleaning up S3: An error occurred (BucketNotEmpty)" (evs r) /\
  Cloud.bucket (fin r) = Some [Scenarios.record_key 1001].
Proof. vm_compute. done. Qed.

(* ================================================================== *)
(** ** Deploy: provisioning of the authentication resources *)

(** C7, as the code has it.  [setup_cognito_user_pool], in any world: its
    calls are the first [k] of the five steps (create pool, create domain,
    create resource server, create client, store secret), in this order, for
    some [k] from 1 to 5; every call but the last returned; when the last
    raised, the function returns [None] and no further step was made; when
    it returned, all five steps were made and the bundle is returned.  No
    call deletes anything: what the completed steps created stays. *)
Theorem provisioning_aborts_without_rollback (W : World)
    (config : EnterpriseConfig) (region : string) (s : @PS W) :
  let r := Deploy.setup_cognito_user_pool config region s in
  exists k completed last,
    1 <= k <= 5 /\
    effects (evs r) = completed ++ [last] /\
    provisioning_step <$> effects (evs r) = Some <$> seq 1 k /\
    forallb returned completed = true /\
    forallb (fun e => negb (is_pool_deletion e)) (evs r) = true /\
    match raised last with
    | Some _ => res r = Ret None
    | None => k = 5 /\ exists bundle, res r = Ret (Some bundle)
    end.
Proof.
  intros r. subst r. revert s.
  change (wp (Deploy.setup_cognito_user_pool (W:=W) config region) (fun o tr =>
    exists k completed last,
      1 <= k <= 5 /\
      effects tr = completed ++ [last] /\
      provisioning_step <$> effects tr = Some <$> seq 1 k /\
      forallb returned completed = true /\
      forallb (fun e => negb (is_pool_deletion e)) tr = true /\
      match raised last with
      | Some _ => o = Ret None
      | None => k = 5 /\ exists bundle, o = Ret (Some bundle)
      end)).
  unfold Deploy.setup_cognito_user_pool. wp_go.
  all: match goal with
       | |- context [effects ?tr] =>
           let l := eval cbn in (effects tr) in
           exists (length l), (removelast l), (List.last l (EPrint ""))
       end.
  all: cbn; repeat split; eauto; lia.
Qed.

(** C7 as the claim states it fails: on the reference cloud, in an account
    at its limit of Cognito domains, provisioning returns no bundle and the
    pool it has created stays registered. *)
Lemma provisioning_not_atomic :
  ~ provisioning_atomic Scenarios.cfg "us-east-1" Scenarios.domain_limit.
Proof.
  unfold provisioning_atomic. intros H.
  assert (Hnone : res (Deploy.setup_cognito_user_pool (W:=Cloud.world) Scenarios.cfg
                         "us-east-1" Scenarios.domain_limit) = Ret None)
    by (vm_compute; reflexivity).
  specialize (H Hnone).
  assert (Hpool : Cloud.pools (fin (Deploy.setup_cognito_user_pool (W:=Cloud.world)
                                      Scenarios.cfg "us-east-1" Scenarios.domain_limit))
                  !! "pool-0" = Some []) by (vm_compute; reflexivity).
  rewrite H in Hpool. vm_compute in Hpool. discriminate.
Qed.

(* ================================================================== *)
(** ** Deploy: what each part may do *)

Lemma forallb_weaken (P Q : event -> bool) tr :
  (forall e, P e = true -> Q e = true) ->
  forallb P tr = true -> forallb Q tr = true.
Proof. rewrite !forallb_forall. auto. Qed.

Lemma input_answers_app tr1 tr2 :
  input_answers (tr1 ++ tr2) = input_answers tr1 ++ input_answers tr2.
Proof.
  induction tr1 as [|e tr1 IH]; [done|].
  destruct e as [| |X c [x|a]]; cbn [app input_answers]; try done;
    destruct c; cbn; by rewrite ?IH.
Qed.

Lemma input_answers_none tr :
  forallb (fun e => negb (is_input e)) tr = true -> input_answers tr = [].
Proof.
  induction tr as [|e tr IH]; [done|]. cbn [forallb].
  intros [He Htr]%andb_true_iff.
  destruct e as [| |X c [x|a]]; cbn [input_answers]; auto;
    destruct c; cbn in He |- *; auto; done.
Qed.

(** [kinds]: one kind of events is included in another. *)
Ltac kinds :=
  let e := fresh "e" in
  let c := fresh "c" in
  intros e; destruct e as [| |? c ?]; [done|done|destruct c; done].

Ltac only_from lem :=
  eapply only_weaken; [| |apply lem]; [kinds|by intros ?].

Section DeployFacts.
Context {W : World}.
Variable config : EnterpriseConfig.
Variable region : string.

Lemma only_find_runtime name response found :
  only detection_event no_exit (Deploy.find_runtime (W:=W) name response found).
Proof.
  revert found. induction response as [items|items rest IH|items e]; intros found;
    cbn [Deploy.find_runtime]; only_go.
Qed.

Lemma only_check_existing name :
  only detection_event no_exit (Deploy.check_existing_mcp_server (W:=W) region name).
Proof.
  unfold Deploy.check_existing_mcp_server. only_go. apply only_find_runtime.
Qed.

Lemma only_setup :
  only setup_event no_exit (Deploy.setup_cognito_user_pool (W:=W) config region).
Proof. unfold Deploy.setup_cognito_user_pool. only_go. Qed.

Lemma only_add_permissions role_name :
  only binder_event no_exit (Deploy.add_permissions (W:=W) config region role_name).
Proof. unfold Deploy.add_permissions. only_go. Qed.

Lemma only_pre_launch_loop fuel attempt verified :
  only pre_check_event no_exit (Deploy.pre_launch_loop (W:=W) region fuel attempt verified).
Proof.
  revert attempt verified. induction fuel as [|fuel IH]; intros attempt verified;
    cbn [Deploy.pre_launch_loop]; only_go.
Qed.

Lemma only_pre_launch_check :
  only pre_check_event no_exit (Deploy.pre_launch_check (W:=W) region).
Proof. unfold Deploy.pre_launch_check. only_go. apply only_pre_launch_loop. Qed.

Lemma only_post_launch_loop id fuel attempt verified :
  only verify_event no_exit (Deploy.post_launch_loop (W:=W) id fuel attempt verified).
Proof.
  revert attempt verified. induction fuel as [|fuel IH]; intros attempt verified;
    cbn [Deploy.post_launch_loop]; only_go.
Qed.

Lemma only_verify_new_role id :
  only verify_event no_exit (Deploy.verify_new_role (W:=W) id).
Proof. unfold Deploy.verify_new_role. only_go. apply only_post_launch_loop. Qed.

Lemma only_create_doc endpoint cognito :
  only launch_event any_exit
       (Deploy.create_quicksuite_integration_doc (W:=W) endpoint cognito).
Proof. unfold Deploy.create_quicksuite_integration_doc, Deploy.getitem. only_go. Qed.

Lemma only_launch_and_bind existing cognito :
  only launch_event any_exit (Deploy.launch_and_bind (W:=W) config region existing cognito).
Proof.
  unfold Deploy.launch_and_bind, Deploy.getitem. only_go.
  all: first [ only_from only_pre_launch_check
             | only_from only_verify_new_role
             | only_from only_add_permissions
             | apply only_create_doc ].
Qed.

End DeployFacts.

(* ================================================================== *)
(** ** Deploy: declining the update *)

Lemma In_input_answers prompt answer tr :
  In (ECall (Input prompt) (inr answer)) tr -> In answer (input_answers tr).
Proof.
  induction tr as [|e tr IH]; [done|]. intros [->|Hin].
  - by left.
  - specialize (IH Hin).
    destruct e as [| |X c [x|a]]; cbn [input_answers]; auto;
      destruct c; cbn; auto.
Qed.

Lemma detection_no_input tr :
  forallb detection_event tr = true -> input_answers tr = [].
Proof.
  intros H. apply input_answers_none. revert H. apply forallb_weaken. kinds.
Qed.

Lemma detection_no_mutation tr :
  forallb detection_event tr = true ->
  forallb (fun e => negb (cloud_mutation e)) tr = true.
Proof. apply forallb_weaken. kinds. Qed.

Lemma launch_no_input tr :
  forallb launch_event tr = true -> input_answers tr = [].
Proof.
  intros H. apply input_answers_none. revert H. apply forallb_weaken.
  intros e. unfold launch_event. by intros [? _]%andb_true_iff.
Qed.

Lemma setup_no_input tr :
  forallb setup_event tr = true -> input_answers tr = [].
Proof.
  intros H. apply input_answers_none. revert H. apply forallb_weaken. kinds.
Qed.

Lemma prints_no_input ls : input_answers (EPrint <$> ls) = [].
Proof. induction ls as [|l ls IH]; [done|]. by rewrite fmap_cons. Qed.

Lemma declined_ok_silent o tr : input_answers tr = [] -> declined_ok o tr.
Proof. intros H answer Hin. rewrite H in Hin. destruct Hin. Qed.

Lemma printed_app_r line A tr : printed line tr -> printed line (A ++ tr).
Proof. unfold printed. rewrite existsb_app. intros ->. apply orb_true_r. Qed.

Lemma printed_app_l line A tr : printed line A -> printed line (A ++ tr).
Proof. unfold printed. rewrite existsb_app. by intros ->. Qed.

Lemma declined_ok_app A o tr :
  input_answers A = [] ->
  forallb (fun e => negb (cloud_mutation e)) A = true ->
  declined_ok o tr -> declined_ok o (A ++ tr).
Proof.
  intros HA HAq H answer Hin Hno. rewrite input_answers_app, HA in Hin.
  destruct (H answer Hin Hno) as (-> & Hq & Hp).
  split; [done|]. split; [by rewrite forallb_app, HAq, Hq|].
  by apply printed_app_r.
Qed.

Lemma declined_ok_affirmed o answer tr :
  PyStr.in_list (PyStr.normalise answer) ["y"; "yes"] = true ->
  input_answers tr = [answer] -> declined_ok o tr.
Proof.
  intros Hyes Htr answer' Hin Hno. rewrite Htr in Hin.
  destruct Hin as [<-|[]]. congruence.
Qed.

Section Cancel.
Context {W : World}.
Variable config : EnterpriseConfig.
Variable region : string.

Lemma mode_and_launch_declined existing :
  wp (bind (match existing with
            | Some ec =>
                bind (Deploy.confirm_update (W:=W) config region ec)
                     (fun _ => ret (Deploy.cognito_config ec))
            | None => Deploy.new_deployment config region
            end)
           (fun cognito => Deploy.launch_and_bind config region existing cognito))
     declined_ok.
Proof.
  destruct existing as [ec|].
  - unfold Deploy.confirm_update. wp_go.
    all: try (apply declined_ok_silent; by rewrite ?input_answers_app, ?prints_no_input).
    1,2: intros answer Hin Hno; split; [done|]; split;
      [rewrite !forallb_app, forallb_prints by done; done
      |apply printed_intro; rewrite !in_app_iff; cbn; auto 10].
    eapply wp_mono; [apply only_launch_and_bind|]. intros o' tr' [Hl _].
    apply (declined_ok_affirmed _ a); [by apply negb_false_iff|].
    by rewrite !input_answers_app, !prints_no_input, (launch_no_input _ Hl).
  - unfold Deploy.new_deployment. do 4 wp_step.
    eapply wp_mono; [apply only_setup|]. intros o tr [Hs _].
    destruct o as [[bundle|]|e|c]; wp_go.
    2-4: apply declined_ok_silent;
      by rewrite ?input_answers_app, ?prints_no_input, ?(setup_no_input _ Hs).
    eapply wp_mono; [apply only_launch_and_bind|]. intros o' tr' [Hl _].
    apply declined_ok_silent.
    by rewrite ?input_answers_app, ?prints_no_input, ?(setup_no_input _ Hs),
      ?(launch_no_input _ Hl).
Qed.

Lemma deploy_declined :
  wp (Deploy.deploy_mcp_server (W:=W) config region) declined_ok.
Proof.
  unfold Deploy.deploy_mcp_server. wp_go.
  all: try (apply declined_ok_silent; by rewrite ?input_answers_app, ?prints_no_input).
  all: eapply wp_mono; [apply only_check_existing|]; intros o tr [Hd _].
  all: destruct o as [existing|e'|c].
  all: try (apply declined_ok_silent;
            by rewrite ?input_answers_app, ?prints_no_input, ?(detection_no_input _ Hd)).
  all: eapply wp_mono; [apply mode_and_launch_declined|]; intros o' tr' H.
  all: rewrite <- ?app_assoc.
  all: repeat (apply declined_ok_app;
               [by rewrite ?prints_no_input, ?(detection_no_input _ Hd)
               |by rewrite ?forallb_prints, ?(detection_no_mutation _ Hd)|]).
  all: done.
Qed.

Lemma main_declined :
  wp (Deploy.main (W:=W) config region) declined_ok.
Proof.
  unfold Deploy.main. apply wp_try_except.
  eapply wp_mono; [apply deploy_declined|]. intros o tr H.
  destruct o as [[]|e|c]; [done| |done].
  wp_go. intros answer Hin Hno.
  rewrite app_nil_r, input_answers_app, prints_no_input, app_nil_r in Hin.
  by destruct (H answer Hin Hno) as [? _].
Qed.

End Cancel.

(** C5.  [deploy_mcp.py] run as a script, in any world: when the operator
    answers the update prompt (asked only after an existing runtime was
    detected) with anything but [y] or [yes] (up to surrounding blanks and
    letter case), the run ends in [sys.exit(2)] - its exit status is 2,
    neither the 0 of a success nor the 1 of a failure -, it has printed the
    cancellation line, and none of its calls changes the cloud. *)
Theorem update_declined_exits (W : World) (config : EnterpriseConfig)
    (region : string) (s : @PS W) (answer : string) :
  let r := Deploy.main config region s in
  In (ECall (Input Deploy.update_prompt) (inr answer)) (evs r) ->
  PyStr.in_list (PyStr.normalise answer) ["y"; "yes"] = false ->
  res r = SysExit 2 /\
  exit_status (res r) = 2 /\
  forallb (fun e => negb (cloud_mutation e)) (evs r) = true /\
  printed Deploy.cancelled_line (evs r).
Proof.
  intros r Hin Hno.
  destruct (main_declined config region s answer (In_input_answers _ _ _ Hin) Hno)
    as (Hres & Hq & Hp).
  fold r in Hres. by rewrite Hres.
Qed.

(** C5 on scenario B: the runtime exists and the operator declines. *)
Lemma update_declined_exits_witness :
  let r := Deploy.main (W:=Cloud.world) Scenarios.cfg "us-east-1"
             Scenarios.update_declined in
  In (ECall (Input Deploy.update_prompt) (inr " No ")) (evs r) /\
  PyStr.in_list (PyStr.normalise " No ") ["y"; "yes"] = false /\
  res r = SysExit 2 /\
  exit_status (res r) = 2 /\
  forallb (fun e => negb (cloud_mutation e)) (evs r) = true /\
  printed Deploy.cancelled_line (evs r).
Proof.
  intros r.
  assert (Hin : In (ECall (Input Deploy.update_prompt) (inr " No ")) (evs r)).
  { vm_compute. repeat (first [by left|right]). }
  assert (Hno : PyStr.in_list (PyStr.normalise " No ") ["y"; "yes"] = false)
    by (vm_compute; reflexivity).
  split; [exact Hin|]. split; [exact Hno|].
  exact (update_declined_exits Cloud.world Scenarios.cfg "us-east-1"
           Scenarios.update_declined " No " Hin Hno).
Defined.

(** An answer wrapped in blanks outside ASCII - a no-break space before, an
    ideographic space after - is the answer without them. *)
Example answer_in_unicode_blanks :
  PyStr.normalise (PyStr.bytes [194; 160] +:+ "Yes" +:+ PyStr.bytes [227; 128; 128])
  = "yes".
Proof. vm_compute. reflexivity. Qed.

(* ================================================================== *)
(** ** Deploy: an update reuses the credentials *)



Lemma listing_no_get_runtime tr :
  forallb listing_event tr = true ->
  forallb (fun e => negb (is_get_runtime e)) tr = true.
Proof. apply forallb_weaken. kinds. Qed.

Lemma prints_no_get_runtime ls :
  forallb (fun e => negb (is_get_runtime e)) (EPrint <$> ls) = true.
Proof. by apply forallb_prints. Qed.



(** A trace made of printed lines, single events and parts of known kind. *)
Ltac pieces :=
  rewrite ?forallb_app; repeat (apply andb_true_intro; split);
  first [ done
        | by apply forallb_prints
        | match goal with
          | H : forallb _ ?t = true |- forallb _ ?t = true =>
              by (eapply forallb_weaken; [|exact H]; kinds)
          end ].



Section Update.
Context {W : World}.
Variable config : EnterpriseConfig.
Variable region : string.

Lemma only_find_runtime_listing name response found :
  only listing_event no_exit (Deploy.find_runtime (W:=W) name response found).
Proof.
  revert found. induction response as [items|items rest IH|items e]; intros found;
    cbn [Deploy.find_runtime]; only_go.
Qed.





Lemma launch_no_credential_write tr :
  forallb launch_event tr = true ->
  forallb (fun e => negb (credential_write e)) tr = true.
Proof.
  apply forallb_weaken. intros e. unfold launch_event.
  by intros [_ ?]%andb_true_iff.
Qed.





End Update.




(** In that run the update is affirmed and the descriptor is configured
    with the empty client identifier and the empty discovery address. *)
Example update_without_authorizer_run :
  let r := Deploy.main (W:=Cloud.world) Scenarios.cfg "us-east-1"
             Scenarios.update_without_authorizer in
  input_answers (evs r) = ["Y"] /\
  res r = Ret tt /\
  forallb (authorizer_passed "" "") (evs r) = true /\
  existsb (fun e => match e with ECall (RuntimeConfigure _) (inr _) => true | _ => false end)
          (evs r) = true.
Proof. vm_compute. done. Qed.

(** In the run of the witness the runtime is configured and launched, and
    the deployment ends normally. *)
Example update_affirmed_run :
  let r := Deploy.main (W:=Cloud.world) Scenarios.cfg "us-east-1"
             Scenarios.update_affirmed in
  res r = Ret tt /\
  existsb (fun e => match e with ECall (RuntimeConfigure _) (inr _) => true | _ => false end)
          (evs r) = true /\
  existsb (fun e => match e with ECall (RuntimeLaunch _) (inr _) => true | _ => false end)
          (evs r) = true.
Proof. vm_compute. done. Qed.

(* ================================================================== *)
(** ** The lookup of the runtime in the two scripts *)

Lemma details_answer_app_none A B :
  forallb (fun e => negb (is_get_runtime e)) A = true ->
  details_answer (A ++ B) = details_answer B.
Proof.
  induction A as [|e A IH]; [done|]. cbn [forallb app].
  intros [He HA]%andb_true_iff.
  destruct e as [| |X c r]; cbn [details_answer]; auto.
  destruct c; cbn in He |- *; auto. done.
Qed.

Lemma details_answer_none A :
  forallb (fun e => negb (is_get_runtime e)) A = true -> details_answer A = None.
Proof.
  intros H. rewrite <- (app_nil_r A). by rewrite details_answer_app_none.
Qed.

Lemma effects_prints ls : effects (EPrint <$> ls) = [].
Proof. induction ls as [|l ls IH]; [done|]. by rewrite fmap_cons. Qed.

Lemma effects_listing tr :
  forallb listing_event tr = true -> forallb listing_event (effects tr) = true.
Proof.
  unfold effects. rewrite !forallb_forall. intros H e [He _]%filter_In. auto.
Qed.

Lemma bind_assoc {W : World} {A B C} (m : M (W:=W) A) (k : A -> M B) (k' : B -> M C) s :
  bind (bind m k) k' s = bind m (fun a => bind (k a) k') s.
Proof.
  unfold bind. destruct (m s) as [[a|e|c] s1 tr]; cbn; [|done..].
  destruct (k a s1) as [[b|e|c] s2 tr2]; cbn; [|done..].
  by rewrite app_assoc.
Qed.

Lemma bind_run {W : World} {A B} (m : M (W:=W) A) (k : A -> M B) s a s1 tr :
  m s = Run (Ret a) s1 tr ->
  bind m k s = Run (res (k a s1)) (fin (k a s1)) (tr ++ evs (k a s1)).
Proof. intros H. unfold bind. by rewrite H. Qed.

(** The answer of the details call in a trace given by its parts. *)
Ltac answer_of H :=
  rewrite <- ?app_assoc in H;
  repeat (rewrite details_answer_app_none in H
            by (first [ apply prints_no_get_runtime
                      | by apply listing_no_get_runtime
                      | done ]));
  cbn [app details_answer] in H.

Section Lookup.
Context {W : World}.
Variable config : EnterpriseConfig.
Variable region : string.

(** [cleanup.py]: a listed entry of the searched name whose details are
    not found is skipped, and the search goes on with the entries and the
    pages that follow. *)
Lemma cleanup_lookup_skips_missing runtime (s s' : @PS W) p items :
  agentRuntimeName runtime = mcp_server_name config ->
  @respond W _ (GetAgentRuntime (agentRuntimeId runtime)) s
    = (inl (ResourceNotFound AgentCore), s') ->
  let r := Cleanup.search_pages config (with_items p (runtime :: items)) s in
  let r' := Cleanup.search_pages config (with_items p items) s' in
  res r = res r' /\ fin r = fin r' /\
  evs r = ECall (GetAgentRuntime (agentRuntimeId runtime))
                (inl (ResourceNotFound AgentCore)) :: evs r'.
Proof.
  intros Hname Hresp.
  assert (Hentry : Cleanup.details_of_entry config runtime s
                   = Run (Ret None) s' [ECall (GetAgentRuntime (agentRuntimeId runtime))
                                          (inl (ResourceNotFound AgentCore))]).
  { unfold Cleanup.details_of_entry. rewrite Hname, String.eqb_refl.
    unfold bind, try_except, call. rewrite Hresp. reflexivity. }
  destruct p as [old|old rest|old e]; cbn [with_items Cleanup.search_pages page_items for_return].
  all: by rewrite bind_assoc, (bind_run _ _ _ _ _ _ Hentry).
Qed.

(** [deploy_mcp.py]: the details are fetched once, after the search; when
    that call raises, the lookup reports an error and finds nothing. *)
Lemma check_existing_failed_details name :
  wp (Deploy.check_existing_mcp_server (W:=W) region name) (fun o tr =>
    forall e,
      details_answer tr = Some (inl e) ->
      o = Ret None /\
      printed detection_error_line tr /\
      exists id listing,
        effects tr = listing ++ [ECall (GetAgentRuntime id) (inl e)] /\
        forallb listing_event listing = true).
Proof.
  unfold Deploy.check_existing_mcp_server. do 5 wp_step.
  { intros e0 He0. answer_of He0. done. }
  wp_step. eapply wp_mono; [apply only_find_runtime_listing|].
  intros o tr [Hl Hex]. destruct o as [[runtime|]|e|c]; wp_go.
  all: try by specialize (Hex c eq_refl).
  all: intros e0 He0; answer_of He0; try done.
  injection He0 as ->. split; [done|]. split.
  - apply printed_intro. rewrite !in_app_iff. cbn. auto 10.
  - exists (agentRuntimeId runtime), (ECall ListAgentRuntimes (inr a) :: effects tr).
    split; [|by cbn; rewrite effects_listing].
    rewrite !effects_app, !effects_prints. cbn. by rewrite app_nil_r.
Qed.

End Lookup.

(** C6, the lookup of [deploy_mcp.py].  [check_existing_mcp_server], in any
    world: it fetches the details once, after its search of the listing has
    stopped at the first entry of the searched name; when that call raises
    - the provider's not-found error as any other -, the lookup prints the
    error line and returns [None]: the failed call is its last call, no
    page is listed after it and no other entry is tried. *)
Theorem deploy_lookup_ends_at_missing_details (W : World) (region name : string)
    (s : @PS W) (e : exn) :
  let r := Deploy.check_existing_mcp_server region name s in
  details_answer (evs r) = Some (inl e) ->
  res r = Ret None /\
  printed detection_error_line (evs r) /\
  exists id listing,
    effects (evs r) = listing ++ [ECall (GetAgentRuntime id) (inl e)] /\
    forallb listing_event listing = true.
Proof.
  intros r He. exact (check_existing_failed_details region name s e He).
Qed.

(** C6 on a listing with a stale entry: the details of the first entry of
    the name are not found. *)
Lemma deploy_lookup_ends_at_missing_details_witness :
  let r := Deploy.check_existing_mcp_server (W:=Cloud.world) "us-east-1" "ins-mcp"
             Scenarios.stale_listing in
  details_answer (evs r) = Some (inl (ResourceNotFound AgentCore)) /\
  res r = Ret None /\
  printed detection_error_line (evs r) /\
  exists id listing,
    effects (evs r)
      = listing ++ [ECall (GetAgentRuntime id) (inl (ResourceNotFound AgentCore))] /\
    forallb listing_event listing = true.
Proof.
  intros r.
  assert (He : details_answer (evs r) = Some (inl (ResourceNotFound AgentCore)))
    by (vm_compute; reflexivity).
  split; [exact He|].
  exact (deploy_lookup_ends_at_missing_details Cloud.world "us-east-1" "ins-mcp"
           Scenarios.stale_listing (ResourceNotFound AgentCore) He).
Defined.

(** The two lookups on that listing.  The teardown skips the stale entry,
    lists the next page and finds the runtime; the deployment stops at the
    stale entry and finds nothing, although the runtime is listed. *)
Example lookups_on_stale_listing :
  let s := Scenarios.stale_listing in
  let page2 := PageLast [Scenarios.runtime] in
  let page1 := PageNext [Scenarios.stale_runtime] page2 in
  let missing :=
    ECall (GetAgentRuntime Scenarios.stale_id) (inl (ResourceNotFound AgentCore)) in
  let c := Cleanup.get_mcp_server_details (W:=Cloud.world) Scenarios.cfg s in
  let d := Deploy.check_existing_mcp_server (W:=Cloud.world) "us-east-1" "ins-mcp" s in
  res c = Ret (Some Scenarios.found) /\
  effects (evs c) =
    [ECall ListAgentRuntimes (inr page1); missing;
     ECall ListAgentRuntimes (inr page2);
     ECall (GetAgentRuntime Scenarios.runtime_id) (inr Scenarios.details)] /\
  res d = Ret None /\
  effects (evs d) = [ECall ListAgentRuntimes (inr page1); missing].
Proof. vm_compute. done. Qed.

(** The deployment then takes the runtime for absent: it provisions a second
    pool next to the one in use, and fails when it stores the secret. *)
Example deploy_on_stale_listing :
  let r := Deploy.main (W:=Cloud.world) Scenarios.cfg "us-east-1"
             Scenarios.stale_listing in
  res r = SysExit 1 /\
  input_answers (evs r) = [] /\
  dom (Cloud.pools (fin r)) = {[ "pool-0"; "pool-1" ]}.
Proof. vm_compute. done. Qed.

(* ================================================================== *)
(** ** Deploy: which errors reach the top level *)

Lemma fatal_failures_app A B :
  fatal_failures (A ++ B) = fatal_failures A ++ fatal_failures B.
Proof. apply omap_app. Qed.

Lemma fatal_failures_prints ls : fatal_failures (EPrint <$> ls) = [].
Proof. induction ls as [|l ls IH]; [done|]. by rewrite fmap_cons. Qed.

Lemma fatal_failures_local (P : event -> bool) tr :
  forallb P tr = true ->
  (forall e, P e = true -> fatal_failure e = None) ->
  fatal_failures tr = [].
Proof.
  intros Htr HP. induction tr as [|e tr IH]; [done|].
  cbn [forallb] in Htr. apply andb_true_iff in Htr as [He Htr].
  unfold fatal_failures. cbn [omap list_omap]. rewrite (HP e He). by apply IH.
Qed.

Lemma propagates_app A o tr :
  fatal_failures A = [] -> propagates o tr -> propagates o (A ++ tr).
Proof.
  intros HA. unfold propagates. by rewrite fatal_failures_app, HA.
Qed.

Ltac local_kinds :=
  let e := fresh "e" in
  let c := fresh "c" in
  intros e; destruct e as [| |? c [?|?]]; try done; destruct c; done.

(** The top-level failures of a trace given by its parts. *)
Ltac top_failures :=
  unfold propagates; rewrite ?fatal_failures_app, ?fatal_failures_prints;
  repeat match goal with
         | H : forallb _ ?t = true |- context [fatal_failures ?t] =>
             rewrite (fatal_failures_local _ t H) by local_kinds
         end;
  cbn; auto.

Section Errors.
Context {W : World}.
Variable config : EnterpriseConfig.
Variable region : string.

Lemma launch_propagates existing cognito :
  wp (Deploy.launch_and_bind (W:=W) config region existing cognito) propagates.
Proof.
  destruct existing as [ec|];
    cbv beta delta [Deploy.launch_and_bind];
    [change (bool_decide (is_Some (Some ec))) with true
    |change (bool_decide (is_Some (@None Deploy.existing_config))) with false];
    unfold Deploy.getitem, Deploy.create_quicksuite_integration_doc; wp_go.
  all: repeat (first [ wp_only (only_pre_launch_check (W:=W) region)
                     | wp_only (only_verify_new_role (W:=W))
                     | wp_only (only_add_permissions config region) ];
               unfold Deploy.getitem; wp_go).
  all: by top_failures.
Qed.

Lemma deploy_propagates :
  wp (Deploy.deploy_mcp_server (W:=W) config region) propagates.
Proof.
  unfold Deploy.deploy_mcp_server. wp_go.
  all: try by top_failures.
  all: wp_only (only_check_existing (W:=W) region).
  all: try by top_failures.
  all: unfold Deploy.confirm_update, Deploy.new_deployment; wp_go.
  all: try by top_failures.
  all: try (wp_only (only_setup (W:=W) config region); wp_go).
  all: try by top_failures.
  all: eapply wp_mono; [apply launch_propagates|]; intros o' tr' H.
  all: rewrite <- ?app_assoc.
  all: repeat (apply propagates_app; [by top_failures|]).
  all: done.
Qed.

(** The three ends of the script, and what the top level reports. *)
Lemma main_reports :
  wp (Deploy.main (W:=W) config region) (fun o tr =>
    (o = Ret tt \/ o = SysExit 1 \/ o = SysExit 2) /\
    (o = SysExit 1 -> exists x, reported x tr) /\
    (forall x, In x (fatal_failures tr) -> o = SysExit 1 /\ reported x tr)).
Proof.
  unfold Deploy.main. apply wp_try_except.
  eapply wp_mono; [apply deploy_propagates|]. intros o tr H.
  destruct o as [[]|e|c]; cbn [propagates] in H.
  - rewrite H. split; [auto|]. split; [done|]. by intros x [].
  - wp_go. split; [auto|]. split.
    + intros _. exists e. eexists. by rewrite app_nil_r.
    + intros x. rewrite app_nil_r, fatal_failures_app, fatal_failures_prints, app_nil_r.
      destruct H as [->| ->]; [by intros []|]. intros [<-|[]].
      split; [done|]. eexists. reflexivity.
  - destruct H as [-> H]. rewrite H. split; [auto|]. split; [done|]. by intros x [].
Qed.

End Errors.

(* ================================================================== *)
(** ** Deploy: every error is caught by a handler or ends the run *)

Lemma unhandled_app A B :
  unhandled (A ++ B) = match B with [] => unhandled A | _ => unhandled B end.
Proof.
  unfold unhandled. rewrite last_app. destruct B as [|e B]; [done|].
  by destruct (last_is_Some (e :: B)) as [_ [y ->]].
Qed.

Lemma handled_app A B : settled A -> handled B -> handled (A ++ B).
Proof.
  intros [HA Hp] HB. induction A as [|e A IH]; [done|].
  destruct HA as [He HA]. cbn [app handled]. split.
  - destruct A as [|e' A]; [|exact He].
    destruct e as [| |X c [x|a]]; try done.
  - apply IH; [exact HA|]. destruct A as [|e' A]; [done|]. exact Hp.
Qed.

Lemma settled_app A B : settled A -> settled B -> settled (A ++ B).
Proof.
  intros HA [HB Hp]. split; [by apply handled_app|].
  rewrite unhandled_app. destruct B; [apply HA|exact Hp].
Qed.

Lemma guarded_app {T} A (o : outcome T) B : settled A -> guarded o B -> guarded o (A ++ B).
Proof.
  intros HA [HB Ho]. split; [by apply handled_app|].
  rewrite unhandled_app. destruct B as [|e B]; [|exact Ho].
  destruct HA as [_ ->]. exact Ho.
Qed.

Lemma settled_nil : settled [].
Proof. done. Qed.

Lemma settled_returned tr : forallb returned tr = true -> settled tr.
Proof.
  intros H. induction tr as [|e tr IH]; [done|].
  cbn [forallb] in H. apply andb_true_iff in H as [He H].
  destruct (IH H) as [Hh Hp]. split.
  - split; [|exact Hh]. by destruct e as [| |X c [x|a]].
  - destruct tr as [|e' tr]; [|exact Hp].
    by destruct e as [| |X c [x|a]].
Qed.

Lemma settled_prints ls : settled (EPrint <$> ls).
Proof. apply settled_returned. by induction ls. Qed.

Lemma guarded_settled {T} (o : outcome T) tr :
  settled tr -> match o with Raise _ => False | _ => True end -> guarded o tr.
Proof. intros [Hh Hp] Ho. split; [exact Hh|]. by destruct o. Qed.

Lemma settled_guarded {T} (o : outcome T) tr :
  guarded o tr -> match o with Raise _ => False | _ => True end -> settled tr.
Proof. intros [Hh Hp] Ho. split; [exact Hh|]. by destruct o. Qed.

(** A call that raised, then the line of its handler. *)
Lemma guarded_caught {T X} (c : api X) x line (o : outcome T) B :
  In line (handler_lines c x) ->
  guarded o ([EPrint line] ++ B) ->
  guarded o ([ECall c (inl x)] ++ [EPrint line] ++ B).
Proof. intros Hl [Hh Ho]. split; [|exact Ho]. by split. Qed.

(** A call that raised, and nothing after it. *)
Lemma guarded_last {T X} (c : api X) x :
  guarded (Raise x : outcome T) ([ECall c (inl x)] ++ []).
Proof. done. Qed.

Lemma guarded_own {T} x : In x own_errors -> guarded (Raise x : outcome T) [].
Proof. done. Qed.

Lemma guarded_end {T} (o : outcome T) :
  match o with Raise _ => False | _ => True end -> guarded o [].
Proof. by destruct o. Qed.

Lemma failures_app A B : failures (A ++ B) = failures A ++ failures B.
Proof. apply omap_app. Qed.

Lemma failures_returned tr : forallb returned tr = true -> failures tr = [].
Proof.
  intros H. induction tr as [|e tr IH]; [done|].
  cbn [forallb] in H. apply andb_true_iff in H as [He H].
  unfold failures. cbn [omap list_omap]. unfold returned in He.
  destruct (raised e); [done|]. by apply IH.
Qed.

Lemma failures_prints ls : failures (EPrint <$> ls) = [].
Proof. apply failures_returned. by induction ls. Qed.

Lemma guarded_nil_r {T} (o : outcome T) tr : guarded o (tr ++ []) -> guarded o tr.
Proof. by rewrite app_nil_r. Qed.

Lemma settled_print line : settled [EPrint line].
Proof. done. Qed.

Lemma settled_sleep n : settled [ESleep n].
Proof. done. Qed.

Lemma settled_answer {X} (c : api X) a : settled [ECall c (inr a)].
Proof. done. Qed.

(** The line is one of the handlers around the call. *)
Ltac line_in :=
  cbn [handler_lines];
  unfold permissions_line, cognito_line, pre_launch_line, post_launch_line;
  repeat match goal with H : is_modeled _ _ _ = _ |- _ => rewrite H end;
  cbn [In]; auto 6.

Ltac own := unfold own_errors; cbn [In]; auto 12.

(** The events of a run, one part after the other. *)
Ltac guard_step :=
  lazymatch goal with
  | |- guarded _ ((EPrint <$> _) ++ _) => apply guarded_app; [apply settled_prints|]
  | |- guarded _ ([EPrint _] ++ _) => apply guarded_app; [apply settled_print|]
  | |- guarded _ ([ESleep _] ++ _) => apply guarded_app; [apply settled_sleep|]
  | |- guarded _ ([ECall _ (inr _)] ++ _) => apply guarded_app; [apply settled_answer|]
  | |- guarded _ ([ECall _ (inl _)] ++ [EPrint _] ++ _) => apply guarded_caught; [line_in|]
  | |- guarded _ ([ECall _ (inl _)] ++ []) => apply guarded_last
  | |- guarded _ ([] ++ _) => apply guarded_app; [apply settled_nil|]
  | |- guarded _ [] => first [apply guarded_end; exact I | apply guarded_own; own]
  | H : settled ?t |- guarded _ (?t ++ _) => apply guarded_app; [exact H|]
  | H : guarded ?o ?t |- guarded ?o (?t ++ []) => rewrite app_nil_r; exact H
  | H : guarded (Raise ?x) ?t |- guarded (Raise ?x) (?t ++ []) =>
      rewrite app_nil_r; exact H
  | H : guarded (SysExit ?c) ?t |- guarded (SysExit ?c) (?t ++ []) =>
      rewrite app_nil_r; exact H
  end.

Ltac by_parts :=
  try lazymatch goal with |- settled ?t => change (guarded (Ret tt) t) end;
  apply guarded_nil_r; rewrite <- ?app_assoc; repeat guard_step.

(** A part of the run for which a lemma tells that it is guarded. *)
Ltac wp_guarded lem :=
  eapply wp_mono; [apply lem|];
  let o := fresh "o" in
  let tr := fresh "tr" in
  let Hg := fresh "Hg" in
  let Ho := fresh "Ho" in
  intros o tr [Hg Ho]; destruct o as [?a|?e|?c];
  [ apply settled_guarded in Hg; [|exact I]
  | try (exfalso; exact Ho)
  | try (exfalso; exact Ho) ]; wp_simpl.

Section Absorb.
Context {W : World}.
Variable config : EnterpriseConfig.
Variable region : string.

Lemma add_permissions_settled role_name :
  wp (Deploy.add_permissions (W:=W) config region role_name) (fun o tr =>
    o = Ret tt /\ settled tr).
Proof.
  unfold Deploy.add_permissions. wp_go.
  all: split; [done|]; by_parts.
Qed.

Lemma setup_settled :
  wp (Deploy.setup_cognito_user_pool (W:=W) config region) (fun o tr =>
    settled tr /\
    exists created, o = Ret created /\ (failures tr <> [] -> created = None)).
Proof.
  unfold Deploy.setup_cognito_user_pool. wp_go.
  all: split; [by_parts|].
  all: eexists; split; [reflexivity|]; try done.
  all: intros H; exfalso; apply H.
  all: rewrite ?failures_app, ?failures_prints; done.
Qed.

Lemma find_runtime_guard name response found :
  wp (Deploy.find_runtime (W:=W) name response found) (fun o tr =>
    (exists f, o = Ret f /\ forallb returned tr = true) \/
    (exists pre x, o = Raise x /\ forallb returned pre = true /\
                   tr = pre ++ [ECall ListAgentRuntimes (inl x)])).
Proof.
  revert found. induction response as [items|items rest IH|items e]; intros found;
    cbn [Deploy.find_runtime]; wp_go.
  all: try (left; eexists; split; [reflexivity|done]).
  - eapply wp_mono; [apply IH|]. intros o tr [(f & -> & Hr)|(pre & x & -> & Hr & ->)].
    + left. eexists. split; [reflexivity|]. done.
    + right. exists (ECall ListAgentRuntimes (inr rest) :: pre), x. done.
  - right. exists [], e. done.
Qed.

(** The detection catches every error: it prints its warning and returns
    [None]. *)
Lemma check_existing_settled name :
  wp (Deploy.check_existing_mcp_server (W:=W) region name) (fun o tr =>
    settled tr /\
    exists found,
      o = Ret found /\
      (failures tr <> [] -> found = None /\ printed detection_error_line tr)).
Proof.
  unfold Deploy.check_existing_mcp_server. wp_go.
  1: { split; [by_parts|]. eexists. split; [reflexivity|]. intros _. split; [done|].
       apply printed_intro. rewrite !in_app_iff. cbn. auto 10. }
  eapply wp_mono; [apply find_runtime_guard|].
  intros o tr [(f & -> & Hr)|(pre & x & -> & Hr & ->)];
    [pose proof (settled_returned _ Hr) as Hs; pose proof (failures_returned _ Hr) as Hf
    |pose proof (settled_returned _ Hr) as Hs]; wp_go.
  all: split; [by_parts|].
  all: eexists; split; [reflexivity|].
  all: try (intros _; split; [done|];
            apply printed_intro; rewrite !in_app_iff; cbn; by auto 10).
  all: intros H; exfalso; apply H.
  all: rewrite ?failures_app, ?failures_prints, ?Hf; done.
Qed.

Lemma pre_launch_loop_settled fuel attempt verified :
  wp (Deploy.pre_launch_loop (W:=W) region fuel attempt verified) (fun o tr =>
    settled tr /\ exists checked, o = Ret checked).
Proof.
  revert attempt verified. induction fuel as [|fuel IH]; intros attempt verified;
    cbn [Deploy.pre_launch_loop]; wp_go.
  all: try (split; [by_parts|by eexists]).
  all: eapply wp_mono; [apply IH|]; intros o tr [Hs [checked ->]].
  all: split; [by_parts|by eexists].
Qed.

Lemma post_launch_loop_settled id fuel attempt verified :
  wp (Deploy.post_launch_loop (W:=W) id fuel attempt verified) (fun o tr =>
    settled tr /\ exists checked, o = Ret checked).
Proof.
  revert attempt verified. induction fuel as [|fuel IH]; intros attempt verified;
    cbn [Deploy.post_launch_loop]; wp_go.
  all: try (split; [by_parts|by eexists]).
  all: eapply wp_mono; [apply IH|]; intros o tr [Hs [checked ->]].
  all: split; [by_parts|by eexists].
Qed.

Lemma pre_launch_check_guarded :
  wp (Deploy.pre_launch_check (W:=W) region) (fun o tr =>
    guarded o tr /\ match o with SysExit _ => False | _ => True end).
Proof.
  unfold Deploy.pre_launch_check. wp_go.
  1: by split; [by_parts|].
  eapply wp_mono; [apply pre_launch_loop_settled|]. intros o tr [Hs [checked ->]].
  wp_go. all: by split; [by_parts|].
Qed.

Lemma verify_new_role_guarded id :
  wp (Deploy.verify_new_role (W:=W) id) (fun o tr =>
    guarded o tr /\ match o with SysExit _ => False | _ => True end).
Proof.
  unfold Deploy.verify_new_role. wp_go.
  eapply wp_mono; [apply post_launch_loop_settled|]. intros o tr [Hs [checked ->]].
  wp_go. all: by split; [by_parts|].
Qed.

Lemma new_deployment_guarded :
  wp (Deploy.new_deployment (W:=W) config region) (fun o tr =>
    guarded o tr /\
    match o with
    | Ret _ => failures tr = []
    | Raise x => x = Deploy.setup_failure
    | SysExit _ => False
    end).
Proof.
  unfold Deploy.new_deployment. wp_go.
  eapply wp_mono; [apply setup_settled|]. intros o tr (Hs & created & -> & Hf).
  wp_go.
  - split; [by_parts|]. rewrite failures_app, failures_prints, app_nil_r.
    destruct (failures tr) as [|x l]; [done|]. by specialize (Hf ltac:(done)).
  - split; [by_parts|done].
Qed.

Lemma confirm_update_guarded ec :
  wp (Deploy.confirm_update (W:=W) config region ec) (fun o tr =>
    guarded o tr /\ match o with SysExit c => c = 2 | _ => True end).
Proof.
  unfold Deploy.confirm_update. wp_go.
  all: by split; [by_parts|].
Qed.

(** The check before the launch returns, unless its own
    [get_caller_identity] raised: that error leaves it as it is. *)
Lemma pre_launch_check_ends :
  wp (Deploy.pre_launch_check (W:=W) region) (fun o tr =>
    (o = Ret tt /\ settled tr) \/
    (exists x, o = Raise x /\ effects tr = [ECall GetCallerIdentity (inl x)])).
Proof.
  unfold Deploy.pre_launch_check. wp_go.
  1: { right. eexists. split; [reflexivity|]. by rewrite effects_app, effects_prints. }
  eapply wp_mono; [apply pre_launch_loop_settled|]. intros o tr [Hs [checked ->]].
  wp_go. all: left; split; [done|by_parts].
Qed.

(** The verification after the launch catches every error of its calls;
    it returns the name of the role or raises its own error. *)
Lemma verify_new_role_ends id :
  wp (Deploy.verify_new_role (W:=W) id) (fun o tr =>
    settled tr /\
    ((exists role_name, o = Ret role_name) \/ o = Raise Deploy.propagation_failure)).
Proof.
  unfold Deploy.verify_new_role. wp_go.
  eapply wp_mono; [apply post_launch_loop_settled|]. intros o tr [Hs [checked ->]].
  wp_go. all: split; [by_parts|eauto].
Qed.

Lemma add_permissions_guarded role_name :
  wp (Deploy.add_permissions (W:=W) config region role_name) (fun o tr =>
    guarded o tr /\ match o with Ret _ => True | _ => False end).
Proof.
  eapply wp_mono; [apply add_permissions_settled|]. intros o tr [-> Hs].
  split; [|done]. by apply guarded_settled.
Qed.

Lemma launch_and_bind_guarded existing cognito :
  wp (Deploy.launch_and_bind (W:=W) config region existing cognito) (fun o tr =>
    guarded o tr /\ match o with SysExit _ => False | _ => True end).
Proof.
  destruct existing as [ec|];
    cbv beta delta [Deploy.launch_and_bind];
    [change (bool_decide (is_Some (Some ec))) with true
    |change (bool_decide (is_Some (@None Deploy.existing_config))) with false];
    unfold Deploy.getitem, Deploy.create_quicksuite_integration_doc; wp_go.
  all: repeat (first [ wp_guarded pre_launch_check_guarded
                     | wp_guarded verify_new_role_guarded
                     | wp_guarded add_permissions_guarded ];
               unfold Deploy.getitem; wp_go).
  all: by split; [by_parts|].
Qed.

Lemma deploy_guarded :
  wp (Deploy.deploy_mcp_server (W:=W) config region) (fun o tr =>
    guarded o tr /\ match o with SysExit c => c = 2 | _ => True end).
Proof.
  unfold Deploy.deploy_mcp_server. wp_go.
  all: try by split; [by_parts|].
  all: eapply wp_mono; [apply check_existing_settled|];
    intros o tr (Hs & found & -> & _); destruct found as [ec|]; wp_simpl.
  all: apply wp_bind.
  1,3: apply wp_bind; eapply wp_mono; [apply confirm_update_guarded|];
    intros o1 tr1 [Hg1 Ho1]; destruct o1 as [[]|e1|c1]; wp_simpl;
    [ apply settled_guarded in Hg1; [|exact I]; wp_go
    | by split; [by_parts|]
    | by split; [by_parts|] ].
  3,4: wp_guarded new_deployment_guarded; [|by split; [by_parts|]].
  all: wp_guarded launch_and_bind_guarded.
  all: by split; [by_parts|].
Qed.

Lemma main_top_level s :
  let d := Deploy.deploy_mcp_server (W:=W) config region s in
  let r := Deploy.main config region s in
  guarded (res d) (evs d) /\ top_level (res d) (evs d) (res r) (evs r).
Proof.
  intros d r. destruct (deploy_guarded s) as [Hg Ho]. fold d in Hg, Ho.
  split; [exact Hg|]. unfold top_level.
  subst r. unfold Deploy.main, try_except. fold d.
  destruct (res d) as [[]|x|c] eqn:Hd.
  - done.
  - unfold bind, sys_exit. rewrite print_lines_run. cbn [res evs fin].
    by rewrite app_nil_r.
  - cbn in Ho. by subst c.
Qed.

End Absorb.

(** C8, as the code has it.  [deploy_mcp.py] run as a script, in any world.

    - The top level: a run of [deploy_mcp_server] that returns ends the
      script normally; one that exits does so with status 2 (update
      declined); one that raises [x] makes [__main__] print the
      troubleshooting lines with [x] and exit with status 1.
    - Every call of [deploy_mcp_server] that raises is either its last
      event, and then the function ends with the error of that call as it
      was raised, or is followed by the first line of a handler that the
      script has around a call of that kind.  The function raises no other
      error than such a one or one of its own ([own_errors]).
    - The copy of the configuration, the update prompt, the SDK's
      initialisation, [configure], [launch] and the writing of the
      integration document have no handler: their error always ends the
      script with status 1 and is the error reported.
    - The detection returns, every error caught by its handler; after an
      error it returns [None], of whatever kind the error was.
    - The attachment of the policies returns, every error caught.
    - The provisioning returns, every error caught, and [None] after an
      error; the caller then raises its own error, and no other.
    - The check before the launch returns, every error caught, unless its
      [get_caller_identity] raised, which leaves it as raised; the
      verification after the launch catches every error and returns or
      raises its own error. *)
Theorem deploy_errors_reported_or_absorbed (W : World) (config : EnterpriseConfig)
    (region : string) (s : @PS W) :
  let d := Deploy.deploy_mcp_server config region s in
  let r := Deploy.main config region s in
  top_level (res d) (evs d) (res r) (evs r) /\
  guarded (res d) (evs d) /\
  (forall x, In x (fatal_failures (evs r)) -> res r = SysExit 1 /\ reported x (evs r)) /\
  (forall name s',
     let r' := Deploy.check_existing_mcp_server region name s' in
     settled (evs r') /\
     exists found,
       res r' = Ret found /\
       (failures (evs r') <> [] ->
        found = None /\ printed detection_error_line (evs r'))) /\
  (forall role_name s',
     let r' := Deploy.add_permissions config region role_name s' in
     res r' = Ret tt /\ settled (evs r')) /\
  (forall s',
     let r' := Deploy.setup_cognito_user_pool config region s' in
     settled (evs r') /\
     exists created, res r' = Ret created /\ (failures (evs r') <> [] -> created = None)) /\
  (forall s',
     match res (Deploy.new_deployment config region s') with
     | Ret _ => failures (evs (Deploy.new_deployment config region s')) = []
     | Raise x => x = Deploy.setup_failure
     | SysExit _ => False
     end) /\
  (forall s',
     let r' := Deploy.pre_launch_check region s' in
     (res r' = Ret tt /\ settled (evs r')) \/
     (exists x, res r' = Raise x /\ effects (evs r') = [ECall GetCallerIdentity (inl x)])) /\
  (forall id s',
     let r' := Deploy.verify_new_role id s' in
     settled (evs r') /\
     ((exists role_name, res r' = Ret role_name) \/
      res r' = Raise Deploy.propagation_failure)).
Proof.
  intros d r.
  destruct (main_top_level config region s) as [Hg Htop].
  destruct (main_reports config region s) as (_ & _ & Hfatal).
  split; [exact Htop|]. split; [exact Hg|]. split; [exact Hfatal|].
  split; [intros name s'; apply (check_existing_settled region name s')|].
  split; [intros role_name s'; apply (add_permissions_settled config region role_name s')|].
  split; [intros s'; apply (setup_settled config region s')|].
  split; [intros s'; apply (new_deployment_guarded config region s')|].
  split; [intros s'; apply (pre_launch_check_ends region s')|].
  intros id s'. apply (verify_new_role_ends id s').
Qed.

(** C8 on a first deployment whose launch is refused: the error is
    reported and the exit status is 1. *)
Lemma deploy_errors_reported_or_absorbed_witness :
  let r := Deploy.main (W:=Cloud.world) Scenarios.cfg "us-east-1" Scenarios.launch_denied in
  In (AccessDenied AgentCore) (fatal_failures (evs r)) /\
  res r = SysExit 1 /\
  reported (AccessDenied AgentCore) (evs r).
Proof.
  intros r.
  assert (Hin : In (AccessDenied AgentCore) (fatal_failures (evs r)))
    by (vm_compute; by left).
  split; [exact Hin|].
  exact (proj1 (proj2 (proj2 (deploy_errors_reported_or_absorbed Cloud.world
           Scenarios.cfg "us-east-1" Scenarios.launch_denied))) _ Hin).
Defined.

(** C8 as the claim states it fails: on the reference cloud, a first
    deployment by a caller who may not attach role policies is refused that
    call, prints a warning and ends with exit status 0. *)
Lemma refused_policy_not_fatal :
  ~ permission_denied_fatal Scenarios.cfg "us-east-1" Scenarios.policy_denied.
Proof.
  unfold permission_denied_fatal. intros H. apply H; vm_compute; reflexivity.
Qed.

(** In that run the three policies are missing from the role of the
    runtime, and the completion line is printed. *)
Example refused_policy_run :
  let r := Deploy.main (W:=Cloud.world) Scenarios.cfg "us-east-1" Scenarios.policy_denied in
  res r = Ret tt /\
  Cloud.roles (fin r) !! Scenarios.role_name = Some [] /\
  printed ("⚠️  Warning: Could not add permissions: " +:+ exn_str (AccessDenied IAM)) (evs r) /\
  printed "✅ DEPLOYMENT COMPLETED SUCCESSFULLY!" (evs r).
Proof. vm_compute. done. Qed.

(** A caller who may not list the runtimes: the detection takes the
    existing runtime for absent, and the run provisions a new pool. *)
Example refused_listing_run :
  let s := Scenarios.listing_denied in
  let d := Deploy.check_existing_mcp_server (W:=Cloud.world) "us-east-1" "ins-mcp" s in
  let r := Deploy.main (W:=Cloud.world) Scenarios.cfg "us-east-1" s in
  effects (evs d) = [ECall ListAgentRuntimes (inl (AccessDenied AgentCore))] /\
  res d = Ret None /\
  existsb (fun e => match e with ECall (CreateUserPool _ _) _ => true | _ => false end)
          (evs r) = true.
Proof. vm_compute. done. Qed.

(** The same refused call is fatal at one place and caught at another.  On
    a first deployment [get_caller_identity] is called before the check of
    the roles, outside every handler: the run ends with exit status 1 and
    the report of the error, which is none of the six calls above. *)
Example refused_identity_run :
  let r := Deploy.main (W:=Cloud.world) Scenarios.cfg "us-east-1" Scenarios.identity_denied in
  res r = SysExit 1 /\
  fatal_failures (evs r) = [] /\
  failures (evs r) = [AccessDenied STS] /\
  existsb (is_line ("   Error: " +:+ exn_str (AccessDenied STS))) (evs r) = true.
Proof. vm_compute. done. Qed.

(** On an update the only [get_caller_identity] is the one of
    [add_permissions]: the refusal is printed as a warning and the run ends
    with exit status 0. *)
Example refused_identity_update_run :
  let r := Deploy.main (W:=Cloud.world) Scenarios.cfg "us-east-1"
             Scenarios.identity_denied_update in
  res r = Ret tt /\
  failures (evs r) = [AccessDenied STS] /\
  printed (permissions_line (AccessDenied STS)) (evs r) /\
  printed "✅ UPDATE COMPLETED SUCCESSFULLY!" (evs r).
Proof. vm_compute. done. Qed.

(* ================================================================== *)
(** ** Deploy: the two checks of the role propagation *)

Lemma omap_prints {A} (f : event -> option A) ls :
  (forall l, f (EPrint l) = None) -> omap f (EPrint <$> ls) = [].
Proof.
  intros Hf. induction ls as [|l ls IH]; [done|].
  rewrite fmap_cons. cbn [omap list_omap]. by rewrite Hf.
Qed.

Lemma omap_local {A} (f : event -> option A) (P : event -> bool) tr :
  forallb P tr = true -> (forall e, P e = true -> f e = None) -> omap f tr = [].
Proof.
  intros Htr HP. induction tr as [|e tr IH]; [done|].
  cbn [forallb] in Htr. apply andb_true_iff in Htr as [He Htr].
  cbn [omap list_omap]. rewrite (HP e He). by apply IH.
Qed.

Lemma omap_effects {A} (f : event -> option A) tr :
  (forall l, f (EPrint l) = None) -> omap f (effects tr) = omap f tr.
Proof.
  intros Hf. induction tr as [|e tr IH]; [done|].
  destruct e as [l| |X c r]; cbn [effects List.filter is_print negb omap list_omap];
    fold (effects tr); rewrite ?Hf, IH; done.
Qed.

Lemma role_listings_rounds region answers :
  role_listings (concat (pre_round region <$> answers)) = answers.
Proof.
  induction answers as [|a answers IH]; [done|].
  rewrite fmap_cons. cbn [concat]. unfold role_listings in *. rewrite omap_app, IH.
  unfold pre_round. by destruct (roles_ready region a).
Qed.

Lemma existsb_effects (f : event -> bool) tr :
  (forall l, f (EPrint l) = false) -> existsb f (effects tr) = existsb f tr.
Proof.
  intros Hf. induction tr as [|e tr IH]; [done|].
  destruct e as [l| |X c r]; cbn [effects List.filter is_print negb existsb];
    fold (effects tr); rewrite ?Hf, IH; done.
Qed.

Lemma after_launch_app_none A B :
  forallb (fun e => negb (is_launch e)) A = true ->
  after_launch (A ++ B) = after_launch B.
Proof.
  induction A as [|e A IH]; [done|]. cbn [forallb app].
  intros [He HA]%andb_true_iff.
  destruct e as [| |X c r]; cbn [after_launch]; auto.
  destruct c; cbn in He |- *; auto. done.
Qed.

Lemma after_launch_none A :
  forallb (fun e => negb (is_launch e)) A = true -> after_launch A = [].
Proof.
  intros H. rewrite <- (app_nil_r A). by rewrite after_launch_app_none.
Qed.

Lemma post_probes_prints tr ls :
  post_probes (tr ++ (EPrint <$> ls)) = post_probes tr.
Proof.
  unfold post_probes. induction tr as [|e tr IH].
  - cbn [app after_launch]. rewrite after_launch_none by (by apply forallb_prints).
    done.
  - cbn [app]. destruct e as [| |X c r]; cbn [after_launch]; auto.
    destruct c; auto.
    rewrite omap_app, omap_prints, app_nil_r; done.
Qed.

Lemma launch_follows_app_r A tr : launch_follows tr -> launch_follows (A ++ tr).
Proof.
  intros (before & after & a & rest & -> & H).
  exists (A ++ before), after, a, rest. split; [by rewrite app_assoc|done].
Qed.

Lemma launch_follows_app_l tr B : launch_follows tr -> launch_follows (tr ++ B).
Proof.
  intros (before & after & a & rest & -> & H).
  exists before, (after ++ B), a, (rest ++ effects B). split.
  - by rewrite <- app_assoc.
  - by rewrite effects_app, H.
Qed.

Lemma launch_follows_here before after a rest :
  effects after = ECall (RuntimeLaunch true) a :: rest ->
  launch_follows (before ++ [EPrint Deploy.pre_launch_warning] ++ after).
Proof. intros H. by exists before, after, a, rest. Qed.

Lemma checks_ok_calm region o tr :
  forallb calm_event tr = true -> checks_ok region o tr.
Proof.
  intros H. split.
  - intros [Hn _]. unfold role_listings in Hn.
    rewrite (omap_local role_listing calm_event tr H) in Hn by local_kinds. done.
  - intros [Hn _]. unfold post_probes in Hn.
    rewrite after_launch_none in Hn by (revert H; apply forallb_weaken; kinds). done.
Qed.

Lemma checks_ok_app_calm region A o tr :
  forallb calm_event A = true -> checks_ok region o tr -> checks_ok region o (A ++ tr).
Proof.
  intros HA [Hpre Hpost]. split.
  - unfold pre_exhausted, role_listings. rewrite omap_app.
    rewrite (omap_local role_listing calm_event A HA) by local_kinds.
    intros H. destruct (Hpre H) as [Hp Hl]. split.
    + by apply printed_app_r.
    + by apply launch_follows_app_r.
  - unfold post_exhausted, post_probes.
    rewrite after_launch_app_none by (revert HA; apply forallb_weaken; kinds).
    rewrite existsb_app. intros [Hn [_ Hc]%orb_false_iff].
    destruct (Hpost (conj Hn Hc)) as [-> Hb]. split; [done|].
    rewrite forallb_app, Hb, andb_true_r. revert HA. apply forallb_weaken. kinds.
Qed.

Ltac use_eqs :=
  repeat match goal with
         | H : roleArn _ = _ |- _ => rewrite H
         | H : String.eqb _ _ = _ |- _ => rewrite H
         end.

Lemma launch_follows_printed tr :
  launch_follows tr -> printed Deploy.pre_launch_warning tr.
Proof.
  intros (before & after & a & rest & -> & _).
  apply printed_intro, in_app_iff. right. by left.
Qed.

Lemma launch_follows_head after a rest :
  effects after = ECall (RuntimeLaunch true) a :: rest ->
  launch_follows ([EPrint Deploy.pre_launch_warning] ++ after).
Proof. intros H. by exists [], after, a, rest. Qed.

Lemma omap_one {A} (f : event -> option A) e :
  omap f [e] = match f e with Some a => [a] | None => [] end.
Proof. done. Qed.

(** [omap f] over the events of a run given by its parts. *)
Ltac by_kind H :=
  rewrite ?omap_app in H;
  rewrite ?omap_prints in H by done;
  repeat match type of H with
         | context [omap ?f ?t] =>
             match goal with
             | Hk : forallb ?P t = true |- _ =>
                 rewrite (omap_local f P t Hk) in H by local_kinds
             end
         end;
  rewrite ?omap_one in H;
  cbn [role_listing runtime_probe app] in H;
  rewrite ?app_nil_r in H.

(** No event of the part is a launch. *)
Ltac no_launch :=
  first [ by apply forallb_prints
        | done
        | match goal with
          | H : forallb _ ?t = true |- forallb _ ?t = true =>
              by (eapply forallb_weaken; [|exact H]; kinds)
          end ].

Lemma after_launch_here b r rest :
  after_launch ([ECall (RuntimeLaunch b) r] ++ rest) = rest.
Proof. done. Qed.

(** The events after the launch, for a run given by its parts. *)
Ltac past_launch H :=
  rewrite <- ?app_assoc in H;
  repeat rewrite after_launch_app_none in H by no_launch;
  first [ rewrite after_launch_none in H by no_launch
        | rewrite after_launch_here in H
        | cbn [after_launch] in H ].

Ltac follows :=
  repeat lazymatch goal with
         | |- launch_follows ([EPrint Deploy.pre_launch_warning] ++ _) =>
             eapply launch_follows_head;
             rewrite ?effects_app, ?effects_prints; cbn [app]; reflexivity
         | |- launch_follows (_ ++ _) => apply launch_follows_app_r
         end.

Lemma launch_follows_both tr :
  launch_follows tr -> printed Deploy.pre_launch_warning tr /\ launch_follows tr.
Proof. intros H. split; [by apply launch_follows_printed|exact H]. Qed.

(** The first half of [checks_ok] for a run given by its parts: the
    listings of the roles are those of the check before the launch. *)
Ltac pre_part :=
  let Hn := fresh "Hn" in
  let Hex := fresh "Hex" in
  let Ho := fresh "Ho" in
  let before := fresh "before" in
  intros [Hn Hex]; unfold role_listings in *; by_kind Hn; by_kind Hex;
  try discriminate Hn;
  match goal with
  | Hs : pre_exhausted _ ?t -> _ |- _ =>
      destruct (Hs (conj Hn Hex)) as [Ho [before ->]]
  end;
  try discriminate Ho;
  rewrite <- ?app_assoc; apply launch_follows_both; follows.

(** The second half: a verification that returned has seen the role; one
    that raised was followed by nothing; without a verification there are
    not 24 probes after the launch. *)
Ltac post_part :=
  let Hn := fresh "Hn" in
  let Hc := fresh "Hc" in
  intros [Hn Hc];
  first
    [ exfalso; rewrite ?existsb_app in Hc;
      match goal with
      | Hv : existsb role_confirmed _ = true |- _ => rewrite Hv in Hc
      end;
      rewrite ?orb_true_l, ?orb_true_r in Hc; discriminate Hc
    | split; [by subst|pieces]
    | exfalso; unfold post_probes in Hn; past_launch Hn; by_kind Hn;
      discriminate Hn ].

(** A part of the run for which a lemma tells what it may do. *)
Ltac wp_part lem :=
  eapply wp_mono; [apply lem|];
  let o := fresh "o" in
  let tr := fresh "tr" in
  let Hk := fresh "Hk" in
  let Hs := fresh "Hs" in
  intros o tr [Hk Hs]; destruct o as [?a|?e|?c]; try (exfalso; exact Hs); wp_simpl.

Section Propagation.
Context {W : World}.
Variable config : EnterpriseConfig.
Variable region : string.

Lemma pre_launch_loop_done fuel attempt :
  Deploy.pre_launch_loop (W:=W) region fuel attempt true = ret (attempt, true).
Proof.
  destruct fuel as [|fuel]; [done|]. cbn [Deploy.pre_launch_loop].
  by rewrite andb_false_r.
Qed.

Lemma pre_launch_loop_rounds fuel attempt :
  wp (Deploy.pre_launch_loop (W:=W) region fuel attempt false) (fun o tr =>
    exists answers,
      effects tr = concat (pre_round region <$> answers) /\
      length answers <= Nat.min fuel (Deploy.max_attempts - attempt) /\
      ((exists init last,
          answers = init ++ [last] /\
          Forall (fun a => roles_ready region a = false) init /\
          roles_ready region last = true /\
          o = Ret (attempt + length answers, true)) \/
       (Forall (fun a => roles_ready region a = false) answers /\
        length answers = Nat.min fuel (Deploy.max_attempts - attempt) /\
        o = Ret (attempt + length answers, false)))).
Proof.
  assert (Hmax : Deploy.max_attempts = 24) by reflexivity.
  revert attempt. induction fuel as [|fuel IH]; intros attempt;
    cbn [Deploy.pre_launch_loop].
  - apply wp_ret. exists []. split; [done|]. split; [cbn [length]; lia|].
    right. split; [done|]. split; [cbn [length]; lia|]. cbn [length]. by rewrite Nat.add_0_r.
  - rewrite andb_true_r.
    destruct (attempt <? Deploy.max_attempts) eqn:Hlt.
    2:{ apply wp_ret. apply Nat.ltb_ge in Hlt. exists [].
        split; [done|]. split; [cbn [length]; lia|]. right.
        split; [done|]. split; [cbn [length]; lia|]. cbn [length]. by rewrite Nat.add_0_r. }
    apply Nat.ltb_lt in Hlt.
    assert (Hbudget : Nat.min (S fuel) (Deploy.max_attempts - attempt)
                      = S (Nat.min fuel (Deploy.max_attempts - (attempt + 1)))).
    { lia. }
    rewrite Hbudget.
    wp_go.
    + (* the listing raised *)
      eapply wp_mono; [apply IH|].
      intros o tr (answers & Htr & Hlen & Hres).
      exists (inl e :: answers). split.
      { rewrite !effects_app, Htr. done. }
      split; [cbn [length]; lia|].
      destruct Hres as [(init & last & -> & Hinit & Hlast & ->)|(Hall & Hn & ->)].
      * left. exists (inl e :: init), last. split; [done|].
        split; [by constructor|]. split; [done|]. do 2 f_equal. cbn [length]. lia.
      * right. split; [by constructor|]. split; [cbn [length]; lia|].
        do 2 f_equal. cbn [length]. lia.
    + (* both roles are listed *)
      rewrite pre_launch_loop_done. apply wp_ret.
      assert (Hready : roles_ready region (inr a) = true) by done.
      exists [inr a]. split.
      { change (concat (pre_round region <$> [inr a]))
          with (pre_round region (inr a) ++ []).
        unfold pre_round. rewrite Hready. by rewrite !effects_app. }
      split; [cbn [length]; lia|].
      left. exists [], (inr a). split; [done|]. split; [done|]. split; [done|].
      done.
    + (* a role is missing *)
      assert (Hready : roles_ready region (inr a) = false) by done.
      eapply wp_mono; [apply IH|].
      intros o tr (answers & Htr & Hlen & Hres).
      exists (inr a :: answers). split.
      { change (concat (pre_round region <$> inr a :: answers))
          with (pre_round region (inr a) ++ concat (pre_round region <$> answers)).
        unfold pre_round at 1. rewrite Hready. by rewrite !effects_app, Htr. }
      split; [cbn [length]; lia|].
      destruct Hres as [(init & last & -> & Hinit & Hlast & ->)|(Hall & Hn & ->)].
      * left. exists (inr a :: init), last. split; [done|].
        split; [by constructor|]. split; [done|]. do 2 f_equal. cbn [length]. lia.
      * right. split; [by constructor|]. split; [cbn [length]; lia|].
        do 2 f_equal. cbn [length]. lia.
Qed.

Lemma post_launch_loop_done id fuel attempt name :
  Deploy.post_launch_loop (W:=W) id fuel attempt (Some name) = ret (attempt, Some name).
Proof.
  destruct fuel as [|fuel]; [done|]. cbn [Deploy.post_launch_loop].
  by rewrite andb_false_r.
Qed.

Lemma post_launch_loop_rounds id fuel attempt :
  wp (Deploy.post_launch_loop (W:=W) id fuel attempt None) (fun o tr =>
    exists rounds,
      effects tr = concat (post_round id <$> rounds) /\
      length rounds <= Nat.min fuel (Deploy.max_attempts - attempt) /\
      ((exists init last name,
          rounds = init ++ [last] /\
          Forall (fun p => round_verified p = false) init /\
          round_verified last = true /\
          role_of (fst last) = Some name /\
          o = Ret (attempt + length rounds, Some name)) \/
       (Forall (fun p => round_verified p = false) rounds /\
        length rounds = Nat.min fuel (Deploy.max_attempts - attempt) /\
        o = Ret (attempt + length rounds, None)))).
Proof.
  assert (Hmax : Deploy.max_attempts = 24) by reflexivity.
  revert attempt. induction fuel as [|fuel IH]; intros attempt;
    cbn [Deploy.post_launch_loop].
  - apply wp_ret. exists []. split; [done|]. split; [cbn [length]; lia|].
    right. split; [done|]. split; [cbn [length]; lia|]. cbn [length]. by rewrite Nat.add_0_r.
  - change (negb (bool_decide (is_Some (@None string)))) with true.
    rewrite andb_true_r.
    destruct (attempt <? Deploy.max_attempts) eqn:Hlt.
    2:{ apply wp_ret. apply Nat.ltb_ge in Hlt. exists [].
        split; [done|]. split; [cbn [length]; lia|]. right.
        split; [done|]. split; [cbn [length]; lia|]. cbn [length]. by rewrite Nat.add_0_r. }
    apply Nat.ltb_lt in Hlt.
    assert (Hbudget : Nat.min (S fuel) (Deploy.max_attempts - attempt)
                      = S (Nat.min fuel (Deploy.max_attempts - (attempt + 1)))).
    { lia. }
    rewrite Hbudget.
    wp_go.
    all: lazymatch goal with
         | |- context [ECall (GetRole _) ?g] =>
             lazymatch goal with
             | |- context [ECall (GetAgentRuntime _) ?a] => pose (p := (a, g))
             end
         | |- context [ECall (GetAgentRuntime _) ?a] =>
             pose (p := (a, @inl exn unit EOFError))
         end.
    all: assert (Hround : forall rest,
                   concat (post_round id <$> p :: rest)
                   = post_round id p ++ concat (post_round id <$> rest)) by done.
    all: try (assert (Hp : round_verified p = false)
                by (subst p; unfold round_verified, role_of; cbn [fst snd]; use_eqs; done);
              eapply wp_mono; [apply IH|];
              intros o tr (rounds & Htr & Hlen & Hres);
              exists (p :: rounds); split;
              [ rewrite Hround, <- Htr; subst p; unfold post_round, role_of; cbn [fst snd];
                use_eqs; by rewrite !effects_app
              | split; [cbn [length]; lia|];
                destruct Hres as [(init & last & name & -> & Hinit & Hlast & Hname & ->)
                                 |(Hall & Hn & ->)];
                [ left; exists (p :: init), last, name; split; [done|];
                  split; [by constructor|]; split; [done|]; split; [done|];
                  do 2 f_equal; cbn [length]; lia
                | right; split; [by constructor|]; split; [cbn [length]; lia|];
                  do 2 f_equal; cbn [length]; lia ] ]).
    (* the role is there *)
    assert (Hname : role_of (fst p) = Some (PyStr.last_segment s))
      by (subst p; unfold role_of; cbn [fst snd]; use_eqs; done).
    rewrite post_launch_loop_done. apply wp_ret.
    exists [p]. split.
    { rewrite Hround. subst p. unfold post_round, role_of. cbn [fst snd].
      use_eqs. by rewrite !effects_app, effects_prints. }
    split; [cbn [length]; lia|].
    left. exists [], p, (PyStr.last_segment s). split; [done|]. split; [done|].
    split; [|done]. unfold round_verified. rewrite Hname. subst p. by cbn [snd].
Qed.

(** The check before the launch: when it runs out of attempts it prints the
    warning, as its last line, and returns. *)
Lemma pre_launch_check_spec :
  wp (Deploy.pre_launch_check (W:=W) region) (fun o tr =>
    forallb pre_check_event tr = true /\
    (pre_exhausted region tr ->
     o = Ret tt /\ exists before, tr = before ++ [EPrint Deploy.pre_launch_warning])).
Proof.
  eapply wp_mono;
    [apply wp_conj; [apply (only_pre_launch_check (W:=W) region)|]
    |intros o tr [[H _] H']; split; [exact H|exact H']].
  unfold Deploy.pre_launch_check. wp_go.
  { intros [Hn _]. unfold role_listings in Hn.
    rewrite !omap_app, omap_prints in Hn by done. done. }
  eapply wp_mono; [apply pre_launch_loop_rounds|].
  intros o tr (answers & Htr & Hlen & Hres).
  assert (Hans : forall A B, role_listings (A ++ [ECall GetCallerIdentity (inr a)] ++ tr ++ B)
                             = role_listings A ++ answers ++ role_listings B).
  { intros A B. unfold role_listings. rewrite !omap_app.
    rewrite <- (omap_effects role_listing tr), Htr by done.
    pose proof (role_listings_rounds region answers) as Hr.
    unfold role_listings in Hr. by rewrite Hr. }
  destruct Hres as [(init & last & -> & Hinit & Hlast & ->)|(Hall & Hn & ->)];
    wp_go; intros [Hn' Hex].
  all: try match goal with H : snd _ = _ |- _ => cbn [snd] in H; discriminate H end.
  - exfalso. apply not_true_iff_false in Hex. apply Hex.
    rewrite Hans. apply existsb_exists. exists last. split; [|done].
    rewrite !in_app_iff. cbn [In]. auto 10.
  - split; [done|].
    match goal with
    | |- exists before, ?A ++ ?B ++ tr ++ ?C = _ => exists (A ++ B ++ tr)
    end.
    by rewrite <- !app_assoc.
Qed.

Lemma verify_new_role_rounds id :
  wp (Deploy.verify_new_role (W:=W) id) (fun o tr =>
    exists rounds,
      effects tr = concat (post_round id <$> rounds) /\
      length rounds <= Deploy.max_attempts /\
      ((exists init last name,
          rounds = init ++ [last] /\
          Forall (fun p => round_verified p = false) init /\
          round_verified last = true /\
          role_of (fst last) = Some name /\
          o = Ret name) \/
       (Forall (fun p => round_verified p = false) rounds /\
        length rounds = Deploy.max_attempts /\
        o = Raise Deploy.propagation_failure))).
Proof.
  unfold Deploy.verify_new_role. wp_go.
  eapply wp_mono; [apply post_launch_loop_rounds|].
  intros o tr (rounds & Htr & Hlen & Hres).
  rewrite Nat.sub_0_r, Nat.min_id in Hlen, Hres.
  destruct Hres as [(init & last & name & -> & Hinit & Hlast & Hname & ->)
                   |(Hall & Hn & ->)]; wp_go.
  all: cbn [snd] in *; try discriminate.
  - match goal with H : Some _ = Some _ |- _ => injection H as <- end.
    exists (init ++ [last]). split.
    { rewrite !effects_app, effects_prints, Htr. cbn. by rewrite app_nil_r. }
    split; [done|]. left. by exists init, last, name.
  - exists rounds. split.
    { rewrite !effects_app, effects_prints, Htr. cbn. by rewrite app_nil_r. }
    split; [done|]. by right.
Qed.

(** The check before the launch, by rounds: its [get_caller_identity],
    then at most 24 listings of the roles, each followed by a sleep of 5
    seconds unless it shows both roles.  The check returns in either case;
    after 24 listings without the roles its last line is the warning. *)
Lemma pre_launch_check_rounds :
  wp (Deploy.pre_launch_check (W:=W) region) (fun o tr =>
    exists identity rest,
      effects tr = ECall GetCallerIdentity identity :: rest /\
      match identity with
      | inl x => rest = [] /\ o = Raise x
      | inr _ =>
          exists answers,
            rest = concat (pre_round region <$> answers) /\
            length answers <= Deploy.max_attempts /\
            o = Ret tt /\
            ((exists init last,
                answers = init ++ [last] /\
                Forall (fun a => roles_ready region a = false) init /\
                roles_ready region last = true) \/
             (Forall (fun a => roles_ready region a = false) answers /\
              length answers = Deploy.max_attempts /\
              exists before, tr = before ++ [EPrint Deploy.pre_launch_warning]))
      end).
Proof.
  unfold Deploy.pre_launch_check. wp_go.
  { eexists _, _. split; [by rewrite effects_app, effects_prints|]. done. }
  eapply wp_mono; [apply pre_launch_loop_rounds|].
  intros o tr (answers & Htr & Hlen & Hres).
  rewrite Nat.sub_0_r, Nat.min_id in Hlen, Hres.
  destruct Hres as [(init & last & -> & Hinit & Hlast & ->)|(Hall & Hn & ->)]; wp_go.
  all: cbn [snd] in *; try discriminate.
  all: eexists _, _; (split; [rewrite !effects_app, effects_prints, Htr; cbn;
                              by rewrite app_nil_r|]).
  - exists (init ++ [last]). split; [done|]. split; [done|]. split; [done|].
    left. by exists init, last.
  - exists answers. split; [done|]. split; [done|]. split; [done|].
    right. split; [done|]. split; [done|].
    match goal with
    | |- exists before, ?A ++ ?B ++ tr ++ ?C = _ => exists (A ++ B ++ tr)
    end.
    by rewrite <- !app_assoc.
Qed.

(** What the caller of the verification needs: it returns only after a
    [get_role] that returned, and raises its own error only. *)
Lemma verify_new_role_spec id :
  wp (Deploy.verify_new_role (W:=W) id) (fun o tr =>
    forallb verify_event tr = true /\
    match o with
    | Ret _ => existsb role_confirmed tr = true
    | Raise e => e = Deploy.propagation_failure
    | SysExit _ => False
    end).
Proof.
  eapply wp_mono;
    [apply wp_conj; [apply (only_verify_new_role (W:=W))|apply verify_new_role_rounds]|].
  intros o tr [[Hk Hx] (rounds & Htr & Hlen & Hres)]. split; [exact Hk|].
  destruct Hres as [(init & last & name & -> & Hinit & Hlast & Hname & ->)
                   |(Hall & Hn & ->)]; [|done].
  rewrite <- (existsb_effects role_confirmed tr) by done. rewrite Htr.
  rewrite fmap_app, concat_app, existsb_app. apply orb_true_iff. right.
  cbn [fmap list_fmap concat]. rewrite app_nil_r. unfold post_round.
  unfold round_verified in Hlast. rewrite Hname in Hlast |- *.
  by destruct (snd last).
Qed.

Lemma add_permissions_part role_name :
  wp (Deploy.add_permissions (W:=W) config region role_name) (fun o tr =>
    forallb binder_event tr = true /\ match o with Ret _ => True | _ => False end).
Proof.
  eapply wp_mono;
    [apply wp_conj; [apply (only_add_permissions (W:=W) config region)
                    |apply (add_permissions_settled (W:=W) config region)]|].
  intros o tr [[Hk _] [-> _]]. done.
Qed.

Lemma launch_checks_ok existing cognito :
  wp (Deploy.launch_and_bind (W:=W) config region existing cognito) (checks_ok region).
Proof.
  destruct existing as [ec|];
    cbv beta delta [Deploy.launch_and_bind];
    [change (bool_decide (is_Some (Some ec))) with true
    |change (bool_decide (is_Some (@None Deploy.existing_config))) with false];
    unfold Deploy.getitem, Deploy.create_quicksuite_integration_doc; wp_go.
  all: repeat (first [ wp_part pre_launch_check_spec
                     | wp_part verify_new_role_spec
                     | wp_part add_permissions_part ];
               unfold Deploy.getitem; wp_go).
  all: split; [pre_part|post_part].
Qed.
Lemma deploy_checks_ok :
  wp (Deploy.deploy_mcp_server (W:=W) config region) (checks_ok region).
Proof.
  unfold Deploy.deploy_mcp_server. wp_go.
  all: try by (apply checks_ok_calm; pieces).
  all: wp_only (only_check_existing (W:=W) region).
  all: try by (apply checks_ok_calm; pieces).
  all: unfold Deploy.confirm_update, Deploy.new_deployment; wp_go.
  all: try by (apply checks_ok_calm; pieces).
  all: try (wp_only (only_setup (W:=W) config region); wp_go).
  all: try by (apply checks_ok_calm; pieces).
  all: eapply wp_mono; [apply launch_checks_ok|]; intros o' tr' H.
  all: rewrite <- ?app_assoc.
  all: repeat (apply checks_ok_app_calm; [by pieces|]).
  all: done.
Qed.

(** The two checks in a run of the script. *)
Lemma main_checks_ok s :
  let r := Deploy.main (W:=W) config region s in
  (pre_exhausted region (evs r) ->
   printed Deploy.pre_launch_warning (evs r) /\ launch_follows (evs r)) /\
  (post_exhausted (evs r) ->
   res r = SysExit 1 /\ reported Deploy.propagation_failure (evs r) /\
   forallb (fun e => negb (binding_call e)) (evs r) = true).
Proof.
  intros r. subst r. unfold Deploy.main, try_except.
  pose proof (deploy_checks_ok s) as [Hpre Hpost].
  destruct (res (Deploy.deploy_mcp_server config region s)) as [[]|x|c] eqn:Hd.
  - split; [exact Hpre|]. intros H. by destruct (Hpost H).
  - unfold bind, sys_exit. rewrite print_lines_run. cbn [res evs fin].
    rewrite app_nil_r. split.
    + unfold pre_exhausted, role_listings. rewrite omap_app, omap_prints, app_nil_r by done.
      intros H. destruct (Hpre H) as [Hp Hl]. split.
      * by apply printed_app_l.
      * by apply launch_follows_app_l.
    + unfold post_exhausted. rewrite post_probes_prints, existsb_app.
      intros [Hn [Hc _]%orb_false_iff]. destruct (Hpost (conj Hn Hc)) as [Hx Hb].
      injection Hx as ->. split; [done|]. split; [by eexists|].
      rewrite forallb_app, Hb. by apply forallb_prints.
  - split; [exact Hpre|]. intros H. by destruct (Hpost H).
Qed.

End Propagation.

(** C3.  [deploy_mcp.py] run as a script, in any world.

    - A run in which the roles were listed 24 times and never shown has
      printed the warning of the check before the launch, and the next
      thing it did after the warning was to call [launch].
    - A run in which the runtime was probed 24 times after the launch and
      no [get_role] returned ends with exit status 1 and the report of the
      error of the verification; it has attached no policy and written no
      integration document.
    - The check before the launch is its [get_caller_identity] and then at
      most 24 listings of the roles, each followed by a sleep of 5 seconds
      unless it shows both roles; it returns after a listing that shows
      them, and after 24 that do not, its last line then being the warning.
    - The verification after the launch is at most 24 rounds, each the
      probe of the runtime, [get_role] when the probe names a role, and a
      sleep of 5 seconds unless [get_role] returned; it returns the name of
      the role at the first round that verifies it, and raises its error
      after 24 that do not. *)
Theorem propagation_soft_before_fatal_after (W : World) (config : EnterpriseConfig)
    (region : string) (s : @PS W) :
  let r := Deploy.main config region s in
  (pre_exhausted region (evs r) ->
   printed Deploy.pre_launch_warning (evs r) /\ launch_follows (evs r)) /\
  (post_exhausted (evs r) ->
   res r = SysExit 1 /\ reported Deploy.propagation_failure (evs r) /\
   forallb (fun e => negb (binding_call e)) (evs r) = true) /\
  (forall s',
     let r' := Deploy.pre_launch_check region s' in
     exists identity rest,
       effects (evs r') = ECall GetCallerIdentity identity :: rest /\
       match identity with
       | inl x => rest = [] /\ res r' = Raise x
       | inr _ =>
           exists answers,
             rest = concat (pre_round region <$> answers) /\
             length answers <= 24 /\
             res r' = Ret tt /\
             ((exists init last,
                 answers = init ++ [last] /\
                 Forall (fun a => roles_ready region a = false) init /\
                 roles_ready region last = true) \/
              (Forall (fun a => roles_ready region a = false) answers /\
               length answers = 24 /\
               exists before, evs r' = before ++ [EPrint Deploy.pre_launch_warning]))
       end) /\
  (forall id s',
     let r' := Deploy.verify_new_role id s' in
     exists rounds,
       effects (evs r') = concat (post_round id <$> rounds) /\
       length rounds <= 24 /\
       ((exists init last name,
           rounds = init ++ [last] /\
           Forall (fun p => round_verified p = false) init /\
           round_verified last = true /\
           role_of (fst last) = Some name /\
           res r' = Ret name) \/
        (Forall (fun p => round_verified p = false) rounds /\
         length rounds = 24 /\
         res r' = Raise Deploy.propagation_failure))).
Proof.
  intros r. destruct (main_checks_ok config region s) as [Hpre Hpost].
  split; [exact Hpre|]. split; [exact Hpost|]. split.
  - intros s'. apply (pre_launch_check_rounds region s').
  - intros id s'. apply (verify_new_role_rounds id s').
Qed.

(** C3 on the reference cloud, in a run that exhausts both checks. *)
Lemma propagation_soft_before_fatal_after_witness :
  let r := Deploy.main (W:=Cloud.world) Scenarios.cfg "us-east-1"
             Scenarios.propagation_stuck in
  (pre_exhausted "us-east-1" (evs r) /\ post_exhausted (evs r)) /\
  (printed Deploy.pre_launch_warning (evs r) /\ launch_follows (evs r)) /\
  (res r = SysExit 1 /\ reported Deploy.propagation_failure (evs r) /\
   forallb (fun e => negb (binding_call e)) (evs r) = true).
Proof.
  intros r.
  assert (Hpre : pre_exhausted "us-east-1" (evs r)) by (split; vm_compute; reflexivity).
  assert (Hpost : post_exhausted (evs r)) by (split; vm_compute; reflexivity).
  split; [by split|].
  destruct (propagation_soft_before_fatal_after Cloud.world Scenarios.cfg "us-east-1"
              Scenarios.propagation_stuck) as (H1 & H2 & _).
  split; [exact (H1 Hpre)|exact (H2 Hpost)].
Defined.

(** The run that exhausts both checks, event by event: 24 listings of the
    roles with 24 sleeps of 5 seconds, the launch, then 24 rounds of probe,
    [get_role] and sleep. *)
Example propagation_stuck_run :
  let r := Deploy.main (W:=Cloud.world) Scenarios.cfg "us-east-1"
             Scenarios.propagation_stuck in
  length (role_listings (evs r)) = 24 /\
  length (post_probes (evs r)) = 24 /\
  length (List.filter (fun e => match e with ESleep 5 => true | _ => false end) (evs r)) = 48 /\
  exit_status (res r) = 1.
Proof. vm_compute. done. Qed.
